(** * Products API (Express server, [assignment/server.js])

    A shallow embedding of the request pipeline of [server.js]: the
    middleware ([logger], [apiKeyMiddleware], [validateProduct]), the route
    table in registration order, the handlers and the global error handler,
    together with the fragments of the JavaScript run time they rely on
    (truthiness, [typeof], [ToNumber], [parseFloat], [parseInt],
    [String.prototype.toLowerCase] / [includes], [Array.prototype.slice] and
    the key order of ordinary objects).

    Modelling conventions.
    - Numbers: a finite number is a rational, next to [NaN] and the two
      infinities.  Reading a decimal literal, adding prices and dividing
      their sum round to binary64 (to nearest, ties to even, overflow to an
      infinity); counts are integers far below [2^53] and are added
      exactly.  The sign of zero is not represented.
    - Strings are sequences of 8-bit characters; case conversion acts on the
      letters A-Z.
    - A JSON array or object occurring where the code expects a scalar is
      represented by the string its conversion to a primitive yields, or by
      [VOpaque] when that conversion throws.
    - The path of a request is the list of its segments; a trailing slash
      leaves an empty last segment.
    - [console] output and response headers are not part of the state. *)

From Stdlib Require Import List String Ascii Bool ZArith NArith QArith Lia Sorted.
From Stdlib Require Qcanon DecimalString.
Import ListNotations.

Local Open Scope string_scope.
Local Open Scope list_scope.

(** ** JavaScript run-time fragments *)

Module JS.

(** *** Numbers *)

Inductive num : Type :=
| NaN
| PInf
| NInf
| Fin (q : Q).

Definition of_Z (z : Z) : num := Fin (inject_Z z).
Definition of_nat (n : nat) : num := of_Z (Z.of_nat n).

(** [Number.isNaN] on a number. *)
Definition is_nan (n : num) : bool :=
  match n with NaN => true | _ => false end.

(** A number is falsy when it is zero or [NaN]. *)
Definition num_falsy (n : num) : bool :=
  match n with
  | NaN => true
  | Fin q => Qeq_bool q 0
  | _ => false
  end.

(** The exact sum [a + b] of two numbers. *)
Definition num_add (a b : num) : num :=
  match a, b with
  | NaN, _ | _, NaN => NaN
  | PInf, NInf | NInf, PInf => NaN
  | PInf, _ | _, PInf => PInf
  | NInf, _ | _, NInf => NInf
  | Fin p, Fin q => Fin (Qred (p + q))
  end.

Definition Qneg_bool (q : Q) : bool := negb (Qle_bool 0 q).

(** The exact quotient [a / b] of two numbers. *)
Definition num_div (a b : num) : num :=
  match a, b with
  | NaN, _ | _, NaN => NaN
  | (PInf | NInf), (PInf | NInf) => NaN
  | PInf, Fin q => if Qneg_bool q then NInf else PInf
  | NInf, Fin q => if Qneg_bool q then PInf else NInf
  | Fin _, (PInf | NInf) => Fin 0
  | Fin p, Fin q =>
      if Qeq_bool q 0 then
        if Qeq_bool p 0 then NaN
        else if Qneg_bool p then NInf else PInf
      else Fin (Qred (p / q))
  end.

(** [a <= b] on numbers: false as soon as one side is [NaN]. *)
Definition num_le (a b : num) : bool :=
  match a, b with
  | NaN, _ | _, NaN => false
  | NInf, _ => true
  | _, PInf => true
  | PInf, _ => false
  | _, NInf => false
  | Fin p, Fin q => Qle_bool p q
  end.

(** [n || d] on numbers. *)
Definition num_or (n d : num) : num := if num_falsy n then d else n.

(** Equality of numbers up to the representation of the rational. *)
Definition num_equiv (a b : num) : Prop :=
  match a, b with
  | NaN, NaN | PInf, PInf | NInf, NInf => True
  | Fin p, Fin q => Qeq p q
  | _, _ => False
  end.

(** *** binary64

    A finite binary64 value is a rational [m * 2^e] with [|m| < 2^53] and
    [-1074 <= e <= 971]. *)

(** The integer [e] with [2^e <= n/d < 2^(e+1)], for [n > 0]. *)
Definition Qlog2 (n : Z) (d : positive) : Z :=
  let e0 := (Z.log2 n - Z.log2 (Zpos d))%Z in
  let below :=
    if (0 <=? e0)%Z then (n <? Zpos d * 2 ^ e0)%Z
    else (n * 2 ^ (- e0) <? Zpos d)%Z in
  if below then (e0 - 1)%Z else e0.

(** The integer nearest to [n/d], the even one of the two when [n/d] lies
    half way; [n >= 0], [d > 0]. *)
Definition round_half_even (n d : Z) : Z :=
  let fl := (n / d)%Z in
  let r := (n mod d)%Z in
  match (2 * r ?= d)%Z with
  | Lt => fl
  | Gt => (fl + 1)%Z
  | Eq => if Z.even fl then fl else (fl + 1)%Z
  end.

(** The binary64 value nearest to a rational: 53 significant bits down to
    the exponent -1022, multiples of [2^-1074] below, an infinity from
    [2^1024 - 2^970] on. *)
Definition round64 (q : Q) : num :=
  let q := Qred q in
  let n := Z.abs (Qnum q) in
  let d := Qden q in
  if (n =? 0)%Z then Fin 0
  else
    let e := Qlog2 n d in
    let qe := (Z.max e (-1022) - 52)%Z in
    let m :=
      if (0 <=? qe)%Z then round_half_even n (Zpos d * 2 ^ qe)
      else round_half_even (n * 2 ^ (- qe)) (Zpos d) in
    if (0 <=? qe)%Z && (2 ^ 1024 <=? m * 2 ^ qe)%Z
    then (if (Qnum q <? 0)%Z then NInf else PInf)
    else
      let v :=
        if (0 <=? qe)%Z then inject_Z (m * 2 ^ qe)
        else Qred (m # Z.to_pos (2 ^ (- qe))) in
      Fin (if (Qnum q <? 0)%Z then Qopp v else v).

Definition round_num (n : num) : num :=
  match n with
  | Fin q => round64 q
  | _ => n
  end.

(** [a + b] and [a / b] in binary64: the exact result, rounded. *)
Definition float_add (a b : num) : num := round_num (num_add a b).
Definition float_div (a b : num) : num := round_num (num_div a b).

(** A numeric literal of the program text. *)
Definition literal (q : Q) : num := round64 q.

(** *** Strings *)

Definition is_upper (c : ascii) : bool :=
  let n := nat_of_ascii c in (65 <=? n)%nat && (n <=? 90)%nat.

Definition lower_char (c : ascii) : ascii :=
  if is_upper c then ascii_of_nat (nat_of_ascii c + 32) else c.

(** [String.prototype.toLowerCase]. *)
Fixpoint toLowerCase (s : string) : string :=
  match s with
  | EmptyString => EmptyString
  | String c s' => String (lower_char c) (toLowerCase s')
  end.

(** [s.includes(t)]: [t] occurs in [s] as a contiguous substring. *)
Fixpoint includes (s t : string) : bool :=
  String.prefix t s ||
  match s with
  | EmptyString => false
  | String _ s' => includes s' t
  end.

(** White space accepted around numeric literals: TAB, LF, VT, FF, CR, SP. *)
Definition is_space (c : ascii) : bool :=
  let n := nat_of_ascii c in
  ((9 <=? n)%nat && (n <=? 13)%nat) || (n =? 32)%nat.

Fixpoint trim_left (s : string) : string :=
  match s with
  | String c s' => if is_space c then trim_left s' else s
  | EmptyString => EmptyString
  end.

Fixpoint trim_right (s : string) : string :=
  match s with
  | EmptyString => EmptyString
  | String c s' =>
      match trim_right s' with
      | EmptyString => if is_space c then EmptyString else String c EmptyString
      | t => String c t
      end
  end.

Definition trim (s : string) : string := trim_right (trim_left s).

(** The value of a character as a digit in the given radix. *)
Definition digit_val (radix : N) (c : ascii) : option N :=
  let n := N_of_ascii c in
  let d :=
    if (48 <=? n)%N && (n <=? 57)%N then Some (n - 48)%N
    else if (97 <=? n)%N && (n <=? 122)%N then Some (n - 87)%N
    else if (65 <=? n)%N && (n <=? 90)%N then Some (n - 55)%N
    else None in
  match d with
  | Some v => if (v <? radix)%N then Some v else None
  | None => None
  end.

(** The longest run of digits at the front of [s], and what follows it. *)
Fixpoint span_digits (radix : N) (s : string) : list N * string :=
  match s with
  | EmptyString => ([], EmptyString)
  | String c s' =>
      match digit_val radix c with
      | Some d => let '(ds, r) := span_digits radix s' in (d :: ds, r)
      | None => ([], s)
      end
  end.

Definition digits_value (radix : N) (ds : list N) : N :=
  fold_left (fun acc d => (acc * radix + d)%N) ds 0%N.

(** An optional sign: [true] for a minus. *)
Definition read_sign (s : string) : bool * string :=
  match s with
  | String "-" r => (true, r)
  | String "+" r => (false, r)
  | _ => (false, s)
  end.

(** [s] stripped of the prefix [p], when it starts with it. *)
Fixpoint strip_prefix (p s : string) : option string :=
  match p, s with
  | EmptyString, _ => Some s
  | String a p', String b s' =>
      if Ascii.eqb a b then strip_prefix p' s' else None
  | _, _ => None
  end.

(** An exponent part ([e], optional sign, digits) at the front of [s]; when there is none, the
    exponent is 0 and nothing is consumed. *)
Definition read_exponent (s : string) : Z * string :=
  match s with
  | String c r =>
      if Ascii.eqb c "e" || Ascii.eqb c "E" then
        let '(neg, r1) := read_sign r in
        match span_digits 10 r1 with
        | ([], _) => (0%Z, s)
        | (ds, r2) =>
            let e := Z.of_N (digits_value 10 ds) in
            ((if neg then - e else e)%Z, r2)
        end
      else (0%Z, s)
  | EmptyString => (0%Z, s)
  end.

(** The longest prefix of [s] that is a [StrDecimalLiteral] (sign,
    [Infinity], or digits with optional fraction and exponent): its value,
    rounded to binary64, and the rest of the string. *)
Definition read_decimal (s : string) : option (num * string) :=
  let '(neg, r) := read_sign s in
  match strip_prefix "Infinity" r with
  | Some r' => Some (if neg then NInf else PInf, r')
  | None =>
      let '(ip, r1) := span_digits 10 r in
      let '(fp, r2) :=
        match r1 with
        | String "." r1' =>
            let '(fp, r2) := span_digits 10 r1' in
            match ip, fp with
            | [], [] => ([], r1)
            | _, _ => (fp, r2)
            end
        | _ => ([], r1)
        end in
      match ip, fp with
      | [], [] => None
      | _, _ =>
          let '(e, r3) := read_exponent r2 in
          let m := Z.of_N (digits_value 10 (ip ++ fp)) in
          let k := Z.of_nat (List.length fp) in
          let q := inject_Z m * Qpower (inject_Z 10) (e - k) in
          Some (round64 (if neg then - q else q), r3)
      end
  end.

(** A [NonDecimalIntegerLiteral] ([0x], [0o], [0b]) spanning all of [s]. *)
Definition read_radix_literal (s : string) : option num :=
  match s with
  | String "0" (String c r) =>
      let radix :=
        if Ascii.eqb c "x" || Ascii.eqb c "X" then Some 16%N
        else if Ascii.eqb c "o" || Ascii.eqb c "O" then Some 8%N
        else if Ascii.eqb c "b" || Ascii.eqb c "B" then Some 2%N
        else None in
      match radix with
      | Some rx =>
          match span_digits rx r with
          | (d :: ds, EmptyString) =>
              Some (round64 (inject_Z (Z.of_N (digits_value rx (d :: ds)))))
          | _ => Some NaN
          end
      | None => None
      end
  | _ => None
  end.

(** [StringToNumber]: the conversion [Number(s)] applies to a string. *)
Definition StringToNumber (s : string) : num :=
  let t := trim s in
  match t with
  | EmptyString => Fin 0
  | _ =>
      match read_radix_literal t with
      | Some n => n
      | None =>
          match read_decimal t with
          | Some (n, EmptyString) => n
          | _ => NaN
          end
      end
  end.

(** [parseFloat] on a string: leading white space is skipped and the
    longest decimal literal at the front is read. *)
Definition parseFloat_string (s : string) : num :=
  match read_decimal (trim_left s) with
  | Some (n, _) => n
  | None => NaN
  end.

(** [parseInt] on a string with no radix argument; [None] stands for
    [NaN]. *)
Definition parseInt_string (s : string) : option Z :=
  let '(neg, r) := read_sign (trim_left s) in
  let '(radix, r') :=
    match r with
    | String "0" (String c r1) =>
        if Ascii.eqb c "x" || Ascii.eqb c "X" then (16%N, r1) else (10%N, r)
    | _ => (10%N, r)
    end in
  match fst (span_digits radix r') with
  | [] => None
  | ds =>
      let v := Z.of_N (digits_value radix ds) in
      Some (if neg then - v else v)%Z
  end.

(** *** Ordinary objects used as maps

    The own properties of an object, in the order [Object.keys] and
    [JSON.stringify] enumerate them: array-index keys first, ascending, then
    the other string keys in the order they were created. *)

Definition object (A : Type) : Type := list (string * A).

(** The array index a key denotes: a canonical decimal numeral below
    [2^32 - 1]. *)
Definition array_index (k : string) : option N :=
  match span_digits 10 k with
  | (d :: ds, EmptyString) =>
      let v := digits_value 10 (d :: ds) in
      match d, ds with
      | 0%N, _ :: _ => None
      | _, _ => if (v <? 4294967295)%N then Some v else None
      end
  | _ => None
  end.

Fixpoint get_own {A} (o : object A) (k : string) : option A :=
  match o with
  | [] => None
  | (k', v) :: o' => if String.eqb k' k then Some v else get_own o' k
  end.

(** Where a new key goes among the existing ones. *)
Fixpoint insert_new {A} (o : object A) (k : string) (v : A) : object A :=
  match o with
  | [] => [(k, v)]
  | (k', v') :: o' =>
      match array_index k, array_index k' with
      | Some i, Some j =>
          if (i <? j)%N then (k, v) :: o else (k', v') :: insert_new o' k v
      | Some _, None => (k, v) :: o
      | None, _ => (k', v') :: insert_new o' k v
      end
  end.

Fixpoint update_own {A} (o : object A) (k : string) (v : A) : object A :=
  match o with
  | [] => []
  | (k', v') :: o' =>
      if String.eqb k' k then (k', v) :: o' else (k', v') :: update_own o' k v
  end.

(** [o[k] = v] on an object whose prototype has no setter for [k]. *)
Definition set_own {A} (o : object A) (k : string) (v : A) : object A :=
  match get_own o k with
  | Some _ => update_own o k v
  | None => insert_new o k v
  end.

(** [Object.keys(o)]. *)
Definition keys {A} (o : object A) : list string := map fst o.

(** The property names every object literal inherits from
    [Object.prototype]. *)
Definition inherited_names : list string :=
  [ "constructor"; "hasOwnProperty"; "isPrototypeOf"; "propertyIsEnumerable";
    "toLocaleString"; "toString"; "valueOf"; "__proto__";
    "__defineGetter__"; "__defineSetter__"; "__lookupGetter__";
    "__lookupSetter__" ].

Definition inherited (k : string) : bool :=
  existsb (String.eqb k) inherited_names.

(** *** Arrays *)

(** A relative index of [slice], clamped to [0 .. len]. *)
Definition relative_index (len i : Z) : Z :=
  if (i <? 0)%Z then Z.max (len + i) 0 else Z.min i len.

(** [l.slice(s, e)]. *)
Definition slice {A} (l : list A) (s e : Z) : list A :=
  let len := Z.of_nat (List.length l) in
  let k := relative_index len s in
  let final := relative_index len e in
  firstn (Z.to_nat (final - k)) (skipn (Z.to_nat k) l).

(** *** Exceptions *)

(** An exception object: the properties the error handler reads. *)
Record Error : Type := mkError {
  error_name : string;
  message : string;
  statusCode : option Z;
  errors : option (object string)
}.

(** A built-in [TypeError]: no [statusCode], no [errors]. *)
Definition TypeError (msg : string) : Error :=
  mkError "TypeError" msg None None.

(** A computation that returns or throws. *)
Inductive result (A : Type) : Type :=
| Ok (a : A)
| Throw (e : Error).
Arguments Ok {A} a.
Arguments Throw {A} e.

Definition bind {A B} (r : result A) (k : A -> result B) : result B :=
  match r with
  | Ok a => k a
  | Throw e => Throw e
  end.

Notation "x <- r ;; k" := (bind r (fun x => k))
  (at level 61, r at next level, right associativity).

(** *** Values *)

(** The values a JSON request body can put in a field.  [VObject prim] is an
    array or an object, [prim] being the string [ToPrimitive] gives for it
    (for instance ["5"] for [[5]] and ["[object Object]"] for [{}]);
    [VOpaque] is an array or an object for which [ToPrimitive] throws (for
    instance [{"toString": 1}], whose own [toString] is not callable while
    the inherited [valueOf] returns the object itself). *)
Inductive value : Type :=
| VUndefined
| VNull
| VBool (b : bool)
| VNum (n : num)
| VStr (s : string)
| VObject (prim : string)
| VOpaque.

(** [ToBoolean]. *)
Definition truthy (v : value) : bool :=
  match v with
  | VUndefined | VNull => false
  | VBool b => b
  | VNum n => negb (num_falsy n)
  | VStr s => negb (String.eqb s "")
  | VObject _ | VOpaque => true
  end.

Definition typeof (v : value) : string :=
  match v with
  | VUndefined => "undefined"
  | VNull | VObject _ | VOpaque => "object"
  | VBool _ => "boolean"
  | VNum _ => "number"
  | VStr _ => "string"
  end.

Definition no_primitive : Error :=
  TypeError "Cannot convert object to primitive value".

(** [ToPrimitive]. *)
Definition ToPrimitive (v : value) : result value :=
  match v with
  | VObject s => Ok (VStr s)
  | VOpaque => Throw no_primitive
  | _ => Ok v
  end.

(** [ToNumber]. *)
Definition ToNumber (v : value) : result num :=
  match v with
  | VUndefined => Ok NaN
  | VNull => Ok (Fin 0)
  | VBool b => Ok (if b then Fin 1 else Fin 0)
  | VNum n => Ok n
  | VStr s | VObject s => Ok (StringToNumber s)
  | VOpaque => Throw no_primitive
  end.

(** The global [isNaN(v)]. *)
Definition isNaN (v : value) : result bool :=
  n <- ToNumber v ;; Ok (is_nan n).

(** [v <= 0]: the right operand being a number, both sides are compared as
    numbers. *)
Definition le_zero (v : value) : result bool :=
  n <- ToNumber v ;; Ok (num_le n (Fin 0)).

(** [parseFloat(v)]: the argument is converted to a string first.  For a
    number the round trip through its decimal form gives the number back. *)
Definition parseFloat (v : value) : result num :=
  match v with
  | VNum n => Ok n
  | VStr s | VObject s => Ok (parseFloat_string s)
  | VUndefined | VNull | VBool _ => Ok NaN
  | VOpaque => Throw no_primitive
  end.

(** An instance of [Number.prototype.toString] for the examples: exact on
    [NaN], the infinities and the integers that binary64 holds exactly; the
    examples use no other number as a property key. *)
Definition toString_integral (n : num) : string :=
  match n with
  | NaN => "NaN"
  | PInf => "Infinity"
  | NInf => "-Infinity"
  | Fin q =>
      DecimalString.NilZero.string_of_int (Z.to_int (Qnum q / Zpos (Qden q)))
  end.

End JS.

Import JS.

(** ** Data of the application *)

(** A record of the [products] array: the [id] is a string, the other
    properties hold any value. *)
Record Product : Type := mkProduct {
  id : string;
  name : value;
  description : value;
  price : value;
  category : value;
  inStock : value
}.

(** The module-level variable [products]. *)
Definition store : Type := list Product.

(** The two records [products] starts with; the ids come from [uuidv4()]. *)
Definition initial_products (id1 id2 : string) : store :=
  [ mkProduct id1 (VStr "Laptop") (VStr "High performance laptop")
      (VNum (literal (99999 # 100))) (VStr "Electronics") (VBool true);
    mkProduct id2 (VStr "Smartphone") (VStr "Latest smartphone model")
      (VNum (literal (69999 # 100))) (VStr "Electronics") (VBool true) ].

(** The method of a request; [OTHER] stands for the methods no route of
    the program names (PATCH, TRACE, ...). *)
Inductive method : Type := GET | POST | PUT | DELETE | HEAD | OPTIONS | OTHER.

(** A parameter of the query string: absent, a string, or (repeated or
    bracketed parameters) an array or object, given by its primitive
    string. *)
Inductive qparam : Type :=
| QAbsent
| QStr (s : string)
| QOther (prim : string).

Definition qvalue (q : qparam) : value :=
  match q with
  | QAbsent => VUndefined
  | QStr s => VStr s
  | QOther s => VObject s
  end.

(** [req.query]. *)
Record query : Type := mkQuery {
  query_category : qparam;
  query_search : qparam;
  query_page : qparam;
  query_limit : qparam
}.

(** [req.body]: [undefined] when no body was parsed (Express 5), or an
    object, given by the five properties the handlers read; a property the
    object does not have is [VUndefined]. *)
Inductive body_fields : Type :=
| BodyUndefined
| mkBody (name description price category inStock : value).

(** The properties of the body where it is an object. *)
Definition body_name (b : body_fields) : value :=
  match b with mkBody name _ _ _ _ => name | BodyUndefined => VUndefined end.
Definition body_description (b : body_fields) : value :=
  match b with mkBody _ description _ _ _ => description | BodyUndefined => VUndefined end.
Definition body_price (b : body_fields) : value :=
  match b with mkBody _ _ price _ _ => price | BodyUndefined => VUndefined end.
Definition body_category (b : body_fields) : value :=
  match b with mkBody _ _ _ category _ => category | BodyUndefined => VUndefined end.
Definition body_inStock (b : body_fields) : value :=
  match b with mkBody _ _ _ _ inStock => inStock | BodyUndefined => VUndefined end.

(** What destructuring [req.body] throws when it is [undefined]. *)
Definition undefined_body : Error :=
  TypeError
    "Cannot destructure property 'name' of 'req.body' as it is undefined.".

Record request : Type := mkRequest {
  req_method : method;
  req_path : list string;             (* the segments of the path *)
  x_api_key : option string;          (* req.headers['x-api-key'] *)
  req_query : query;
  req_body : body_fields;
  req_params : object string          (* filled in by the matching route *)
}.

Definition with_params (req : request) (ps : object string) : request :=
  mkRequest (req_method req) (req_path req) (x_api_key req) (req_query req)
    (req_body req) ps.

Definition NotFoundError (msg : string) : Error :=
  mkError "NotFoundError" msg (Some 404%Z) None.

Definition ValidationError (msg : string) (errs : object string) : Error :=
  mkError "ValidationError" msg (Some 400%Z) (Some errs).

Module Stats.
Record t : Type := mk {
  totalProducts : nat;
  categories : object num;
  inStock : nat;
  outOfStock : nat;
  averagePrice : num
}.
End Stats.

(** What a response carries. *)
Inductive payload : Type :=
| Text (s : string)
| JProduct (p : Product)
| JPage (total : nat) (page limit : Z) (data : list Product)
| JStats (s : Stats.t)
| JMessage (msg : string) (errs : option (object string))
| Empty
| Default.                       (* the reply Express gives on its own *)

Record response : Type := mkResponse {
  status : Z;
  content : payload
}.

(** [l.filter(f)] with a callback that may throw. *)
Fixpoint filter_r {A} (f : A -> result bool) (l : list A) : result (list A) :=
  match l with
  | [] => Ok []
  | x :: l' =>
      b <- f x ;;
      r <- filter_r f l' ;;
      Ok (if b then x :: r else r)
  end.

(** [l.reduce(f, init)] and [l.forEach], with a callback that may throw. *)
Fixpoint reduce_r {A B} (f : B -> A -> result B) (l : list A) (init : B)
  : result B :=
  match l with
  | [] => Ok init
  | x :: l' => acc <- f init x ;; reduce_r f l' acc
  end.

(** [expr.toLowerCase()], [expr] evaluating to [v]. *)
Definition call_toLowerCase (expr : string) (v : value) : result string :=
  match v with
  | VStr s => Ok (toLowerCase s)
  | VUndefined =>
      Throw (TypeError
        "Cannot read properties of undefined (reading 'toLowerCase')")
  | VNull =>
      Throw (TypeError "Cannot read properties of null (reading 'toLowerCase')")
  | _ => Throw (TypeError (expr ++ ".toLowerCase is not a function"))
  end.

(** [parseInt(q) || d]. *)
Definition parseInt_or (q : qparam) (d : Z) : Z :=
  let parsed :=
    match q with
    | QAbsent => parseInt_string "undefined"
    | QStr s | QOther s => parseInt_string s
    end in
  match parsed with
  | Some z => if (z =? 0)%Z then d else z
  | None => d
  end.

(** [l.findIndex(f)]; [None] stands for -1. *)
Fixpoint findIndex {A} (f : A -> bool) (l : list A) : option nat :=
  match l with
  | [] => None
  | x :: l' =>
      if f x then Some 0%nat else option_map S (findIndex f l')
  end.

(** [l[i] = x] for an index inside the array. *)
Fixpoint assign_at {A} (l : list A) (i : nat) (x : A) : list A :=
  match l, i with
  | [], _ => []
  | _ :: l', O => x :: l'
  | y :: l', S i' => y :: assign_at l' i' x
  end.

(** ** Middleware and routing *)

(** How a middleware ends: it calls [next()], calls [next(err)] (or throws,
    which Express turns into the same), or sends the response. *)
Inductive outcome : Type :=
| Next
| NextErr (e : Error)
| Respond (r : response) (products' : store).

Definition middleware : Type := request -> store -> outcome.

Inductive segment : Type :=
| Lit (s : string)
| Param (name : string).

(** A layer of the application stack. *)
Inductive layer : Type :=
| Use (m : middleware)
| Route (meth : method) (pattern : list segment) (chain : list middleware)
| UseError (h : Error -> request -> response).

(** Whether a route registered for [route] takes a request of method
    [requested]: a route for GET also takes HEAD. *)
Definition handles_method (route requested : method) : bool :=
  match route, requested with
  | GET, (GET | HEAD) | POST, POST | PUT, PUT | DELETE, DELETE => true
  | _, _ => false
  end.

(** The methods a route reports for the automatic answer to OPTIONS. *)
Definition route_methods (route : method) : list string :=
  match route with
  | GET => ["GET"; "HEAD"]
  | POST => ["POST"]
  | PUT => ["PUT"]
  | DELETE => ["DELETE"]
  | _ => []
  end.

(** The methods collected so far, with those of [more] that are new. *)
Definition append_methods (allowed more : list string) : list string :=
  fold_left
    (fun l m => if existsb (String.eqb m) l then l else l ++ [m]) more allowed.

(** A path against a route pattern: literal segments are compared without
    regard to case, a parameter takes any non-empty segment, and one
    trailing slash is allowed. *)
Fixpoint match_path (pattern : list segment) (path : list string)
  : option (object string) :=
  match pattern, path with
  | [], [] => Some []
  | [], [s] => if String.eqb s "" then Some [] else None
  | Lit l :: pattern', s :: path' =>
      if String.eqb (toLowerCase l) (toLowerCase s)
      then match_path pattern' path' else None
  | Param n :: pattern', s :: path' =>
      if String.eqb s "" then None
      else option_map (fun ps => (n, s) :: ps) (match_path pattern' path')
  | _, _ => None
  end.

(** The handlers of one route, in order, until one does not call
    [next()]. *)
Fixpoint run_chain (chain : list middleware) (req : request) (products : store)
  : outcome :=
  match chain with
  | [] => Next
  | m :: chain' =>
      match m req products with
      | Next => run_chain chain' req products
      | o => o
      end
  end.

(** The answer of Express when the stack ends without one: to a request
    of method OPTIONS whose path some route matches, the methods of these
    routes; 404 otherwise. *)
Definition options_answer (req : request) (allowed : list string) : response :=
  match req_method req, allowed with
  | OPTIONS, _ :: _ => mkResponse 200 (Text (String.concat "," allowed))
  | _, _ => mkResponse 404 Default
  end.

(** The stack, walked in registration order.  [pending] is the error passed
    to [next], if any: ordinary layers are skipped while there is one, error
    handlers while there is none.  [allowed] collects, for a request of
    method OPTIONS, the methods of the routes its path matches; when the
    stack ends without an answer Express sends them as the answer. *)
Fixpoint handle (stack : list layer) (allowed : list string)
  (pending : option Error) (req : request) (products : store)
  : response * store :=
  let continue rest o :=
    match o with
    | Next => handle rest allowed None req products
    | NextErr e => handle rest allowed (Some e) req products
    | Respond r products' => (r, products')
    end in
  match stack with
  | [] =>
      match pending with
      | None => (options_answer req allowed, products)
      | Some _ => (mkResponse 500 Default, products)
      end
  | Use m :: rest =>
      match pending with
      | Some _ => handle rest allowed pending req products
      | None => continue rest (m req products)
      end
  | Route meth pattern chain :: rest =>
      match pending with
      | Some _ => handle rest allowed pending req products
      | None =>
          match match_path pattern (req_path req) with
          | Some ps =>
              if handles_method meth (req_method req) then
                continue rest (run_chain chain (with_params req ps) products)
              else
                handle rest
                  (match req_method req with
                   | OPTIONS => append_methods allowed (route_methods meth)
                   | _ => allowed
                   end) None req products
          | None => handle rest allowed None req products
          end
      end
  | UseError h :: rest =>
      match pending with
      | Some e => (h e req, products)
      | None => handle rest allowed None req products
      end
  end.

(** What is sent: the answer to a HEAD request goes out without its body. *)
Definition send (req : request) (answer : response * store) : response * store :=
  match req_method req with
  | HEAD => (mkResponse (status (fst answer)) Empty, snd answer)
  | _ => answer
  end.

(** ** The server *)

Section Server.

(** [Number.prototype.toString], needed where a number is used as a property
    key.  The shortest decimal form that reads back as the same binary64
    value is not expressible over exact rationals, so it is left open. *)
Variable Number_toString : num -> string.

(** [express.json()]: the parsed body is given with the request (a body
    that is not well-formed JSON is not represented). *)
Definition express_json : middleware := fun _ _ => Next.

(** [logger]: writes a line to the console and goes on. *)
Definition logger : middleware := fun _ _ => Next.

Definition apiKeyMiddleware : middleware := fun req products =>
  let apiKey := x_api_key req in
  let rejected :=
    match apiKey with
    | None => true
    | Some k =>
        negb (truthy (VStr k)) || negb (String.eqb k "secret-api-key")
    end in
  if rejected then
    Respond (mkResponse 401 (JMessage "Unauthorized: Invalid API key" None))
      products
  else Next.

(** The [errors] object [validateProduct] builds; destructuring an
    undefined body throws, and so does the conversion of a price that has
    no primitive value. *)
Definition validation_errors (b : body_fields) : result (object string) :=
  match b with
  | BodyUndefined => Throw undefined_body
  | mkBody name description price category inStock =>
      let errors := [] in
      let errors :=
        if negb (truthy name) then set_own errors "name" "Name is required"
        else errors in
      let errors :=
        if negb (truthy description)
        then set_own errors "description" "Description is required"
        else errors in
      let errors :=
        if negb (truthy price) then set_own errors "price" "Price is required"
        else errors in
      errors <-
        (if truthy price then
           nan <- isNaN price ;;
           not_positive <- (if nan then Ok true else le_zero price) ;;
           Ok (if not_positive
               then set_own errors "price" "Price must be a positive number"
               else errors)
         else Ok errors) ;;
      let errors :=
        if negb (truthy category)
        then set_own errors "category" "Category is required"
        else errors in
      let errors :=
        if negb (String.eqb (typeof inStock) "boolean")
        then set_own errors "inStock" "inStock must be a boolean"
        else errors in
      Ok errors
  end.

(** [validateProduct]; what it throws Express passes to [next]. *)
Definition validateProduct : middleware := fun req products =>
  match validation_errors (req_body req) with
  | Throw e => NextErr e
  | Ok errors =>
      if (0 <? List.length (keys errors))%nat then
        Respond (mkResponse 400 (JMessage "Validation failed" (Some errors)))
          products
      else Next
  end.

(** [asyncHandler(fn)]: a rejection of the handler's promise goes to
    [next]. *)
Definition asyncHandler (fn : request -> store -> result (response * store))
  : middleware := fun req products =>
  match fn req products with
  | Ok (r, products') => Respond r products'
  | Throw e => NextErr e
  end.

(** [GET /] *)
Definition get_root : middleware := fun _ products =>
  Respond (mkResponse 200 (Text "Products API - Use /api/products endpoints"))
    products.

(** [GET /api/products] *)
Definition get_products (req : request) (products : store)
  : result (response * store) :=
  let q := req_query req in
  let result := products in
  result <-
    (if truthy (qvalue (query_category q)) then
       filter_r (fun p =>
         a <- call_toLowerCase "p.category" (category p) ;;
         b <- call_toLowerCase "req.query.category" (qvalue (query_category q)) ;;
         Ok (String.eqb a b)) result
     else Ok result) ;;
  result <-
    (if truthy (qvalue (query_search q)) then
       searchTerm <- call_toLowerCase "req.query.search" (qvalue (query_search q)) ;;
       filter_r (fun p =>
         n <- call_toLowerCase "p.name" (name p) ;;
         Ok (includes n searchTerm)) result
     else Ok result) ;;
  let page := parseInt_or (query_page q) 1 in
  let limit := parseInt_or (query_limit q) 10 in
  let startIndex := ((page - 1) * limit)%Z in
  let endIndex := (page * limit)%Z in
  let paginatedResult := slice result startIndex endIndex in
  Ok (mkResponse 200 (JPage (List.length result) page limit paginatedResult),
      products).

(** [p.id === req.params.id] *)
Definition has_id (req : request) (p : Product) : bool :=
  match get_own (req_params req) "id" with
  | Some i => String.eqb (id p) i
  | None => false
  end.

(** [GET /api/products/:id] *)
Definition get_product (req : request) (products : store)
  : result (response * store) :=
  match find (has_id req) products with
  | None => Throw (NotFoundError "Product not found")
  | Some product => Ok (mkResponse 200 (JProduct product), products)
  end.

(** [POST /api/products]; [uuid] is what [uuidv4()] returns. *)
Definition post_product (uuid : string) (req : request) (products : store)
  : result (response * store) :=
  match req_body req with
  | BodyUndefined => Throw undefined_body
  | mkBody name description price category inStock =>
      parsed_price <- parseFloat price ;;
      let newProduct :=
        mkProduct uuid name description (VNum parsed_price) category inStock in
      Ok (mkResponse 201 (JProduct newProduct), products ++ [newProduct])
  end.

(** [PUT /api/products/:id] *)
Definition put_product (req : request) (products : store)
  : result (response * store) :=
  match findIndex (has_id req) products with
  | None => Throw (NotFoundError "Product not found")
  | Some productIndex =>
      match req_body req with
      | BodyUndefined => Throw undefined_body
      | mkBody name description price category inStock =>
          match nth_error products productIndex with
          | None => Throw (NotFoundError "Product not found")  (* not reached *)
          | Some old =>
              parsed_price <- parseFloat price ;;
              let updated :=
                mkProduct (id old) name description (VNum parsed_price) category
                  inStock in
              Ok (mkResponse 200 (JProduct updated),
                  assign_at products productIndex updated)
          end
      end
  end.

(** [DELETE /api/products/:id] *)
Definition delete_product (req : request) (products : store)
  : result (response * store) :=
  match findIndex (has_id req) products with
  | None => Throw (NotFoundError "Product not found")
  | Some _ =>
      Ok (mkResponse 204 Empty,
          filter (fun p => negb (has_id req p)) products)
  end.

(** [ToString]. *)
Definition ToString (v : value) : result string :=
  match v with
  | VStr s | VObject s => Ok s
  | VNum n => Ok (Number_toString n)
  | VBool true => Ok "true"
  | VBool false => Ok "false"
  | VNull => Ok "null"
  | VUndefined => Ok "undefined"
  | VOpaque => Throw no_primitive
  end.

(** The key a value denotes in [stats.categories[p.category]]. *)
Definition toPropertyKey (v : value) : result string := ToString v.

(** [a + b]: a concatenation as soon as one side is a string once
    converted to a primitive, the binary64 sum otherwise. *)
Definition plus (a b : value) : result value :=
  pa <- ToPrimitive a ;;
  pb <- ToPrimitive b ;;
  match pa, pb with
  | VStr _, _ | _, VStr _ =>
      sa <- ToString pa ;;
      sb <- ToString pb ;;
      Ok (VStr (sa ++ sb))
  | _, _ =>
      na <- ToNumber pa ;;
      nb <- ToNumber pb ;;
      Ok (VNum (float_add na nb))
  end.

(** What reading [stats.categories[k]] finds: an own count, something
    inherited from [Object.prototype] (a function, or the prototype itself
    for [__proto__]), or nothing. *)
Inductive property : Type :=
| Own (n : num)
| Inherited
| Missing.

Definition get_property (o : object num) (k : string) : property :=
  match get_own o k with
  | Some n => Own n
  | None => if inherited k then Inherited else Missing
  end.

(** [!stats.categories[k]] *)
Definition property_falsy (p : property) : bool :=
  match p with
  | Own n => num_falsy n
  | Inherited => false
  | Missing => true
  end.

(** [stats.categories[k] = n]: the inherited setter of [__proto__] drops a
    number; any other key becomes or stays an own property. *)
Definition put_property (o : object num) (k : string) (n : num) : object num :=
  match get_own o k with
  | Some _ => update_own o k n
  | None => if String.eqb k "__proto__" then o else insert_new o k n
  end.

(** [stats.categories[k]++]: a count is a whole number no larger than the
    array is long, so that adding 1 to it is exact. *)
Definition increment (o : object num) (k : string) : object num :=
  let old :=
    match get_property o k with
    | Own n => n
    | Inherited | Missing => NaN
    end in
  put_property o k (num_add old (Fin 1)).

(** The body of the [forEach] callback. *)
Definition count_category (categories : object num) (p : Product)
  : result (object num) :=
  k <- toPropertyKey (category p) ;;
  let categories :=
    if property_falsy (get_property categories k)
    then put_property categories k (Fin 0)
    else categories in
  Ok (increment categories k).

(** The [stats] object of the statistics handler. *)
Definition stats (products : store) : result Stats.t :=
  let totalProducts := List.length products in
  let inStockCount := List.length (filter (fun p => truthy (inStock p)) products) in
  let outOfStock :=
    List.length (filter (fun p => negb (truthy (inStock p))) products) in
  sum <- reduce_r (fun sum p => plus sum (price p)) products (VNum (Fin 0)) ;;
  dividend <- ToNumber sum ;;
  let averagePrice :=
    num_or (float_div dividend (of_nat (List.length products))) (Fin 0) in
  categories <- reduce_r count_category products [] ;;
  Ok (Stats.mk totalProducts categories inStockCount outOfStock averagePrice).

(** [GET /api/products/stats] *)
Definition get_stats (req : request) (products : store)
  : result (response * store) :=
  s <- stats products ;;
  Ok (mkResponse 200 (JStats s), products).

(** The global error handler. *)
Definition errorHandler (err : Error) (req : request) : response :=
  let statusCode :=
    match statusCode err with
    | Some c => if (c =? 0)%Z then 500%Z else c
    | None => 500%Z
    end in
  let msg :=
    if String.eqb (message err) "" then "Internal Server Error"
    else message err in
  mkResponse statusCode (JMessage msg (errors err)).

(** The application stack, in registration order. *)
Definition app (uuid : string) : list layer :=
  [ Use express_json;
    Use logger;
    Route GET [] [get_root];
    Route GET [Lit "api"; Lit "products"] [asyncHandler get_products];
    Route GET [Lit "api"; Lit "products"; Param "id"]
      [asyncHandler get_product];
    Route POST [Lit "api"; Lit "products"]
      [apiKeyMiddleware; validateProduct; asyncHandler (post_product uuid)];
    Route PUT [Lit "api"; Lit "products"; Param "id"]
      [apiKeyMiddleware; validateProduct; asyncHandler put_product];
    Route DELETE [Lit "api"; Lit "products"; Param "id"]
      [apiKeyMiddleware; asyncHandler delete_product];
    Route GET [Lit "api"; Lit "products"; Lit "stats"]
      [asyncHandler get_stats];
    UseError errorHandler ].

(** One request against the server. *)
Definition serve (uuid : string) (req : request) (products : store)
  : response * store :=
  send req (handle (app uuid) [] None req products).

(** ** Notions the properties are stated with *)

(** How the stack goes on after the chain of a route ended with [o]. *)
Definition continue_with (rest : list layer) (req : request) (products : store)
  (o : outcome) : response * store :=
  match o with
  | Next => handle rest [] None req products
  | NextErr e => handle rest [] (Some e) req products
  | Respond r products' => (r, products')
  end.

(** The answer of [GET /]. *)
Definition get_root_answer (products : store) : response * store :=
  (mkResponse 200 (Text "Products API - Use /api/products endpoints"), products).

(** The answer to a request whose route ended with [o]: the response sent,
    or the error handler's answer to the error passed on. *)
Definition finish (req : request) (products : store) (o : outcome)
  : response * store :=
  match o with
  | Respond r products' => (r, products')
  | NextErr e => (errorHandler e req, products)
  | Next => (mkResponse 404 Default, products)
  end.

(** An answer of 500 with the generic message and nothing of the error
    itself. *)
Definition answered_generically (err : Error) : Prop :=
  forall req : request,
    errorHandler err req = mkResponse 500 (JMessage "Internal Server Error" None).

(** The elements of [l] whose position lies in [lo, hi), positions counted
    from [i]. *)
Fixpoint window_from {A} (i : Z) (l : list A) (lo hi : Z) : list A :=
  match l with
  | [] => []
  | x :: l' =>
      if ((lo <=? i) && (i <? hi))%Z then x :: window_from (i + 1) l' lo hi
      else window_from (i + 1) l' lo hi
  end.

(** The window [lo, hi) of a sequence. *)
Definition window {A} (l : list A) (lo hi : Z) : list A :=
  window_from 0 l lo hi.

(** The category of [p] is the text [c], letter case aside. *)
Definition category_is (c : string) (p : Product) : bool :=
  match category p with
  | VStr s => String.eqb (toLowerCase s) (toLowerCase c)
  | _ => false
  end.

(** The name of [p] contains the text [t], letter case aside. *)
Definition name_contains (t : string) (p : Product) : bool :=
  match name p with
  | VStr s => includes (toLowerCase s) (toLowerCase t)
  | _ => false
  end.

(** Filtering on a parameter that is present. *)
Definition keep_if_present (q : qparam) (f : string -> Product -> bool)
  (l : store) : store :=
  match q with
  | QStr s => filter (f s) l
  | _ => l
  end.

(** Filtering on a parameter that is present and not empty. *)
Definition keep_if_nonempty (q : qparam) (f : string -> Product -> bool)
  (l : store) : store :=
  match q with
  | QStr s => if String.eqb s "" then l else filter (f s) l
  | _ => l
  end.

(** The sequence after the two filters, as the specification words it. *)
Definition filtered_as_specified (q : query) (products : store) : store :=
  keep_if_present (query_search q) name_contains
    (keep_if_present (query_category q) category_is products).

(** The sequence after the two filters, an empty category parameter
    counting as absent. *)
Definition filtered (q : query) (products : store) : store :=
  keep_if_present (query_search q) name_contains
    (keep_if_nonempty (query_category q) category_is products).

(** Names and categories are text. *)
Definition textual (p : Product) : Prop :=
  (exists s, name p = VStr s) /\ (exists s, category p = VStr s).

(** The parameter is absent or a single string. *)
Definition plain_param (q : qparam) : Prop :=
  match q with
  | QOther _ => False
  | _ => True
  end.

(** What [parseInt] makes of a parameter. *)
Definition parsed (q : qparam) : option Z :=
  match q with
  | QAbsent => parseInt_string "undefined"
  | QStr s | QOther s => parseInt_string s
  end.

(** The two filters of the listing handler. *)
Definition kept_by (q : query) (products : store) : result store :=
  let result := products in
  result <-
    (if truthy (qvalue (query_category q)) then
       filter_r (fun p =>
         a <- call_toLowerCase "p.category" (category p) ;;
         b <- call_toLowerCase "req.query.category" (qvalue (query_category q)) ;;
         Ok (String.eqb a b)) result
     else Ok result) ;;
  (if truthy (qvalue (query_search q)) then
     searchTerm <- call_toLowerCase "req.query.search" (qvalue (query_search q)) ;;
     filter_r (fun p =>
       n <- call_toLowerCase "p.name" (name p) ;;
       Ok (includes n searchTerm)) result
   else Ok result).

(** The answer of the listing handler for the kept products. *)
Definition page_of (q : query) (kept : store) : response :=
  let page := parseInt_or (query_page q) 1 in
  let limit := parseInt_or (query_limit q) 10 in
  mkResponse 200
    (JPage (List.length kept) page limit
       (slice kept ((page - 1) * limit) (page * limit))).

(** The rule of each field of a payload: [true] when the field is
    rejected; a price whose conversion to a number throws is not accepted
    either. *)
Definition name_rejected (b : body_fields) : bool := negb (truthy (body_name b)).
Definition description_rejected (b : body_fields) : bool :=
  negb (truthy (body_description b)).
Definition price_rejected (b : body_fields) : bool :=
  negb (truthy (body_price b)) ||
  match ToNumber (body_price b) with
  | Ok n => is_nan n || num_le n (Fin 0)
  | Throw _ => true
  end.
Definition category_rejected (b : body_fields) : bool :=
  negb (truthy (body_category b)).
Definition inStock_rejected (b : body_fields) : bool :=
  match body_inStock b with
  | VBool _ => false
  | _ => true
  end.

(** The rejected fields, in the order of the rules. *)
Definition rejected_fields (b : body_fields) : list string :=
  (if name_rejected b then ["name"] else []) ++
  (if description_rejected b then ["description"] else []) ++
  (if price_rejected b then ["price"] else []) ++
  (if category_rejected b then ["category"] else []) ++
  (if inStock_rejected b then ["inStock"] else []).

(** The reading of C4: the answer carries as [total] the length of the
    sequence filtered as the specification words it. *)
Definition total_as_specified (req : request) (products : store) : Prop :=
  exists page limit data,
    get_products req products =
    Ok (mkResponse 200
          (JPage (List.length (filtered_as_specified (req_query req) products))
             page limit data),
        products).

(** The reading of C5: the answer carries as [data] the window
    [(page-1)*limit, page*limit) of the filtered sequence. *)
Definition paginated_as_specified (req : request) (products : store) : Prop :=
  let q := req_query req in
  let page := parseInt_or (query_page q) 1 in
  let limit := parseInt_or (query_limit q) 10 in
  exists total,
    get_products req products =
    Ok (mkResponse 200
          (JPage total page limit
             (window (filtered q products) ((page - 1) * limit) (page * limit))),
        products).

(** The endpoints that change the store: the patterns of the three routes
    registered for POST, PUT and DELETE. *)
Definition mutating_endpoint (req : request) : bool :=
  match req_method req with
  | POST =>
      match match_path [Lit "api"; Lit "products"] (req_path req) with
      | Some _ => true
      | None => false
      end
  | PUT | DELETE =>
      match match_path [Lit "api"; Lit "products"; Param "id"] (req_path req) with
      | Some _ => true
      | None => false
      end
  | _ => false
  end.

Definition unauthorized : response :=
  mkResponse 401 (JMessage "Unauthorized: Invalid API key" None).

(** The number [parseFloat] makes of the price of a payload. *)
Definition parsed_price (b : body_fields) : num :=
  match parseFloat (body_price b) with
  | Ok n => n
  | Throw _ => NaN
  end.

(** The record an update writes: the id of the old record, the fields of
    the payload. *)
Definition updated_record (old : Product) (b : body_fields) : Product :=
  mkProduct (id old) (body_name b) (body_description b)
    (VNum (parsed_price b)) (body_category b) (body_inStock b).

(** The record a create request adds. *)
Definition created_record (uuid : string) (b : body_fields) : Product :=
  mkProduct uuid (body_name b) (body_description b)
    (VNum (parsed_price b)) (body_category b) (body_inStock b).

(** A payload that is valid apart from its price. *)
Definition other_fields_valid (b : body_fields) : Prop :=
  truthy (body_name b) = true /\ truthy (body_description b) = true /\
  truthy (body_category b) = true /\ exists f, body_inStock b = VBool f.

(** The [forEach] callback on a product whose category has the key [k]. *)
Definition count_key (categories : object num) (k : string) : object num :=
  let categories :=
    if property_falsy (get_property categories k)
    then put_property categories k (Fin 0)
    else categories in
  increment categories k.

(** Inputs of the examples. *)
Definition no_query : query := mkQuery QAbsent QAbsent QAbsent QAbsent.
Definition no_body : body_fields := BodyUndefined.
Definition empty_object : body_fields :=
  mkBody VUndefined VUndefined VUndefined VUndefined VUndefined.
Definition sample_store : store := initial_products "p-1" "p-2".
Definition sample_payload (price : value) : body_fields :=
  mkBody (VStr "Tablet") (VStr "A tablet") price (VStr "Electronics")
    (VBool false).

(** The keys of a sequence in the order they are first seen. *)
Fixpoint first_seen (ks : list string) : list string :=
  match ks with
  | [] => []
  | k :: ks' => k :: filter (fun k' => negb (String.eqb k' k)) (first_seen ks')
  end.

Definition occurrences (k : string) (ks : list string) : nat :=
  List.length (filter (String.eqb k) ks).

(** The histogram of a sequence of keys: each key once, in first-seen order,
    with the number of its occurrences. *)
Definition histogram (ks : list string) : object num :=
  map (fun k => (k, of_nat (occurrences k ks))) (first_seen ks).

(** [l.map(f)] with a callback that may throw. *)
Fixpoint map_r {A B} (f : A -> result B) (l : list A) : result (list B) :=
  match l with
  | [] => Ok []
  | x :: l' => y <- f x ;; ys <- map_r f l' ;; Ok (y :: ys)
  end.

(** The category keys of a snapshot. *)
Definition category_keys (products : store) : result (list string) :=
  map_r (fun p => toPropertyKey (category p)) products.

(** A key that is neither an array index nor a name inherited from
    [Object.prototype]. *)
Definition ordinary_key (k : string) : Prop :=
  array_index k = None /\ inherited k = false.

(** The number a price is; [NaN] when it is none. *)
Definition price_number (p : Product) : num :=
  match price p with
  | VNum n => n
  | _ => NaN
  end.

(** The average price as the specification words it: the arithmetic mean of
    the prices, 0 for the empty snapshot. *)
Definition average_as_specified (products : store) : num :=
  match products with
  | [] => Fin 0
  | _ =>
      num_div (fold_right num_add (Fin 0) (map price_number products))
        (of_nat (List.length products))
  end.

(** The statistics as the specification words them. *)
Definition stats_as_specified (products : store) (s : Stats.t) : Prop :=
  Stats.totalProducts s = List.length products /\
  Stats.inStock s =
    List.length (filter (fun p => truthy (inStock p)) products) /\
  Stats.outOfStock s =
    List.length (filter (fun p => negb (truthy (inStock p))) products) /\
  (Stats.inStock s + Stats.outOfStock s = List.length products)%nat /\
  (exists ks, category_keys products = Ok ks /\
              Stats.categories s = histogram ks) /\
  num_equiv (Stats.averagePrice s) (average_as_specified products).

(** The reading of C9: the aggregation returns the statistics as the
    specification words them. *)
Definition aggregated_as_specified (products : store) : Prop :=
  exists s, stats products = Ok s /\ stats_as_specified products s.

(** A key that is an array index, and the index it denotes. *)
Definition index_key (k : string) : bool :=
  match array_index k with
  | Some _ => true
  | None => false
  end.

Definition other_key (k : string) : bool := negb (index_key k).

Definition index_of (k : string) : N :=
  match array_index k with
  | Some i => i
  | None => 0%N
  end.

Definition index_le (a b : string) : Prop := (index_of a <= index_of b)%N.

(** The order in which an object enumerates the keys of a sequence: each
    key once; the array indices first, ascending; then the other keys as
    they are first seen. *)
Definition enumerates (ks : list string) (enumerated : list string) : Prop :=
  NoDup enumerated /\
  (forall k, In k enumerated <-> In k ks) /\
  enumerated = filter index_key enumerated ++ filter other_key enumerated /\
  StronglySorted index_le (filter index_key enumerated) /\
  filter other_key enumerated = filter other_key (first_seen ks).

(** The same order, key by key: an array index is followed by no smaller
    one, another key by no array index. *)
Fixpoint ordered (ks : list string) : Prop :=
  match ks with
  | [] => True
  | k :: ks' =>
      (if index_key k
       then Forall (fun k' => index_key k' = true -> index_le k k') ks'
       else Forall (fun k' => index_key k' = false) ks') /\
      ordered ks'
  end.

(** The object [o] holds the counts of the keys [pre]. *)
Definition counted (o : object num) (pre : list string) : Prop :=
  NoDup (keys o) /\
  (forall k, In k (keys o) <-> In k pre) /\
  ordered (keys o) /\
  filter other_key (keys o) = filter other_key (first_seen pre) /\
  (forall k, In k pre -> get_own o k = Some (of_nat (occurrences k pre))).

(** The sum of the prices as the program adds them, from the left and in
    binary64, and the exact one. *)
Definition float_sum (ns : list num) : num := fold_left float_add ns (Fin 0).
Definition exact_sum (ns : list num) : num := fold_right num_add (Fin 0) ns.

(** No addition of the running sum rounds. *)
Fixpoint sums_exactly (acc : num) (ns : list num) : Prop :=
  match ns with
  | [] => True
  | n :: ns' =>
      num_equiv (float_add acc n) (num_add acc n) /\
      sums_exactly (float_add acc n) ns'
  end.

(** Neither the sum of the prices nor its division by their number
    rounds. *)
Definition averages_exactly (ns : list num) : Prop :=
  sums_exactly (Fin 0) ns /\
  let count := of_nat (List.length ns) in
  num_equiv (float_div (float_sum ns) count) (num_div (float_sum ns) count).

(** The arithmetic mean of a sequence of numbers. *)
Definition arithmetic_mean (ns : list num) : num :=
  num_div (exact_sum ns) (of_nat (List.length ns)).

(** A price that is a number. *)
Definition number_priced (p : Product) : Prop := typeof (price p) = "number".

(** Where an index of [slice] points: below 0 it counts from the end of
    the sequence, not before its start. *)
Definition from_end (len i : Z) : Z :=
  if (i <? 0)%Z then Z.max 0 (len + i) else i.







(** The payloads on which validation throws: no body at all, or a price
    that is an object without a primitive value. *)
Definition validation_throws (b : body_fields) : bool :=
  match b with
  | BodyUndefined => true
  | mkBody _ _ VOpaque _ _ => true
  | mkBody _ _ _ _ _ => false
  end.

(** ** Notions for the further properties *)

(** The ids of a store, in order. *)
Definition ids (products : store) : list string := map id products.

(** A record that carries the fields validation asks for. *)
Definition well_formed (p : Product) : Prop :=
  truthy (name p) = true /\ truthy (description p) = true /\
  truthy (category p) = true /\ exists f, inStock p = VBool f.

(** The pattern of the routes that name a product. *)
Definition id_pattern : list segment :=
  [Lit "api"; Lit "products"; Param "id"].

(** The ways a request can leave the store: untouched; one validated record
    appended; one record replaced by a validated one of the same id; the
    records of one id removed. *)
Inductive store_change (uuid : string) (req : request) (products : store)
  : response -> store -> Prop :=
| change_none (r : response) : store_change uuid req products r products
| change_created :
    req_method req = POST ->
    x_api_key req = Some "secret-api-key" ->
    rejected_fields (req_body req) = [] ->
    store_change uuid req products
      (mkResponse 201 (JProduct (created_record uuid (req_body req))))
      (products ++ [created_record uuid (req_body req)])
| change_updated (i : string) (n : nat) (old : Product) :
    req_method req = PUT ->
    x_api_key req = Some "secret-api-key" ->
    rejected_fields (req_body req) = [] ->
    match_path id_pattern (req_path req) = Some [("id", i)] ->
    nth_error products n = Some old -> id old = i ->
    store_change uuid req products
      (mkResponse 200 (JProduct (updated_record old (req_body req))))
      (assign_at products n (updated_record old (req_body req)))
| change_deleted (i : string) :
    req_method req = DELETE ->
    x_api_key req = Some "secret-api-key" ->
    match_path id_pattern (req_path req) = Some [("id", i)] ->
    (exists p, In p products /\ id p = i) ->
    store_change uuid req products (mkResponse 204 Empty)
      (filter (fun p => negb (String.eqb (id p) i)) products).

(** A number above zero. *)
Definition positive (n : num) : Prop :=
  n = PInf \/ exists q, n = Fin q /\ (0 < q)%Q.

(** The pattern of the statistics route. *)
Definition stats_pattern : list segment :=
  [Lit "api"; Lit "products"; Lit "stats"].

(** The store after a sequence of requests, each with the id [uuidv4()]
    would return while it is served. *)
Definition serve_all (requests : list (string * request)) (products : store)
  : store :=
  fold_left (fun st ur => snd (serve (fst ur) (snd ur) st)) requests products.

(** Requests of the examples. *)
Definition authorized (m : method) (path : list string) (b : body_fields)
  : request :=
  mkRequest m path (Some "secret-api-key") no_query b [].
Definition anonymous (m : method) (path : list string) : request :=
  mkRequest m path None no_query no_body [].

(** ** Properties *)

(** *** Routing *)

Lemma find_ext {A} (f g : A -> bool) (l : list A) :
  (forall x, f x = g x) -> find f l = find g l.
Proof.
  intros E. induction l as [|x l IH]; simpl; [reflexivity|].
  rewrite E, IH. reflexivity.
Qed.

Lemma findIndex_ext {A} (f g : A -> bool) (l : list A) :
  (forall x, f x = g x) -> findIndex f l = findIndex g l.
Proof.
  intros E. induction l as [|x l IH]; simpl; [reflexivity|].
  rewrite E, IH. reflexivity.
Qed.

Lemma handle_use (m : middleware) (rest : list layer) (allowed : list string)
  (req : request) (products : store) :
  m req products = Next ->
  handle (Use m :: rest) allowed None req products =
  handle rest allowed None req products.
Proof. intros H. cbn [handle]. rewrite H. reflexivity. Qed.

Lemma handle_route_skip (meth : method) (pattern : list segment)
  (chain : list middleware) (rest : list layer) (allowed : list string)
  (req : request) (products : store) :
  req_method req <> OPTIONS ->
  handles_method meth (req_method req) = false \/
  match_path pattern (req_path req) = None ->
  handle (Route meth pattern chain :: rest) allowed None req products =
  handle rest allowed None req products.
Proof.
  intros Hm [H|H]; cbn [handle]; rewrite H; [|reflexivity].
  destruct (match_path pattern (req_path req)); [|reflexivity].
  destruct (req_method req); try reflexivity. now contradiction Hm.
Qed.

Lemma handle_route_take (meth : method) (pattern : list segment)
  (chain : list middleware) (rest : list layer) (req : request)
  (products : store) (ps : object string) :
  handles_method meth (req_method req) = true ->
  match_path pattern (req_path req) = Some ps ->
  handle (Route meth pattern chain :: rest) [] None req products =
  continue_with rest req products (run_chain chain (with_params req ps) products).
Proof. intros H1 H2. cbn [handle]. rewrite H1, H2. reflexivity. Qed.

(** What is sent for a request that is not a HEAD request is the answer of
    the stack. *)
Lemma serve_handle (uuid : string) (req : request) (products : store) :
  req_method req <> HEAD ->
  serve uuid req products = handle (app uuid) [] None req products.
Proof.
  intros H. unfold serve, send.
  destruct (req_method req); try reflexivity. now contradiction H.
Qed.

Lemma match_path_id (i : string) :
  i <> "" ->
  match_path [Lit "api"; Lit "products"; Param "id"] ["api"; "products"; i] =
  Some [("id", i)].
Proof.
  intros H. apply String.eqb_neq in H.
  change (match_path [Lit "api"; Lit "products"; Param "id"]
            ["api"; "products"; i])
    with (if String.eqb i "" then None else Some [("id", i)]).
  rewrite H. reflexivity.
Qed.

Lemma match_path_list_id (i : string) :
  i <> "" ->
  match_path [Lit "api"; Lit "products"] ["api"; "products"; i] = None.
Proof.
  intros H. apply String.eqb_neq in H.
  change (match_path [Lit "api"; Lit "products"] ["api"; "products"; i])
    with (if String.eqb i "" then Some ([] : object string) else None).
  rewrite H. reflexivity.
Qed.

Lemma has_id_params (req : request) (i : string) (p : Product) :
  has_id (with_params req [("id", i)]) p = String.eqb (id p) i.
Proof. reflexivity. Qed.

Ltac side := solve [ reflexivity | left; reflexivity | right; reflexivity
                   | assumption | discriminate ].

(** [GET /api/products/<i>] goes to the handler of [/api/products/:id]. *)
Lemma serve_get_id (uuid : string) (key : option string) (q : query)
  (b : body_fields) (ps : object string) (i : string) (products : store) :
  i <> "" ->
  let req := mkRequest GET ["api"; "products"; i] key q b ps in
  serve uuid req products =
  finish req products
    (asyncHandler get_product (with_params req [("id", i)]) products).
Proof.
  intros Hi req. rewrite serve_handle by discriminate. unfold app.
  rewrite !handle_use by reflexivity.
  rewrite handle_route_skip by side.
  rewrite handle_route_skip
    by (try discriminate; right; apply match_path_list_id; exact Hi).
  rewrite (handle_route_take _ _ _ _ _ _ [("id", i)])
    by (try reflexivity; apply match_path_id; exact Hi).
  cbn [run_chain]. unfold asyncHandler.
  destruct (get_product _ products) as [[r st]|e]; reflexivity.
Qed.

(** C1. A request [GET /api/products/stats] is taken by the route
    [/api/products/:id], registered before the statistics route: it is
    answered as the lookup of the id ["stats"], with that product if there
    is one and with 404 otherwise, never with the statistics. *)
Theorem stats_request_is_an_id_lookup
  (uuid : string) (key : option string) (q : query) (b : body_fields)
  (ps : object string) (products : store) :
  serve uuid (mkRequest GET ["api"; "products"; "stats"] key q b ps) products =
  match find (fun p => String.eqb (id p) "stats") products with
  | Some p => (mkResponse 200 (JProduct p), products)
  | None => (mkResponse 404 (JMessage "Product not found" None), products)
  end.
Proof.
  rewrite serve_get_id by discriminate.
  unfold asyncHandler, get_product.
  rewrite (find_ext _ (fun p => String.eqb (id p) "stats"))
    by (intros p; apply has_id_params).
  destruct (find _ products); reflexivity.
Qed.

(** Against the initial store, whose ids are not ["stats"], the statistics
    request is answered 404. *)
Lemma stats_request_on_initial_store (uuid id1 id2 : string) (key : option string)
  (q : query) (b : body_fields) (ps : object string) :
  id1 <> "stats" -> id2 <> "stats" ->
  serve uuid (mkRequest GET ["api"; "products"; "stats"] key q b ps)
    (initial_products id1 id2) =
  (mkResponse 404 (JMessage "Product not found" None), initial_products id1 id2).
Proof.
  intros H1 H2. rewrite serve_get_id by discriminate.
  unfold asyncHandler, get_product.
  rewrite (find_ext _ (fun p => String.eqb (id p) "stats"))
    by (intros p; apply has_id_params).
  cbn [initial_products find id].
  apply String.eqb_neq in H1, H2. rewrite H1, H2. reflexivity.
Qed.

(** *** The authentication gate *)

Lemma apiKeyMiddleware_rejects (req : request) (products : store) :
  x_api_key req <> Some "secret-api-key" ->
  apiKeyMiddleware req products = Respond unauthorized products.
Proof.
  intros H. unfold apiKeyMiddleware.
  destruct (x_api_key req) as [k|]; [|reflexivity].
  destruct (String.eqb_spec k "secret-api-key") as [->|_].
  - now contradiction H.
  - rewrite orb_true_r. reflexivity.
Qed.

Lemma apiKeyMiddleware_accepts (req : request) (products : store) :
  x_api_key req = Some "secret-api-key" ->
  apiKeyMiddleware req products = Next.
Proof. intros H. unfold apiKeyMiddleware. rewrite H. reflexivity. Qed.

(** C7. A request to one of the three mutating endpoints whose key is
    missing or is not the shared secret is answered 401 and leaves the
    store as it was; the gate answers whatever comes after it in the chain,
    so neither validation nor the handler runs. *)
Theorem unauthorized_request_is_rejected
  (uuid : string) (req : request) (products : store) :
  mutating_endpoint req = true ->
  x_api_key req <> Some "secret-api-key" ->
  serve uuid req products = (unauthorized, products) /\
  (forall rest : list middleware,
     run_chain (apiKeyMiddleware :: rest) req products =
     Respond unauthorized products).
Proof.
  intros Hm Hk. split.
  - destruct req as [m path k qy b ps]. unfold mutating_endpoint in Hm.
    cbn [req_method req_path] in Hm.
    destruct m; try discriminate;
      match type of Hm with
      | match ?mp with Some _ => _ | None => _ end = _ =>
          destruct mp as [ps'|] eqn:E
      end; try discriminate;
      rewrite serve_handle by discriminate; unfold app;
      rewrite !handle_use by reflexivity;
      rewrite !handle_route_skip by side;
      rewrite (handle_route_take _ _ _ _ _ _ ps') by (try reflexivity; exact E);
      cbn [run_chain]; rewrite apiKeyMiddleware_rejects by exact Hk;
      reflexivity.
  - intros rest. cbn [run_chain].
    rewrite apiKeyMiddleware_rejects by exact Hk. reflexivity.
Qed.

(** *** Validation *)

Lemma typeof_boolean (v : value) :
  negb (String.eqb (typeof v) "boolean") =
  match v with VBool _ => false | _ => true end.
Proof. destruct v; reflexivity. Qed.

Lemma validateProduct_spec (req : request) (products : store) :
  validateProduct req products =
  match validation_errors (req_body req) with
  | Throw e => NextErr e
  | Ok [] => Next
  | Ok errors =>
      Respond (mkResponse 400 (JMessage "Validation failed" (Some errors)))
        products
  end.
Proof.
  unfold validateProduct.
  destruct (validation_errors (req_body req)) as [[|]|]; reflexivity.
Qed.

(** C2. A payload whose price is the number 0 gets the message of a
    missing price, whatever its other fields are: the test [!price] holds
    for 0 and the guard [price && ...] of the second test fails. *)
Theorem zero_price_reported_as_missing (n d c s : value) :
  exists errors,
    validation_errors (mkBody n d (VNum (Fin 0)) c s) = Ok errors /\
    get_own errors "price" = Some "Price is required".
Proof.
  unfold validation_errors. rewrite typeof_boolean.
  destruct (truthy n), (truthy d), (truthy c), s;
    (eexists; split; [reflexivity|reflexivity]).
Qed.

(** A negative number gets the message about positive prices. *)
Lemma negative_price_message (n d c s : value) (q : Q) :
  (q < 0)%Q ->
  exists errors,
    validation_errors (mkBody n d (VNum (Fin q)) c s) = Ok errors /\
    get_own errors "price" = Some "Price must be a positive number".
Proof.
  intros Hq. unfold validation_errors.
  rewrite typeof_boolean.
  assert (T : truthy (VNum (Fin q)) = true).
  { simpl. destruct (Qeq_bool q 0) eqn:E; [|reflexivity].
    apply Qeq_bool_iff in E. rewrite E in Hq. now apply Qlt_irrefl in Hq. }
  assert (L : le_zero (VNum (Fin q)) = Ok true).
  { unfold le_zero. simpl. f_equal. apply Qle_bool_iff. now apply Qlt_le_weak. }
  rewrite T, L. cbn [negb isNaN ToNumber is_nan bind].
  destruct (truthy n), (truthy d), (truthy c), s;
    (eexists; split; [reflexivity|reflexivity]).
Qed.

(** So does the string ["0"]. *)
Lemma zero_string_price_message (n d c s : value) :
  exists errors,
    validation_errors (mkBody n d (VStr "0") c s) = Ok errors /\
    get_own errors "price" = Some "Price must be a positive number".
Proof.
  unfold validation_errors. rewrite typeof_boolean.
  destruct (truthy n), (truthy d), (truthy c), s;
    (eexists; split; [reflexivity|reflexivity]).
Qed.

(** Validation throws on the payloads of [validation_throws]. *)
Lemma validation_errors_throw (b : body_fields) :
  validation_throws b = true ->
  exists e, validation_errors b = Throw e /\
            (e = undefined_body \/ e = no_primitive).
Proof.
  destruct b as [|n d p c s]; intros H.
  - exists undefined_body. split; [reflexivity|now left].
  - destruct p; try discriminate H.
    exists no_primitive. split; [|now right].
    unfold validation_errors. reflexivity.
Qed.

(** On every other payload it builds the error object, whose keys are the
    rejected fields. *)
Lemma validation_errors_keys (b : body_fields) :
  validation_throws b = false ->
  exists errors,
    validation_errors b = Ok errors /\ keys errors = rejected_fields b.
Proof.
  destruct b as [|n d p c s]; intros H; [discriminate H|].
  assert (N : exists x, ToNumber p = Ok x)
    by (destruct p; try discriminate H; eexists; reflexivity).
  destruct N as [x Hx].
  unfold validation_errors, isNaN, le_zero, rejected_fields, name_rejected,
    description_rejected, price_rejected, category_rejected,
    inStock_rejected.
  cbn [body_name body_description body_price body_category body_inStock].
  rewrite Hx, typeof_boolean. cbn [bind].
  destruct (truthy n), (truthy d), (truthy p), (is_nan x),
    (num_le x (Fin 0)), (truthy c), s;
    (eexists; split; [reflexivity|reflexivity]).
Qed.

(** A payload none of whose fields is rejected does not make validation
    throw. *)
Lemma rejected_none_no_throw (b : body_fields) :
  rejected_fields b = [] -> validation_throws b = false.
Proof.
  destruct b as [|n d p c s]; [discriminate|].
  destruct p; try reflexivity.
  unfold rejected_fields, price_rejected. cbn [body_price truthy negb orb ToNumber].
  destruct (name_rejected _), (description_rejected _); discriminate.
Qed.

Lemma validateProduct_passes (req : request) (products : store) :
  rejected_fields (req_body req) = [] -> validateProduct req products = Next.
Proof.
  intros H. rewrite validateProduct_spec.
  destruct (validation_errors_keys (req_body req)
              (rejected_none_no_throw _ H)) as [errors [E K]].
  rewrite E. rewrite H in K. destruct errors; [reflexivity | discriminate K].
Qed.

(** A payload with a rejected field on which validation does not throw is
    answered 400 with the error object. *)
Lemma validateProduct_rejects (req : request) (products : store) :
  validation_throws (req_body req) = false ->
  rejected_fields (req_body req) <> [] ->
  exists errors,
    validation_errors (req_body req) = Ok errors /\
    keys errors = rejected_fields (req_body req) /\
    validateProduct req products =
    Respond (mkResponse 400 (JMessage "Validation failed" (Some errors)))
      products.
Proof.
  intros T H. destruct (validation_errors_keys _ T) as [errors [E K]].
  exists errors. split; [exact E|]. split; [exact K|].
  rewrite validateProduct_spec, E. destruct errors; [|reflexivity].
  now rewrite <- K in H.
Qed.


(** *** The error handler *)

(** C3, as amended. An error without [statusCode] is answered 500; the
    message of the answer is the error's own message, and the generic text
    only when the error has an empty message. *)
Theorem unrecognized_error_response
  (nm msg : string) (errs : option (object string)) (req : request) :
  errorHandler (mkError nm msg None errs) req =
  mkResponse 500
    (JMessage (if String.eqb msg "" then "Internal Server Error" else msg) errs).
Proof. reflexivity. Qed.

(** *** Strings *)

Lemma prefix_spec (t s : string) :
  String.prefix t s = true <-> exists post, s = (t ++ post)%string.
Proof.
  revert s. induction t as [|c t IH]; intros s.
  - split; [intros _; now exists s | intros _; destruct s; reflexivity].
  - destruct s as [|d s].
    + split; [discriminate | intros [post H]; discriminate H].
    + cbn [String.prefix]. destruct (Ascii.ascii_dec c d) as [E|N].
      * rewrite IH. split; intros [post H]; exists post.
        -- simpl. now rewrite H, E.
        -- simpl in H. now injection H.
      * split; [discriminate|]. intros [post H]. simpl in H.
        injection H as E _. congruence.
Qed.

(** [includes] is the substring test. *)
Lemma includes_spec (s t : string) :
  includes s t = true <-> exists pre post, s = (pre ++ t ++ post)%string.
Proof.
  induction s as [|c s IH].
  - cbn [includes]. rewrite orb_false_r, prefix_spec. split.
    + intros [post H]. now exists "", post.
    + intros [pre [post H]]. destruct pre as [|d pre]; [|discriminate H].
      now exists post.
  - cbn [includes]. rewrite orb_true_iff, prefix_spec, IH. split.
    + intros [[post H]|[pre [post H]]].
      * now exists "", post.
      * exists (String c pre), post. simpl. now rewrite H.
    + intros [pre [post H]]. destruct pre as [|d pre].
      * left. now exists post.
      * right. injection H as _ H. now exists pre, post.
Qed.

Lemma includes_empty (s : string) : includes s "" = true.
Proof. destruct s; reflexivity. Qed.

(** *** Windows and slices *)

Lemma window_from_firstn_skipn {A} (l : list A) (i lo hi : Z) :
  window_from i l lo hi =
  firstn (Z.to_nat (hi - Z.max lo i)) (skipn (Z.to_nat (lo - i)) l).
Proof.
  revert i. induction l as [|x l IH]; intros i.
  - cbn [window_from]. now rewrite skipn_nil, firstn_nil.
  - cbn [window_from]. rewrite IH.
    destruct (Z.leb_spec lo i) as [L|L]; destruct (Z.ltb_spec i hi) as [H|H];
      cbn [andb].
    + replace (Z.to_nat (lo - i)) with 0%nat by lia.
      replace (Z.to_nat (lo - (i + 1))) with 0%nat by lia.
      replace (Z.to_nat (hi - Z.max lo i)) with
        (S (Z.to_nat (hi - Z.max lo (i + 1)))) by lia.
      reflexivity.
    + replace (Z.to_nat (hi - Z.max lo i)) with 0%nat by lia.
      replace (Z.to_nat (hi - Z.max lo (i + 1))) with 0%nat by lia.
      reflexivity.
    + replace (Z.to_nat (lo - i)) with (S (Z.to_nat (lo - (i + 1)))) by lia.
      replace (Z.max lo (i + 1)) with (Z.max lo i) by lia.
      reflexivity.
    + replace (Z.to_nat (hi - Z.max lo i)) with 0%nat by lia.
      replace (Z.to_nat (hi - Z.max lo (i + 1))) with 0%nat by lia.
      reflexivity.
Qed.

(** With indices that are not negative [slice] takes the window. *)
Lemma slice_window {A} (l : list A) (lo hi : Z) :
  (0 <= lo)%Z -> (0 <= hi)%Z -> slice l lo hi = window l lo hi.
Proof.
  intros Hlo Hhi. unfold window. rewrite window_from_firstn_skipn.
  unfold slice, relative_index.
  destruct (Z.ltb_spec lo 0) as [?|_]; [lia|].
  destruct (Z.ltb_spec hi 0) as [?|_]; [lia|].
  rewrite Z.sub_0_r. replace (Z.max lo 0) with lo by lia.
  set (len := Z.of_nat (List.length l)).
  destruct (Z.le_gt_cases len lo) as [G|G].
  - rewrite !skipn_all2 by (subst len; lia). now rewrite !firstn_nil.
  - replace (Z.min lo len) with lo by lia.
    destruct (Z.le_gt_cases hi len) as [G'|G'].
    + replace (Z.min hi len) with hi by lia. reflexivity.
    + replace (Z.min hi len) with len by lia.
      rewrite !firstn_all2; [reflexivity| |];
        rewrite length_skipn; subst len; lia.
Qed.

Lemma slice_beyond {A} (l : list A) (lo hi : Z) :
  (Z.of_nat (List.length l) <= lo)%Z -> (0 <= hi)%Z -> slice l lo hi = [].
Proof.
  intros Hlo Hhi. unfold slice, relative_index.
  destruct (Z.ltb_spec lo 0) as [?|_]; [lia|].
  rewrite skipn_all2 by lia. apply firstn_nil.
Qed.

(** *** Listing *)

Lemma bind_Ok {A B} (a : A) (k : A -> result B) : bind (Ok a) k = k a.
Proof. reflexivity. Qed.

Lemma filter_r_ok {A} (f : A -> result bool) (g : A -> bool) (l : list A) :
  (forall x, In x l -> f x = Ok (g x)) -> filter_r f l = Ok (filter g l).
Proof.
  induction l as [|x l IH]; intros H; [reflexivity|].
  cbn [filter_r filter]. rewrite (H x) by now left.
  cbn [bind]. rewrite IH by (intros y Hy; apply H; now right).
  reflexivity.
Qed.

Lemma textual_filter (f : Product -> bool) (l : store) :
  Forall textual l -> Forall textual (filter f l).
Proof.
  intros H. apply Forall_forall. intros p Hp.
  apply filter_In in Hp as [Hp _]. revert p Hp. now apply Forall_forall.
Qed.

Lemma get_products_split (req : request) (products : store) :
  get_products req products =
  (kept <- kept_by (req_query req) products ;;
   Ok (page_of (req_query req) kept, products)).
Proof.
  unfold get_products, kept_by, page_of.
  destruct (if truthy (qvalue (query_category (req_query req))) then _ else _)
    as [r1|e1]; [|reflexivity].
  rewrite !bind_Ok.
  destruct (if truthy (qvalue (query_search (req_query req))) then _ else _)
    as [r2|e2]; reflexivity.
Qed.

(** The two filters on a store of textual products and parameters that are
    plain strings. *)
Lemma kept_by_filtered (q : query) (products : store) :
  Forall textual products ->
  plain_param (query_category q) -> plain_param (query_search q) ->
  kept_by q products = Ok (filtered q products).
Proof.
  intros T Pc Ps. unfold kept_by, filtered.
  assert (S1 :
    (if truthy (qvalue (query_category q)) then
       filter_r (fun p =>
         a <- call_toLowerCase "p.category" (category p) ;;
         b <- call_toLowerCase "req.query.category" (qvalue (query_category q)) ;;
         Ok (String.eqb a b)) products
     else Ok products) =
    Ok (keep_if_nonempty (query_category q) category_is products)).
  { destruct (query_category q) as [|c|o]; [reflexivity| |contradiction].
    cbn [qvalue truthy keep_if_nonempty].
    destruct (String.eqb c ""); [reflexivity|]. cbn [negb].
    apply filter_r_ok. intros p Hp.
    rewrite Forall_forall in T. destruct (T p Hp) as [_ [s Hs]].
    unfold category_is. rewrite Hs. reflexivity. }
  rewrite S1, bind_Ok.
  set (r1 := keep_if_nonempty (query_category q) category_is products).
  assert (T1 : Forall textual r1).
  { subst r1. destruct (query_category q) as [|c|o]; cbn [keep_if_nonempty];
      try exact T.
    destruct (String.eqb c ""); [exact T | now apply textual_filter]. }
  destruct (query_search q) as [|t|o]; [reflexivity| |contradiction].
  cbn [qvalue truthy keep_if_present call_toLowerCase bind].
  assert (F : forall p, In p r1 ->
    (n <- call_toLowerCase "p.name" (name p) ;; Ok (includes n (toLowerCase t)))
    = Ok (name_contains t p)).
  { intros p Hp. rewrite Forall_forall in T1.
    destruct (T1 p Hp) as [[s Hs] _].
    unfold name_contains. rewrite Hs. reflexivity. }
  destruct (String.eqb_spec t "") as [->|_]; cbn [negb].
  - rewrite forallb_filter_id; [reflexivity|]. apply forallb_forall.
    intros p Hp. rewrite Forall_forall in T1.
    destruct (T1 p Hp) as [[s Hs] _].
    unfold name_contains. rewrite Hs. apply includes_empty.
  - now apply filter_r_ok.
Qed.

(** The listing handler on such a store and such parameters. *)
Lemma get_products_ok (req : request) (products : store) :
  let q := req_query req in
  Forall textual products ->
  plain_param (query_category q) -> plain_param (query_search q) ->
  let page := parseInt_or (query_page q) 1 in
  let limit := parseInt_or (query_limit q) 10 in
  get_products req products =
  Ok (mkResponse 200
        (JPage (List.length (filtered q products)) page limit
           (slice (filtered q products) ((page - 1) * limit) (page * limit))),
      products).
Proof.
  intros q T Pc Ps page limit.
  rewrite get_products_split. fold q.
  rewrite (kept_by_filtered q products T Pc Ps), bind_Ok. reflexivity.
Qed.

(** [GET /api/products] goes to the listing handler. *)
Lemma serve_get_products (uuid : string) (key : option string) (q : query)
  (b : body_fields) (ps : object string) (products : store) :
  let req := mkRequest GET ["api"; "products"] key q b ps in
  serve uuid req products =
  finish req products (asyncHandler get_products (with_params req []) products).
Proof.
  intros req. unfold serve, app.
  rewrite !handle_use by reflexivity.
  rewrite handle_route_skip by side.
  rewrite (handle_route_take _ _ _ _ _ _ []) by reflexivity.
  cbn [run_chain]. unfold asyncHandler.
  destruct (get_products _ products) as [[r st]|e]; reflexivity.
Qed.

(** C4, as amended. On a store whose names and categories are text, with
    [category] and [search] absent or plain strings: the products are first
    kept by category (equality of the lower-cased texts) when the parameter
    is not empty, an empty one filtering nothing; then by name (the
    lower-cased name contains the lower-cased term) when [search] is
    present; [total] is the length of that sequence and [data] a slice of
    it. *)
Theorem listing_filters_then_counts (req : request) (products : store) :
  let q := req_query req in
  Forall textual products ->
  plain_param (query_category q) -> plain_param (query_search q) ->
  let kept :=
    keep_if_present (query_search q) name_contains
      (keep_if_nonempty (query_category q) category_is products) in
  let page := parseInt_or (query_page q) 1 in
  let limit := parseInt_or (query_limit q) 10 in
  get_products req products =
  Ok (mkResponse 200
        (JPage (List.length kept) page limit
           (slice kept ((page - 1) * limit) (page * limit))),
      products).
Proof. intros q T Pc Ps. exact (get_products_ok req products T Pc Ps). Qed.

(** C4 fails as stated: with [?category=] (the parameter present and empty)
    no product of the initial store has that category, yet both are
    returned and [total] is 2. *)
Lemma empty_category_parameter_filters_nothing :
  ~ total_as_specified
      (mkRequest GET ["api"; "products"] None
         (mkQuery (QStr "") QAbsent QAbsent QAbsent)
         (mkBody VUndefined VUndefined VUndefined VUndefined VUndefined) [])
      (initial_products "p-1" "p-2").
Proof.
  intros (page & limit & data & H). vm_compute in H. discriminate H.
Qed.

Lemma relative_index_from_end (len i : Z) :
  (0 <= len)%Z -> relative_index len (from_end len i) = relative_index len i.
Proof.
  intros H. unfold relative_index, from_end.
  destruct (Z.ltb_spec i 0) as [N|N].
  - destruct (Z.ltb_spec (Z.max 0 (len + i)) 0); lia.
  - destruct (Z.ltb_spec i 0); [lia | reflexivity].
Qed.

Lemma from_end_nonnegative (len i : Z) : (0 <= from_end len i)%Z.
Proof. unfold from_end. destruct (Z.ltb_spec i 0); lia. Qed.

(** [slice] takes the window between its two indices, an index below 0
    counted from the end. *)
Lemma slice_from_end {A} (l : list A) (s e : Z) :
  let len := Z.of_nat (List.length l) in
  slice l s e = window l (from_end len s) (from_end len e).
Proof.
  intros len. rewrite <- slice_window by apply from_end_nonnegative.
  unfold slice. fold len. now rewrite !relative_index_from_end by (subst len; lia).
Qed.

(** C5, as amended. Whatever [page] and [limit] are, and whatever the
    store is, pagination does not fail: the request fails exactly when one
    of the two filters throws, which does not happen when [category] and
    [search] are absent or empty, nor on a store of textual products with
    plain parameters; otherwise the answer is 200 with [total] the number
    of kept products.  [page] is 1 and [limit] 10 when the parameter does
    not parse as an integer and also when it parses to 0, the parsed integer
    otherwise.  The data are the slice from [(page-1)*limit] to
    [page*limit], an index below 0 counting from the end of the kept
    sequence: when both are at least 1 this is the window
    [(page-1)*limit, page*limit), which is empty when it starts past the
    end. *)
Theorem pagination_is_total (req : request) (products : store) :
  let q := req_query req in
  let page := parseInt_or (query_page q) 1 in
  let limit := parseInt_or (query_limit q) 10 in
  (parsed (query_page q) = None \/ parsed (query_page q) = Some 0%Z ->
     page = 1%Z) /\
  (forall z, parsed (query_page q) = Some z -> z <> 0%Z -> page = z) /\
  (parsed (query_limit q) = None \/ parsed (query_limit q) = Some 0%Z ->
     limit = 10%Z) /\
  (forall z, parsed (query_limit q) = Some z -> z <> 0%Z -> limit = z) /\
  (forall e, kept_by q products = Throw e ->
     get_products req products = Throw e) /\
  (truthy (qvalue (query_category q)) = false ->
   truthy (qvalue (query_search q)) = false ->
     kept_by q products = Ok products) /\
  (Forall textual products ->
   plain_param (query_category q) -> plain_param (query_search q) ->
     kept_by q products = Ok (filtered q products)) /\
  (forall kept, kept_by q products = Ok kept ->
     let len := Z.of_nat (List.length kept) in
     let first := ((page - 1) * limit)%Z in
     let last := (page * limit)%Z in
     exists data,
       get_products req products =
       Ok (mkResponse 200 (JPage (List.length kept) page limit data),
           products) /\
       data = window kept (from_end len first) (from_end len last) /\
       ((1 <= page)%Z -> (1 <= limit)%Z -> data = window kept first last) /\
       ((1 <= page)%Z -> (1 <= limit)%Z -> (len <= first)%Z -> data = [])).
Proof.
  intros q page limit.
  assert (D : forall (p : qparam) (d : Z),
    (parsed p = None \/ parsed p = Some 0%Z -> parseInt_or p d = d) /\
    (forall z, parsed p = Some z -> z <> 0%Z -> parseInt_or p d = z)).
  { intros p d. unfold parseInt_or. fold (parsed p). split.
    - intros [-> | ->]; reflexivity.
    - intros z -> Hz. apply Z.eqb_neq in Hz. now rewrite Hz. }
  split; [apply D|]. split; [apply D|]. split; [apply D|]. split; [apply D|].
  split; [|split; [|split]].
  - intros e K. rewrite get_products_split. fold q. now rewrite K.
  - intros Hc Hs. unfold kept_by. now rewrite Hc, Hs.
  - apply kept_by_filtered.
  - intros kept K len first last.
    exists (slice kept first last). split; [|split; [|split]].
    + rewrite get_products_split. fold q. rewrite K, bind_Ok. reflexivity.
    + apply slice_from_end.
    + intros Hp Hl. apply slice_window; subst first last; nia.
    + intros Hp Hl Hlen. apply slice_beyond; [exact Hlen | subst last; nia].
Qed.

(** C5 fails as stated: with [?limit=-1] the indices are 0 and -1, the
    window [0, -1) is empty, but [slice] counts -1 from the end and returns
    the first of the two initial products. *)
Lemma negative_limit_counts_from_the_end :
  ~ paginated_as_specified
      (mkRequest GET ["api"; "products"] None
         (mkQuery QAbsent QAbsent QAbsent (QStr "-1"))
         (mkBody VUndefined VUndefined VUndefined VUndefined VUndefined) [])
      (initial_products "p-1" "p-2").
Proof.
  intros (total & H). vm_compute in H. discriminate H.
Qed.


(** *** Create and update *)

(** An authorized [POST /api/products] with a valid payload reaches the
    create handler. *)
Lemma serve_post (uuid : string) (req : request) (products : store) :
  req_method req = POST -> req_path req = ["api"; "products"] ->
  x_api_key req = Some "secret-api-key" ->
  rejected_fields (req_body req) = [] ->
  serve uuid req products =
  finish req products (asyncHandler (post_product uuid) req products).
Proof.
  destruct req as [m path k q b ps]. cbn [req_method req_path x_api_key req_body].
  intros -> -> -> Hv. rewrite serve_handle by discriminate. unfold app.
  rewrite !handle_use by reflexivity.
  rewrite !handle_route_skip by side.
  rewrite (handle_route_take _ _ _ _ _ _ []) by reflexivity.
  cbn [run_chain].
  rewrite apiKeyMiddleware_accepts by reflexivity.
  rewrite validateProduct_passes by exact Hv.
  unfold asyncHandler, post_product, with_params. cbn [req_body].
  destruct b as [|n d p c s]; [reflexivity|].
  destruct (parseFloat p); reflexivity.
Qed.

(** An authorized [PUT /api/products/<i>] with a valid payload reaches the
    update handler. *)
Lemma serve_put (uuid : string) (req : request) (products : store) (i : string) :
  req_method req = PUT -> req_path req = ["api"; "products"; i] -> i <> "" ->
  x_api_key req = Some "secret-api-key" ->
  rejected_fields (req_body req) = [] ->
  serve uuid req products =
  finish req products
    (asyncHandler put_product (with_params req [("id", i)]) products).
Proof.
  destruct req as [m path k q b ps]. cbn [req_method req_path x_api_key req_body].
  intros -> -> Hi -> Hv. rewrite serve_handle by discriminate. unfold app.
  rewrite !handle_use by reflexivity.
  rewrite !handle_route_skip by side.
  rewrite (handle_route_take _ _ _ _ _ _ [("id", i)])
    by (try reflexivity; apply match_path_id; exact Hi).
  cbn [run_chain].
  rewrite apiKeyMiddleware_accepts by reflexivity.
  rewrite validateProduct_passes by exact Hv.
  unfold asyncHandler. destruct (put_product _ products) as [[r st]|e];
    reflexivity.
Qed.

Lemma findIndex_Some {A} (f : A -> bool) (l : list A) (n : nat) :
  findIndex f l = Some n ->
  exists x, nth_error l n = Some x /\ f x = true /\
            forall m y, (m < n)%nat -> nth_error l m = Some y -> f y = false.
Proof.
  revert n. induction l as [|x l IH]; intros n H; [discriminate H|].
  cbn [findIndex] in H. destruct (f x) eqn:Fx.
  - injection H as <-. exists x. repeat split; [exact Fx|]. intros m y Hm. lia.
  - destruct (findIndex f l) as [k|] eqn:Fk; [|discriminate H].
    injection H as <-. destruct (IH k eq_refl) as (z & Hz & Fz & Hlt).
    exists z. repeat split; [exact Hz | exact Fz |].
    intros [|m] y Hm Hy.
    + injection Hy as <-. exact Fx.
    + apply (Hlt m y); [lia | exact Hy].
Qed.

Lemma findIndex_None {A} (f : A -> bool) (l : list A) :
  (forall x, In x l -> f x = false) <-> findIndex f l = None.
Proof.
  induction l as [|x l IH]; [now split|].
  cbn [findIndex]. split.
  - intros H. rewrite (H x) by now left.
    destruct IH as [IH _]. rewrite IH; [reflexivity|].
    intros y Hy. apply H. now right.
  - destruct (f x) eqn:Fx; [discriminate|].
    destruct (findIndex f l) eqn:Fl; [discriminate|]. intros _ y [<-|Hy].
    + exact Fx.
    + now apply IH.
Qed.

Lemma findIndex_In {A} (f : A -> bool) (l : list A) (x : A) :
  In x l -> f x = true -> exists n, findIndex f l = Some n.
Proof.
  intros Hx Fx. destruct (findIndex f l) as [n|] eqn:E; [now exists n|].
  apply findIndex_None with (x := x) in E; [congruence | exact Hx].
Qed.

Lemma assign_at_length {A} (l : list A) (n : nat) (x : A) :
  List.length (assign_at l n x) = List.length l.
Proof.
  revert n. induction l as [|y l IH]; intros [|n]; cbn; try reflexivity.
  now rewrite IH.
Qed.

Lemma assign_at_same {A} (l : list A) (n : nat) (x : A) :
  (n < List.length l)%nat -> nth_error (assign_at l n x) n = Some x.
Proof.
  revert n. induction l as [|y l IH]; intros [|n] H; cbn in *; try lia.
  - reflexivity.
  - apply IH. lia.
Qed.

Lemma assign_at_other {A} (l : list A) (n m : nat) (x : A) :
  m <> n -> nth_error (assign_at l n x) m = nth_error l m.
Proof.
  revert n m. induction l as [|y l IH]; intros [|n] [|m] H; cbn;
    try reflexivity; try congruence.
  apply IH. congruence.
Qed.

(** A payload that passes validation is an object whose price
    [parseFloat] reads without throwing. *)
Lemma valid_payload_parses (b : body_fields) :
  rejected_fields b = [] ->
  exists n d p c s x,
    b = mkBody n d p c s /\ parseFloat p = Ok x /\ parsed_price b = x.
Proof.
  intros H. pose proof (rejected_none_no_throw b H) as T.
  destruct b as [|n d p c s]; [discriminate T|].
  exists n, d, p, c, s. unfold parsed_price. cbn [body_price].
  destruct p; try discriminate T; eexists; repeat split; reflexivity.
Qed.

Lemma post_product_valid (uuid : string) (req : request) (products : store) :
  rejected_fields (req_body req) = [] ->
  post_product uuid req products =
  Ok (mkResponse 201 (JProduct (created_record uuid (req_body req))),
      products ++ [created_record uuid (req_body req)]).
Proof.
  intros H.
  destruct (valid_payload_parses _ H) as (n & d & p & c & s & x & B & P & X).
  unfold post_product, created_record. rewrite X, B, P. reflexivity.
Qed.

Lemma put_product_found (req : request) (products : store) (i : string)
  (n : nat) :
  rejected_fields (req_body req) = [] ->
  findIndex (fun p => String.eqb (id p) i) products = Some n ->
  exists old,
    nth_error products n = Some old /\ id old = i /\
    put_product (with_params req [("id", i)]) products =
    Ok (mkResponse 200 (JProduct (updated_record old (req_body req))),
        assign_at products n (updated_record old (req_body req))).
Proof.
  intros H F. destruct (findIndex_Some _ _ _ F) as (old & Hn & Hid & _).
  exists old. split; [exact Hn|]. split; [now apply String.eqb_eq|].
  destruct (valid_payload_parses _ H) as (nm & d & p & c & s & x & B & P & X).
  unfold put_product, updated_record.
  rewrite (findIndex_ext _ (fun p => String.eqb (id p) i))
    by (intros p0; apply has_id_params).
  change (req_body (with_params req [("id", i)])) with (req_body req).
  rewrite X, F, B, Hn, P. reflexivity.
Qed.

Lemma put_product_missing (req : request) (products : store) (i : string) :
  (forall p, In p products -> id p <> i) ->
  put_product (with_params req [("id", i)]) products =
  Throw (NotFoundError "Product not found").
Proof.
  intros H. unfold put_product.
  rewrite (findIndex_ext _ (fun p => String.eqb (id p) i))
    by (intros p; apply has_id_params).
  replace (findIndex _ products) with (@None nat); [reflexivity|].
  symmetry. apply findIndex_None. intros p Hp. apply String.eqb_neq.
  now apply H.
Qed.

(** C8. An authorized update with a valid payload: when a product has the
    id, the first such record is replaced by one with the same id and the
    five fields of the payload (the price through [parseFloat], which
    leaves a number as it is), that record is returned with 200, and every
    other position of the store is untouched; when no product has the id
    the answer is 404 "Product not found" and the store is unchanged. *)
Theorem update_replaces_one_record
  (uuid : string) (req : request) (products : store) (i : string) :
  req_method req = PUT -> req_path req = ["api"; "products"; i] -> i <> "" ->
  x_api_key req = Some "secret-api-key" ->
  rejected_fields (req_body req) = [] ->
  let b := req_body req in
  ((exists p, In p products /\ id p = i) ->
     exists n old,
       nth_error products n = Some old /\ id old = i /\
       let updated := updated_record old b in
       let products' := assign_at products n updated in
       serve uuid req products = (mkResponse 200 (JProduct updated), products') /\
       id updated = i /\
       name updated = body_name b /\
       description updated = body_description b /\
       (exists x, parseFloat (body_price b) = Ok x /\ price updated = VNum x) /\
       (forall x, body_price b = VNum x -> price updated = VNum x) /\
       category updated = body_category b /\
       inStock updated = body_inStock b /\
       List.length products' = List.length products /\
       nth_error products' n = Some updated /\
       (forall m, m <> n -> nth_error products' m = nth_error products m)) /\
  ((forall p, In p products -> id p <> i) ->
     serve uuid req products =
     (mkResponse 404 (JMessage "Product not found" None), products)).
Proof.
  intros Hm Hp Hi Hk Hv b. split.
  - intros (p & Hin & Hid).
    destruct (findIndex_In (fun p => String.eqb (id p) i) products p Hin)
      as [n F]; [now apply String.eqb_eq|].
    destruct (put_product_found req products i n Hv F) as (old & Hn & Hold & E).
    exists n, old. split; [exact Hn|]. split; [exact Hold|].
    cbv zeta. split.
    { rewrite (serve_put uuid req products i) by assumption.
      unfold asyncHandler. rewrite E. reflexivity. }
    split; [exact Hold|]. repeat (split; [reflexivity|]).
    destruct (valid_payload_parses _ Hv) as (nm & d & pr & c & s & x & B & P & X).
    split; [exists x; split; [subst b; rewrite B; exact P
                             | cbn; subst b; now rewrite X]|].
    split; [intros y Hy; cbn; unfold parsed_price; now rewrite Hy|].
    repeat (split; [reflexivity|]).
    split; [apply assign_at_length|].
    split; [|intros m Hne; now apply assign_at_other].
    apply assign_at_same. apply nth_error_Some. congruence.
  - intros Hnone. rewrite (serve_put uuid req products i) by assumption.
    unfold asyncHandler. rewrite put_product_missing by exact Hnone.
    reflexivity.
Qed.


Lemma numeric_string_passes (b : body_fields) (s : string) :
  body_price b = VStr s -> positive (StringToNumber s) ->
  other_fields_valid b -> rejected_fields b = [].
Proof.
  intros Hp Hs (Hn & Hd & Hc & f & Hf).
  unfold rejected_fields, name_rejected, description_rejected, price_rejected,
    category_rejected, inStock_rejected.
  rewrite Hn, Hd, Hc, Hf, Hp. cbn [ToNumber truthy negb orb List.app].
  assert (E : s <> "").
  { intros ->. destruct Hs as [Hs|(q & Hs & Hq)]; [discriminate Hs|].
    vm_compute in Hs. injection Hs as <-. now apply Qlt_irrefl in Hq. }
  apply String.eqb_neq in E. rewrite E. cbn [negb orb].
  destruct Hs as [->|(q & -> & Hq)]; [reflexivity|].
  cbn [is_nan num_le orb].
  destruct (Qle_bool q 0) eqn:L; [|reflexivity].
  apply Qle_bool_iff in L. exfalso. apply (Qlt_irrefl 0).
  now apply Qlt_le_trans with q.
Qed.

(** *** Objects as maps *)

Lemma get_own_None {A} (o : object A) (k : string) :
  get_own o k = None <-> ~ In k (keys o).
Proof.
  induction o as [|[k' v] o IH]; cbn; [tauto|].
  destruct (String.eqb_spec k' k) as [->|N].
  - split; [discriminate | intros H; contradiction H; now left].
  - rewrite IH. tauto.
Qed.

Lemma keys_update_own {A} (o : object A) (k : string) (v : A) :
  keys (update_own o k v) = keys o.
Proof.
  unfold keys. induction o as [|[k' v'] o IH]; cbn; [reflexivity|].
  destruct (String.eqb k' k); cbn; [reflexivity | now rewrite IH].
Qed.

Lemma get_own_update_own {A} (o : object A) (k k' : string) (v x : A) :
  get_own o k = Some x ->
  get_own (update_own o k v) k' =
  if String.eqb k k' then Some v else get_own o k'.
Proof.
  induction o as [|[k0 v0] o IH]; cbn; [discriminate|].
  destruct (String.eqb_spec k0 k) as [->|N]; cbn.
  - intros _. destruct (String.eqb k k'); reflexivity.
  - intros H. rewrite (IH H).
    destruct (String.eqb_spec k0 k') as [<-|N'].
    + now rewrite (proj2 (String.eqb_neq k k0)) by congruence.
    + reflexivity.
Qed.

Lemma insert_new_last {A} (o : object A) (k : string) (v : A) :
  array_index k = None -> insert_new o k v = o ++ [(k, v)].
Proof.
  intros H. induction o as [|[k' v'] o IH]; cbn; [reflexivity|].
  rewrite H. now rewrite IH.
Qed.

Lemma get_own_insert_new {A} (o : object A) (k k' : string) (v : A) :
  get_own o k = None ->
  get_own (insert_new o k v) k' =
  if String.eqb k k' then Some v else get_own o k'.
Proof.
  induction o as [|[k0 v0] o IH]; cbn [insert_new get_own].
  - intros _. reflexivity.
  - destruct (String.eqb_spec k0 k) as [->|N]; [discriminate|]. intros H.
    destruct (array_index k) as [i|], (array_index k0) as [j|];
      [destruct (i <? j)%N| | |]; cbn [get_own]; try reflexivity;
      rewrite (IH H);
      destruct (String.eqb_spec k0 k'), (String.eqb_spec k k');
      try reflexivity; congruence.
Qed.

Lemma update_own_insert_new {A} (o : object A) (k : string) (x v : A) :
  get_own o k = None ->
  update_own (insert_new o k x) k v = insert_new o k v.
Proof.
  induction o as [|[k0 v0] o IH]; cbn [insert_new get_own update_own].
  - intros _. now rewrite String.eqb_refl.
  - destruct (String.eqb_spec k0 k) as [->|N]; [discriminate|]. intros H.
    apply String.eqb_neq in N.
    destruct (array_index k) as [i|], (array_index k0) as [j|];
      [destruct (i <? j)%N| | |]; cbn [update_own];
      rewrite ?String.eqb_refl, ?N, ?(IH H); reflexivity.
Qed.

Lemma In_keys_insert_new {A} (o : object A) (k k' : string) (v : A) :
  In k' (keys (insert_new o k v)) <-> k' = k \/ In k' (keys o).
Proof.
  unfold keys. induction o as [|[k0 v0] o IH]; cbn [insert_new map fst In].
  - intuition congruence.
  - destruct (array_index k) as [i|], (array_index k0) as [j|];
      [destruct (i <? j)%N| | |]; cbn [map fst In]; rewrite ?IH;
      intuition congruence.
Qed.

Lemma NoDup_keys_insert_new {A} (o : object A) (k : string) (v : A) :
  ~ In k (keys o) -> NoDup (keys o) -> NoDup (keys (insert_new o k v)).
Proof.
  induction o as [|[k0 v0] o IH]; intros Hk ND.
  - cbn. constructor; [intros [] | constructor].
  - assert (S : NoDup (k :: keys ((k0, v0) :: o))) by now constructor.
    cbn [keys map fst] in Hk, ND. inversion ND as [|? ? H0 ND']; subst.
    assert (Hk' : ~ In k (keys o)) by (intros I; apply Hk; now right).
    assert (R : NoDup (keys ((k0, v0) :: insert_new o k v))).
    { cbn [keys map fst]. constructor; [|now apply IH].
      change (map fst (insert_new o k v)) with (keys (insert_new o k v)).
      rewrite In_keys_insert_new. intros [->|I]; [|contradiction].
      apply Hk. now left. }
    cbn [insert_new].
    destruct (array_index k) as [i|], (array_index k0) as [j|];
      [destruct (i <? j)%N| | |]; assumption.
Qed.

Lemma keys_last {A} (o : object A) (k : string) (v : A) :
  keys (o ++ [(k, v)]) = keys o ++ [k].
Proof. unfold keys. now rewrite map_app. Qed.

(** An object is determined by its keys, when they are distinct, and the
    value under each. *)
Lemma object_ext {A} (o : object A) (c : string -> A) :
  NoDup (keys o) ->
  (forall k, In k (keys o) -> get_own o k = Some (c k)) ->
  o = map (fun k => (k, c k)) (keys o).
Proof.
  induction o as [|[k v] o IH]; intros ND H; [reflexivity|].
  cbn in ND |- *. inversion ND as [|? ? Hk ND']; subst.
  f_equal.
  - specialize (H k (or_introl eq_refl)). cbn in H.
    rewrite String.eqb_refl in H. now injection H as ->.
  - apply IH; [exact ND'|]. intros k' Hk'.
    specialize (H k' (or_intror Hk')). cbn in H.
    destruct (String.eqb_spec k k') as [->|_]; [contradiction | exact H].
Qed.

(** *** First-seen order and occurrences *)

Lemma In_first_seen (k : string) (ks : list string) :
  In k (first_seen ks) <-> In k ks.
Proof.
  induction ks as [|a ks IH]; cbn; [tauto|].
  rewrite filter_In, IH, negb_true_iff, String.eqb_neq.
  destruct (string_dec a k); intuition congruence.
Qed.

Lemma NoDup_first_seen (ks : list string) : NoDup (first_seen ks).
Proof.
  induction ks as [|a ks IH]; cbn; constructor.
  - rewrite filter_In, negb_true_iff, String.eqb_neq. tauto.
  - now apply NoDup_filter.
Qed.

Lemma first_seen_snoc_new (ks : list string) (k : string) :
  ~ In k ks -> first_seen (ks ++ [k]) = first_seen ks ++ [k].
Proof.
  induction ks as [|a ks IH]; intros H; [reflexivity|].
  cbn in H |- *. rewrite IH by tauto. rewrite filter_app. cbn.
  rewrite (proj2 (String.eqb_neq k a)) by (intros ->; tauto).
  reflexivity.
Qed.

Lemma first_seen_snoc_old (ks : list string) (k : string) :
  In k ks -> first_seen (ks ++ [k]) = first_seen ks.
Proof.
  induction ks as [|a ks IH]; intros H; [contradiction|].
  cbn. destruct (in_dec string_dec k ks) as [I|I].
  - now rewrite IH.
  - destruct H as [->|H]; [|contradiction].
    rewrite first_seen_snoc_new by exact I.
    rewrite filter_app. cbn. rewrite String.eqb_refl. cbn.
    now rewrite app_nil_r.
Qed.

Lemma occurrences_snoc (k' k : string) (ks : list string) :
  occurrences k' (ks ++ [k]) =
  (occurrences k' ks + if String.eqb k' k then 1 else 0)%nat.
Proof.
  unfold occurrences. rewrite filter_app, length_app. cbn.
  destruct (String.eqb k' k); reflexivity.
Qed.

Lemma occurrences_absent (k : string) (ks : list string) :
  ~ In k ks -> occurrences k ks = 0%nat.
Proof.
  unfold occurrences. induction ks as [|a ks IH]; intros H; [reflexivity|].
  cbn in H |- *. rewrite (proj2 (String.eqb_neq k a)) by (intros ->; tauto).
  apply IH. tauto.
Qed.

Lemma occurrences_positive (k : string) (ks : list string) :
  In k ks -> (1 <= occurrences k ks)%nat.
Proof.
  intros H. unfold occurrences.
  assert (I : In k (filter (String.eqb k) ks)).
  { apply filter_In. split; [exact H | apply String.eqb_refl]. }
  destruct (filter (String.eqb k) ks); [contradiction | cbn; lia].
Qed.

(** *** Arithmetic of counts and prices *)

Lemma Qred_inject_Z (z : Z) : Qred (inject_Z z) = inject_Z z.
Proof. apply Qcanon.Qred_identity. cbn. apply Z.gcd_1_r. Qed.

Lemma of_nat_succ (c : nat) : num_add (of_nat c) (Fin 1) = of_nat (S c).
Proof.
  unfold of_nat, of_Z. cbn [num_add]. f_equal.
  rewrite <- (Qred_inject_Z (Z.of_nat (S c))). apply Qred_complete.
  rewrite Nat2Z.inj_succ. unfold Z.succ. now rewrite inject_Z_plus.
Qed.

Lemma of_nat_truthy (c : nat) : (1 <= c)%nat -> num_falsy (of_nat c) = false.
Proof.
  intros H. unfold of_nat, of_Z. cbn [num_falsy].
  destruct (Qeq_bool (inject_Z (Z.of_nat c)) 0) eqn:E; [|reflexivity].
  apply Qeq_bool_iff in E. unfold Qeq in E. cbn in E. lia.
Qed.

Lemma filter_partition_length {A} (f : A -> bool) (l : list A) :
  (List.length (filter f l) + List.length (filter (fun x => negb (f x)) l)
   = List.length l)%nat.
Proof.
  induction l as [|x l IH]; [reflexivity|].
  cbn. destruct (f x); cbn; lia.
Qed.

Lemma num_equiv_refl (a : num) : num_equiv a a.
Proof. destruct a; cbn; try exact I. apply Qeq_refl. Qed.

Lemma num_equiv_sym (a b : num) : num_equiv a b -> num_equiv b a.
Proof. destruct a, b; cbn; try tauto. apply Qeq_sym. Qed.

Lemma num_equiv_trans (a b c : num) :
  num_equiv a b -> num_equiv b c -> num_equiv a c.
Proof. destruct a, b, c; cbn; try tauto. apply Qeq_trans. Qed.

Lemma num_add_equiv (a a' b b' : num) :
  num_equiv a a' -> num_equiv b b' -> num_equiv (num_add a b) (num_add a' b').
Proof.
  destruct a, a', b, b'; cbn [num_add num_equiv]; try tauto. intros H1 H2.
  rewrite !Qred_correct. now rewrite H1, H2.
Qed.

Lemma num_add_assoc (a b c : num) :
  num_equiv (num_add (num_add a b) c) (num_add a (num_add b c)).
Proof.
  destruct a, b, c; cbn [num_add num_equiv]; try exact I.
  rewrite !Qred_correct. symmetry. apply Qplus_assoc.
Qed.

Lemma num_add_0_r (a : num) : num_equiv (num_add a (Fin 0)) a.
Proof.
  destruct a; cbn [num_add num_equiv]; try exact I.
  rewrite Qred_correct. apply Qplus_0_r.
Qed.

Lemma Qeq_bool_equiv (p p' q : Q) : (p == p')%Q -> Qeq_bool p q = Qeq_bool p' q.
Proof.
  intros H. destruct (Qeq_bool p q) eqn:E, (Qeq_bool p' q) eqn:E';
    try reflexivity.
  - apply Qeq_bool_iff in E. rewrite H in E. apply Qeq_bool_iff in E.
    congruence.
  - apply Qeq_bool_iff in E'. rewrite <- H in E'. apply Qeq_bool_iff in E'.
    congruence.
Qed.

Lemma Qle_bool_equiv (p p' : Q) : (p == p')%Q -> Qle_bool 0 p = Qle_bool 0 p'.
Proof.
  intros H. destruct (Qle_bool 0 p) eqn:E, (Qle_bool 0 p') eqn:E';
    try reflexivity.
  - apply Qle_bool_iff in E. rewrite H in E. apply Qle_bool_iff in E.
    congruence.
  - apply Qle_bool_iff in E'. rewrite <- H in E'. apply Qle_bool_iff in E'.
    congruence.
Qed.

Lemma num_div_equiv (a a' b : num) :
  num_equiv a a' -> num_equiv (num_div a b) (num_div a' b).
Proof.
  destruct a as [| | |p], a' as [| | |p'], b as [| | |q];
    cbn [num_div num_equiv]; try tauto;
    try (intros _;
         match goal with
         | |- context [Qneg_bool ?x] => destruct (Qneg_bool x)
         end; exact I);
    try (intros _; apply Qeq_refl).
  intros H. destruct (Qeq_bool q 0).
  - rewrite (Qeq_bool_equiv p p' 0 H). unfold Qneg_bool.
    rewrite (Qle_bool_equiv p p' H).
    destruct (Qeq_bool p' 0); [exact I|]. destruct (Qle_bool 0 p'); exact I.
  - cbn [num_equiv]. rewrite !Qred_correct. now rewrite H.
Qed.

Lemma num_or_equiv (a a' d : num) :
  num_equiv a a' -> num_equiv (num_or a d) (num_or a' d).
Proof.
  unfold num_or. destruct a as [| | |p], a' as [| | |p'];
    cbn [num_falsy num_equiv]; try tauto;
    try (intros _; apply num_equiv_refl).
  intros H. rewrite (Qeq_bool_equiv p p' 0 H).
  destruct (Qeq_bool p' 0); [apply num_equiv_refl | exact H].
Qed.

Lemma fold_left_add_equiv (ns : list num) (a a' : num) :
  num_equiv a a' ->
  num_equiv (fold_left num_add ns a) (fold_left num_add ns a').
Proof.
  revert a a'. induction ns as [|n ns IH]; intros a a' H; [exact H|].
  cbn [fold_left]. apply IH. apply num_add_equiv; [exact H|].
  apply num_equiv_refl.
Qed.

(** Adding from the left gives the sum. *)
Lemma fold_left_add_sum (ns : list num) (a : num) :
  num_equiv (fold_left num_add ns a) (num_add a (exact_sum ns)).
Proof.
  revert a. induction ns as [|n ns IH]; intros a.
  - cbn. apply num_equiv_sym, num_add_0_r.
  - cbn [fold_left exact_sum fold_right].
    eapply num_equiv_trans; [apply IH|]. apply num_add_assoc.
Qed.

Lemma num_add_0_l (a : num) : num_equiv (num_add (Fin 0) a) a.
Proof.
  destruct a; cbn [num_add num_equiv]; try exact I.
  rewrite Qred_correct. apply Qplus_0_l.
Qed.

(** While no addition rounds, the running sum is the exact one. *)
Lemma sums_exactly_sum (ns : list num) (a : num) :
  sums_exactly a ns ->
  num_equiv (fold_left float_add ns a) (fold_left num_add ns a).
Proof.
  revert a. induction ns as [|n ns IH]; intros a H; [apply num_equiv_refl|].
  destruct H as [H1 H2]. cbn [fold_left].
  eapply num_equiv_trans; [apply (IH _ H2)|].
  now apply fold_left_add_equiv.
Qed.

(** The sum of prices that are numbers. *)
Lemma sum_of_prices (products : store) (ns : list num) (a : num) :
  map price products = map VNum ns ->
  reduce_r (fun sum p => plus sum (price p)) products (VNum a) =
  Ok (VNum (fold_left float_add ns a)).
Proof.
  revert ns a. induction products as [|p products IH]; intros [|n ns] a H;
    try discriminate H; [reflexivity|].
  cbn in H. injection H as Hp H. cbn [reduce_r fold_left]. rewrite Hp.
  cbn [plus ToPrimitive bind ToNumber]. now apply IH.
Qed.

(** *** Statistics *)

Lemma count_key_old (o : object num) (k : string) (c : nat) :
  get_own o k = Some (of_nat c) -> (1 <= c)%nat ->
  count_key o k = update_own o k (of_nat (S c)).
Proof.
  intros H Hc. unfold count_key, get_property. rewrite H.
  cbn [property_falsy]. rewrite of_nat_truthy by exact Hc.
  unfold increment, get_property, put_property. rewrite H.
  now rewrite of_nat_succ.
Qed.

Lemma count_key_new (o : object num) (k : string) :
  get_own o k = None -> inherited k = false ->
  count_key o k = insert_new o k (of_nat 1).
Proof.
  intros H Hi. unfold count_key, get_property. rewrite H, Hi.
  cbn [property_falsy]. unfold put_property at 1. rewrite H.
  destruct (String.eqb_spec k "__proto__") as [->|_]; [discriminate Hi|].
  unfold increment, get_property, put_property.
  rewrite (get_own_insert_new _ _ _ _ H), String.eqb_refl.
  now apply update_own_insert_new.
Qed.

(** A new key goes where the order of enumeration puts it. *)
Lemma ordered_insert_new {A} (o : object A) (k : string) (v : A) :
  ordered (keys o) -> ordered (keys (insert_new o k v)).
Proof.
  induction o as [|[k0 v0] o IH]; intros H.
  - cbn. split; [|exact I]. destruct (index_key k); constructor.
  - cbn [keys map fst ordered] in H. destruct H as [H0 Ho].
    change (map fst o) with (keys o) in H0, Ho.
    assert (R : forall P : string -> Prop,
               P k -> Forall P (keys o) -> Forall P (keys (insert_new o k v))).
    { intros P Pk Po. apply Forall_forall. intros k' Hk'.
      apply In_keys_insert_new in Hk' as [->|Hk']; [exact Pk|].
      revert k' Hk'. now apply Forall_forall. }
    cbn [insert_new]. unfold index_key in H0 |- *.
    unfold index_le, index_of in H0 |- *.
    destruct (array_index k) as [i|] eqn:Ek, (array_index k0) as [j|] eqn:E0.
    + destruct (N.ltb_spec i j) as [L|L].
      * cbn [keys map fst ordered]. unfold index_key, index_le, index_of.
        rewrite Ek, E0. change (map fst o) with (keys o).
        split; [|now split]. constructor.
        -- rewrite E0. intros _. lia.
        -- eapply Forall_impl; [|exact H0]. cbn. intros k' Hk' I'.
           specialize (Hk' I'). lia.
      * cbn [keys map fst ordered]. unfold index_key, index_le, index_of.
        rewrite E0. change (map fst (insert_new o k v))
          with (keys (insert_new o k v)).
        split; [|now apply IH]. apply R; [|exact H0].
        rewrite Ek. intros _. lia.
    + cbn [keys map fst ordered]. unfold index_key, index_le, index_of.
      rewrite Ek, E0. change (map fst o) with (keys o).
      split; [|now split]. constructor.
      * rewrite E0. discriminate.
      * eapply Forall_impl; [|exact H0]. cbn. intros k' Hk' I'. congruence.
    + cbn [keys map fst ordered]. unfold index_key, index_le, index_of.
      rewrite E0. change (map fst (insert_new o k v))
        with (keys (insert_new o k v)).
      split; [|now apply IH]. apply R; [|exact H0].
      rewrite Ek. discriminate.
    + cbn [keys map fst ordered]. unfold index_key, index_le, index_of.
      rewrite E0. change (map fst (insert_new o k v))
        with (keys (insert_new o k v)).
      split; [|now apply IH]. apply R; [|exact H0].
      rewrite Ek. reflexivity.
Qed.

(** The keys that are no array index stay in the order they came. *)
Lemma other_keys_insert_new {A} (o : object A) (k : string) (v : A) :
  filter other_key (keys (insert_new o k v)) =
  filter other_key (keys o) ++ (if other_key k then [k] else []).
Proof.
  unfold other_key, index_key.
  destruct (array_index k) as [i|] eqn:Ek; cbn [negb].
  - rewrite app_nil_r.
    induction o as [|[k0 v0] o IH]; cbn [insert_new keys map fst filter].
    + unfold other_key, index_key. now rewrite Ek.
    + rewrite Ek.
      destruct (array_index k0) as [j|] eqn:E0; [destruct (i <? j)%N|];
        cbn [keys map fst filter]; rewrite ?Ek, ?E0; cbn [negb];
        try reflexivity.
      exact IH.
  - rewrite (insert_new_last _ _ _ Ek), keys_last, filter_app.
    cbn [filter]. now rewrite Ek.
Qed.

Lemma no_index_filter (ks : list string) :
  Forall (fun k => index_key k = false) ks ->
  filter index_key ks = [] /\ filter other_key ks = ks.
Proof.
  induction 1 as [|k ks Hk _ [IH1 IH2]]; [now split|].
  cbn [filter]. unfold other_key. rewrite Hk. cbn [negb].
  fold other_key. now rewrite IH1, IH2.
Qed.

Lemma ordered_split (ks : list string) :
  ordered ks -> ks = filter index_key ks ++ filter other_key ks.
Proof.
  induction ks as [|k ks IH]; [reflexivity|]. intros [H Ho].
  cbn [filter]. unfold other_key at 1. destruct (index_key k) eqn:E; cbn [negb].
  - cbn [List.app]. f_equal. now apply IH.
  - destruct (no_index_filter ks H) as [-> ->]. reflexivity.
Qed.

Lemma ordered_sorted (ks : list string) :
  ordered ks -> StronglySorted index_le (filter index_key ks).
Proof.
  induction ks as [|k ks IH]; [constructor|]. intros [H Ho].
  cbn [filter]. destruct (index_key k) eqn:E; [|now apply IH].
  constructor; [now apply IH|].
  apply Forall_forall. intros k' Hk'. apply filter_In in Hk' as [Hin Hk'].
  rewrite Forall_forall in H. now apply H.
Qed.

(** What the object holds after one more key has been counted. *)
Lemma count_key_step (o : object num) (pre : list string) (k : string) :
  inherited k = false -> counted o pre -> counted (count_key o k) (pre ++ [k]).
Proof.
  intros Hk (ND & HI & HO & HF & HV).
  destruct (in_dec string_dec k pre) as [I|I].
  - pose proof (HV k I) as Hg.
    rewrite (count_key_old o k _ Hg) by now apply occurrences_positive.
    unfold counted. rewrite keys_update_own, first_seen_snoc_old by exact I.
    split; [exact ND|]. split.
    { intros k'. rewrite HI, in_app_iff. cbn. intuition congruence. }
    split; [exact HO|]. split; [exact HF|].
    intros k' Hk'. rewrite (get_own_update_own _ _ _ _ _ Hg).
    rewrite occurrences_snoc.
    destruct (String.eqb_spec k k') as [<-|N].
    + rewrite String.eqb_refl. f_equal. f_equal. lia.
    + rewrite (proj2 (String.eqb_neq k' k)) by congruence.
      rewrite Nat.add_0_r. apply HV.
      apply in_app_or in Hk' as [Hk'|[Hk'|[]]]; [exact Hk' | congruence].
  - assert (Hn : ~ In k (keys o)) by now rewrite HI.
    assert (Hg : get_own o k = None) by now apply get_own_None.
    rewrite (count_key_new o k Hg Hk). unfold counted.
    split; [now apply NoDup_keys_insert_new|]. split.
    { intros k'. rewrite In_keys_insert_new, HI, in_app_iff. cbn.
      intuition congruence. }
    split; [now apply ordered_insert_new|]. split.
    { rewrite other_keys_insert_new, HF, first_seen_snoc_new by exact I.
      rewrite filter_app. cbn [filter]. now destruct (other_key k). }
    intros k' Hk'. rewrite (get_own_insert_new _ _ _ _ Hg), occurrences_snoc.
    apply in_app_or in Hk' as [Hk'|[<-|[]]].
    + rewrite (HV k' Hk').
      rewrite (proj2 (String.eqb_neq k k')) by (intros ->; contradiction).
      rewrite (proj2 (String.eqb_neq k' k)) by (intros ->; contradiction).
      now rewrite Nat.add_0_r.
    + rewrite String.eqb_refl. now rewrite occurrences_absent.
Qed.

Lemma count_keys (ks pre : list string) (o : object num) :
  Forall (fun k => inherited k = false) ks ->
  counted o pre -> counted (fold_left count_key ks o) (pre ++ ks).
Proof.
  revert pre o. induction ks as [|k ks IH]; intros pre o Hks H.
  - now rewrite app_nil_r.
  - inversion Hks as [|? ? Hk Hks']; subst. cbn [fold_left].
    pose proof (count_key_step o pre k Hk H) as H'.
    pose proof (IH (pre ++ [k]) (count_key o k) Hks' H') as H2.
    now rewrite <- app_assoc in H2.
Qed.

Lemma counted_nothing : counted [] [].
Proof.
  unfold counted. cbn. repeat split; try constructor; try tauto.
Qed.

(** The [forEach] loop over products whose categories convert to keys. *)
Lemma reduce_count_category (products : store) (ks : list string)
  (o : object num) :
  category_keys products = Ok ks ->
  reduce_r count_category products o = Ok (fold_left count_key ks o).
Proof.
  unfold category_keys. revert ks o.
  induction products as [|p products IH]; intros ks o H.
  - injection H as <-. reflexivity.
  - cbn [map_r reduce_r] in H |- *. unfold count_category at 1.
    destruct (toPropertyKey (category p)) as [k|e]; [|discriminate H].
    cbn [bind] in H |- *.
    destruct (map_r _ products) as [ks'|e] eqn:E; [|discriminate H].
    injection H as <-. cbn [fold_left]. now apply IH.
Qed.

(** The statistics of a store whose prices are numbers and whose categories
    convert to keys. *)
Lemma stats_returns (products : store) (ns : list num) (ks : list string) :
  map price products = map VNum ns ->
  category_keys products = Ok ks ->
  stats products =
  Ok (Stats.mk (List.length products) (fold_left count_key ks [])
        (List.length (filter (fun p => truthy (inStock p)) products))
        (List.length (filter (fun p => negb (truthy (inStock p))) products))
        (num_or (float_div (float_sum ns) (of_nat (List.length ns))) (Fin 0))).
Proof.
  intros Hp Hk. unfold stats.
  rewrite (sum_of_prices products ns (Fin 0) Hp). cbn [bind ToNumber].
  rewrite (reduce_count_category products ks [] Hk). cbn [bind].
  assert (L : List.length products = List.length ns).
  { now rewrite <- (length_map price), Hp, length_map. }
  now rewrite L.
Qed.

(** The keys of the counts, as an object enumerates them. *)
Lemma counted_enumerates (o : object num) (ks : list string) :
  counted o ks -> enumerates ks (keys o).
Proof.
  intros (ND & HI & HO & HF & HV). unfold enumerates.
  split; [exact ND|]. split; [exact HI|].
  split; [now apply ordered_split|]. split; [now apply ordered_sorted|].
  exact HF.
Qed.

(** With no array index among the keys the counts are the histogram. *)
Lemma counted_histogram (o : object num) (ks : list string) :
  counted o ks -> Forall (fun k => index_key k = false) ks ->
  o = histogram ks.
Proof.
  intros (ND & HI & HO & HF & HV) Hn.
  assert (K : keys o = first_seen ks).
  { assert (N1 : Forall (fun k => index_key k = false) (keys o)).
    { apply Forall_forall. intros k Hk. apply HI in Hk.
      rewrite Forall_forall in Hn. now apply Hn. }
    assert (N2 : Forall (fun k => index_key k = false) (first_seen ks)).
    { apply Forall_forall. intros k Hk.
      apply (proj1 (In_first_seen _ _)) in Hk.
      rewrite Forall_forall in Hn. now apply Hn. }
    destruct (no_index_filter _ N1) as [_ E1].
    destruct (no_index_filter _ N2) as [_ E2].
    now rewrite <- E1, HF, E2. }
  unfold histogram. rewrite <- K. apply object_ext; [exact ND|].
  intros k Hk. apply HV. now apply HI.
Qed.

(** On ordinary keys the category object is the histogram. *)
Lemma categories_histogram (ks : list string) :
  Forall ordinary_key ks -> fold_left count_key ks [] = histogram ks.
Proof.
  intros H. apply counted_histogram.
  - apply (count_keys ks [] []); [|exact counted_nothing].
    eapply Forall_impl; [|exact H]. now intros k [_ Hk].
  - eapply Forall_impl; [|exact H]. intros k [Hk _]. unfold index_key.
    now rewrite Hk.
Qed.

(** C9, as amended. For every snapshot whose prices are numbers and whose
    categories convert to property keys the aggregation returns, and:
    [totalProducts] is the size of the snapshot; [inStock] and [outOfStock]
    count the products whose flag is truthy and falsy, and add up to the
    size; when no category key is a name inherited from [Object.prototype],
    the category object holds every key once with the number of its
    occurrences, at least 1, the keys that are array indices first and in
    ascending order, the others after them in first-seen order, so that
    without array indices it is the histogram in first-seen order;
    [averagePrice] is the binary64 quotient of the binary64 sum of the
    prices, added from the left, by their number, with 0 in place of [NaN]
    and of 0, hence 0 for the empty snapshot; when neither the additions
    nor the division round, it is the arithmetic mean of the prices, with 0
    in place of a mean that is [NaN]. *)
Theorem statistics_of_a_snapshot
  (products : store) (ns : list num) (ks : list string) :
  map price products = map VNum ns ->
  category_keys products = Ok ks ->
  exists s,
    stats products = Ok s /\
    Stats.totalProducts s = List.length products /\
    Stats.inStock s =
      List.length (filter (fun p => truthy (inStock p)) products) /\
    Stats.outOfStock s =
      List.length (filter (fun p => negb (truthy (inStock p))) products) /\
    (Stats.inStock s + Stats.outOfStock s = List.length products)%nat /\
    (Forall (fun k => inherited k = false) ks ->
       enumerates ks (keys (Stats.categories s)) /\
       (forall k, In k ks ->
          get_own (Stats.categories s) k = Some (of_nat (occurrences k ks)) /\
          (1 <= occurrences k ks)%nat) /\
       (Forall (fun k => index_key k = false) ks ->
          Stats.categories s = histogram ks)) /\
    Stats.averagePrice s =
      num_or (float_div (float_sum ns) (of_nat (List.length ns))) (Fin 0) /\
    (averages_exactly ns ->
       num_equiv (Stats.averagePrice s) (num_or (arithmetic_mean ns) (Fin 0))) /\
    (products = [] -> Stats.averagePrice s = Fin 0).
Proof.
  intros Hp Hk. eexists. split; [exact (stats_returns products ns ks Hp Hk)|].
  cbn [Stats.totalProducts Stats.inStock Stats.outOfStock Stats.categories
       Stats.averagePrice].
  split; [reflexivity|]. split; [reflexivity|]. split; [reflexivity|].
  split; [apply filter_partition_length|]. split; [|split; [|split]].
  - intros Hi.
    pose proof (count_keys ks [] [] Hi counted_nothing) as C.
    cbn [List.app] in C. split; [now apply counted_enumerates|]. split.
    + intros k Hin. split; [|now apply occurrences_positive].
      destruct C as (_ & _ & _ & _ & HV). now apply HV.
    + intros Hn. now apply counted_histogram.
  - reflexivity.
  - intros [Hs Hd]. cbv zeta in Hd. apply num_or_equiv.
    eapply num_equiv_trans; [exact Hd|]. unfold arithmetic_mean.
    apply num_div_equiv. unfold float_sum.
    eapply num_equiv_trans; [apply (sums_exactly_sum _ _ Hs)|].
    eapply num_equiv_trans; [apply fold_left_add_sum|]. apply num_add_0_l.
  - intros ->. destruct ns; [reflexivity | discriminate Hp].
Qed.

(** *** The statistics route is never reached *)

Lemma stats_path_is_an_id_path (path : list string) (ps : object string) :
  match_path [Lit "api"; Lit "products"; Lit "stats"] path = Some ps ->
  match_path [Lit "api"; Lit "products"; Param "id"] path <> None.
Proof.
  destruct path as [|a [|b [|c r]]]; cbn [match_path]; try discriminate;
    destruct (String.eqb _ (toLowerCase a)); try discriminate;
    destruct (String.eqb _ (toLowerCase b)); try discriminate.
  destruct (String.eqb_spec c "") as [->|_]; [discriminate|].
  destruct (String.eqb _ (toLowerCase c)); [|discriminate].
  destruct r as [|d [|e r]]; try discriminate.
  destruct (String.eqb d ""); discriminate.
Qed.

Lemma get_products_content (req : request) (products : store)
  (r : response) (products' : store) (s : Stats.t) :
  get_products req products = Ok (r, products') -> content r <> JStats s.
Proof.
  unfold get_products.
  destruct (if truthy (qvalue (query_category (req_query req))) then _ else _)
    as [r1|e1]; [|discriminate].
  rewrite bind_Ok.
  destruct (if truthy (qvalue (query_search (req_query req))) then _ else _)
    as [r2|e2]; [|discriminate].
  rewrite bind_Ok. intros H. injection H as <- _. discriminate.
Qed.

(** *** The routes a request can take *)

(** A GET or HEAD request goes to the first of the three routes of
    [/], [/api/products] and [/api/products/:id] its path matches; the
    route of the statistics comes after them and is never taken. *)
Lemma handle_get (uuid : string) (req : request) (products : store) :
  req_method req = GET \/ req_method req = HEAD ->
  handle (app uuid) [] None req products =
  match match_path [] (req_path req) with
  | Some _ => get_root_answer products
  | None =>
      match match_path [Lit "api"; Lit "products"] (req_path req) with
      | Some ps =>
          finish req products
            (asyncHandler get_products (with_params req ps) products)
      | None =>
          match match_path id_pattern (req_path req) with
          | Some ps =>
              finish req products
                (asyncHandler get_product (with_params req ps) products)
          | None => (mkResponse 404 Default, products)
          end
      end
  end.
Proof.
  intros Hm.
  assert (Hg : handles_method GET (req_method req) = true)
    by (destruct Hm as [-> | ->]; reflexivity).
  assert (Ho : req_method req <> OPTIONS)
    by (destruct Hm as [-> | ->]; discriminate).
  assert (Hn : forall m, m <> GET -> handles_method m (req_method req) = false)
    by (intros m N; destruct Hm as [-> | ->]; destruct m; try reflexivity;
        now contradiction N).
  unfold app, id_pattern. rewrite !handle_use by reflexivity.
  destruct (match_path [] (req_path req)) as [ps0|] eqn:E0.
  { rewrite (handle_route_take _ _ _ _ _ _ ps0) by assumption. reflexivity. }
  rewrite handle_route_skip by (try assumption; right; exact E0).
  destruct (match_path [Lit "api"; Lit "products"] (req_path req))
    as [ps1|] eqn:E1.
  { rewrite (handle_route_take _ _ _ _ _ _ ps1) by assumption.
    cbn [run_chain].
    destruct (asyncHandler get_products _ products) as [|e|r st] eqn:G;
      try reflexivity.
    unfold asyncHandler in G.
    destruct (get_products _ products) as [[r st]|e]; discriminate G. }
  rewrite handle_route_skip by (try assumption; right; exact E1).
  destruct (match_path [Lit "api"; Lit "products"; Param "id"] (req_path req))
    as [ps2|] eqn:E2.
  { rewrite (handle_route_take _ _ _ _ _ _ ps2) by assumption.
    cbn [run_chain].
    destruct (asyncHandler get_product _ products) as [|e|r st] eqn:G;
      try reflexivity.
    unfold asyncHandler in G.
    destruct (get_product _ products) as [[r st]|e]; discriminate G. }
  rewrite handle_route_skip by (try assumption; right; exact E2).
  rewrite !handle_route_skip
    by (try assumption; left; apply Hn; discriminate).
  destruct (match_path [Lit "api"; Lit "products"; Lit "stats"] (req_path req))
    as [ps3|] eqn:E3.
  { now apply stats_path_is_an_id_path in E3. }
  rewrite handle_route_skip by (try assumption; right; exact E3).
  cbn [handle]. unfold options_answer. destruct (req_method req); reflexivity.
Qed.

(** A POST request goes to the create route when its path matches. *)
Lemma handle_post (uuid : string) (req : request) (products : store) :
  req_method req = POST ->
  handle (app uuid) [] None req products =
  match match_path [Lit "api"; Lit "products"] (req_path req) with
  | Some ps =>
      finish req products
        (run_chain
           [apiKeyMiddleware; validateProduct; asyncHandler (post_product uuid)]
           (with_params req ps) products)
  | None => (mkResponse 404 Default, products)
  end.
Proof.
  intros Hm. unfold app. rewrite !handle_use by reflexivity.
  rewrite !handle_route_skip by (rewrite Hm; side).
  destruct (match_path [Lit "api"; Lit "products"] (req_path req))
    as [ps1|] eqn:E1.
  - rewrite (handle_route_take _ _ _ _ _ _ ps1)
      by (try exact E1; rewrite Hm; reflexivity).
    destruct (run_chain _ (with_params req ps1) products) as [|e|r st] eqn:G;
      try reflexivity.
    exfalso. cbn [run_chain] in G.
    destruct (apiKeyMiddleware _ products); try discriminate G.
    destruct (validateProduct _ products); try discriminate G.
    unfold asyncHandler in G.
    destruct (post_product uuid _ products) as [[r st]|e]; discriminate G.
  - rewrite handle_route_skip by (rewrite ?Hm; try discriminate; right; exact E1).
    rewrite !handle_route_skip by (rewrite Hm; side).
    cbn [handle]. unfold options_answer. rewrite Hm. reflexivity.
Qed.

(** A PUT request goes to the update route when its path matches. *)
Lemma handle_put (uuid : string) (req : request) (products : store) :
  req_method req = PUT ->
  handle (app uuid) [] None req products =
  match match_path id_pattern (req_path req) with
  | Some ps =>
      finish req products
        (run_chain [apiKeyMiddleware; validateProduct; asyncHandler put_product]
           (with_params req ps) products)
  | None => (mkResponse 404 Default, products)
  end.
Proof.
  intros Hm. unfold app, id_pattern. rewrite !handle_use by reflexivity.
  rewrite !handle_route_skip by (rewrite Hm; side).
  destruct (match_path [Lit "api"; Lit "products"; Param "id"] (req_path req))
    as [ps1|] eqn:E1.
  - rewrite (handle_route_take _ _ _ _ _ _ ps1)
      by (try exact E1; rewrite Hm; reflexivity).
    destruct (run_chain _ (with_params req ps1) products) as [|e|r st] eqn:G;
      try reflexivity.
    exfalso. cbn [run_chain] in G.
    destruct (apiKeyMiddleware _ products); try discriminate G.
    destruct (validateProduct _ products); try discriminate G.
    unfold asyncHandler in G.
    destruct (put_product _ products) as [[r st]|e]; discriminate G.
  - rewrite handle_route_skip by (rewrite ?Hm; try discriminate; right; exact E1).
    rewrite !handle_route_skip by (rewrite Hm; side).
    cbn [handle]. unfold options_answer. rewrite Hm. reflexivity.
Qed.

(** A DELETE request goes to the delete route when its path matches. *)
Lemma handle_delete (uuid : string) (req : request) (products : store) :
  req_method req = DELETE ->
  handle (app uuid) [] None req products =
  match match_path id_pattern (req_path req) with
  | Some ps =>
      finish req products
        (run_chain [apiKeyMiddleware; asyncHandler delete_product]
           (with_params req ps) products)
  | None => (mkResponse 404 Default, products)
  end.
Proof.
  intros Hm. unfold app, id_pattern. rewrite !handle_use by reflexivity.
  rewrite !handle_route_skip by (rewrite Hm; side).
  destruct (match_path [Lit "api"; Lit "products"; Param "id"] (req_path req))
    as [ps1|] eqn:E1.
  - rewrite (handle_route_take _ _ _ _ _ _ ps1)
      by (try exact E1; rewrite Hm; reflexivity).
    destruct (run_chain _ (with_params req ps1) products) as [|e|r st] eqn:G;
      try reflexivity.
    exfalso. cbn [run_chain] in G.
    destruct (apiKeyMiddleware _ products); try discriminate G.
    unfold asyncHandler in G.
    destruct (delete_product _ products) as [[r st]|e]; discriminate G.
  - rewrite handle_route_skip by (rewrite ?Hm; try discriminate; right; exact E1).
    rewrite !handle_route_skip by (rewrite Hm; side).
    cbn [handle]. unfold options_answer. rewrite Hm. reflexivity.
Qed.

(** No route takes a request of another method: an OPTIONS request is
    answered with the methods of the routes its path matches, if any. *)
Lemma handle_no_route (stack : list layer) (allowed : list string)
  (req : request) (products : store) :
  Forall (fun l => match l with Use _ => False | _ => True end) stack ->
  req_method req = OPTIONS \/ req_method req = OTHER ->
  exists allowed',
    handle stack allowed None req products =
    (options_answer req allowed', products).
Proof.
  intros F Hm. revert allowed.
  induction F as [|l stack Hl F IH]; intros allowed.
  - exists allowed. reflexivity.
  - destruct l as [m|meth pattern chain|h]; [contradiction| |].
    + cbn [handle].
      assert (Hh : handles_method meth (req_method req) = false)
        by (destruct Hm as [-> | ->]; destruct meth; reflexivity).
      rewrite Hh. destruct (match_path pattern (req_path req)); apply IH.
    + cbn [handle]. apply IH.
Qed.

Lemma handle_other (uuid : string) (req : request) (products : store) :
  req_method req = OPTIONS \/ req_method req = OTHER ->
  exists allowed,
    handle (app uuid) [] None req products =
    (options_answer req allowed, products).
Proof.
  intros Hm. unfold app. rewrite !handle_use by reflexivity.
  apply handle_no_route; [|exact Hm].
  repeat constructor.
Qed.

(** *** The statistics route is never reached *)

Lemma finish_content (req : request) (products : store) (o : outcome)
  (s : Stats.t) :
  (forall r st, o = Respond r st -> content r <> JStats s) ->
  content (fst (finish req products o)) <> JStats s.
Proof.
  intros H. destruct o as [|e|r st]; cbn; try discriminate. now apply (H r st).
Qed.

(** No request is answered with the statistics: whatever path matches the
    statistics route matches the route [/api/products/:id] before it. *)
Lemma statistics_never_served (uuid : string) (req : request)
  (products : store) (s : Stats.t) :
  content (fst (serve uuid req products)) <> JStats s.
Proof.
  unfold serve, send.
  destruct (req_method req) eqn:Hm.
  - (* GET *)
    rewrite handle_get by now left.
    destruct (match_path [] (req_path req)); [discriminate|].
    destruct (match_path [Lit "api"; Lit "products"] (req_path req)) as [ps1|].
    { apply finish_content. unfold asyncHandler. intros r st.
      destruct (get_products _ products) as [[r' st']|e] eqn:G; [|discriminate].
      intros H. injection H as <- <-.
      now apply (get_products_content _ _ _ _ s) in G. }
    destruct (match_path id_pattern (req_path req)) as [ps2|]; [|discriminate].
    apply finish_content. unfold asyncHandler, get_product. intros r st.
    destruct (find _ products); [|discriminate].
    intros H. injection H as <- <-. discriminate.
  - (* POST *)
    rewrite handle_post by exact Hm.
    destruct (match_path [Lit "api"; Lit "products"] (req_path req)) as [ps1|];
      [|discriminate].
    apply finish_content. cbn [run_chain]. intros r st.
    unfold apiKeyMiddleware.
    destruct (match x_api_key _ with Some _ => _ | None => _ end).
    { intros H. injection H as <- <-. discriminate. }
    rewrite validateProduct_spec.
    destruct (validation_errors _) as [[|]|]; try discriminate.
    + unfold asyncHandler.
      destruct (post_product uuid _ products) as [[r' st']|e] eqn:P;
        [|discriminate].
      intros H. injection H as <- <-. unfold post_product in P.
      destruct (req_body _); [discriminate P|].
      destruct (parseFloat _); [|discriminate P].
      cbn [bind] in P. injection P as <- _. discriminate.
    + intros H. injection H as <- <-. discriminate.
  - (* PUT *)
    rewrite handle_put by exact Hm.
    destruct (match_path id_pattern (req_path req)) as [ps1|]; [|discriminate].
    apply finish_content. cbn [run_chain]. intros r st.
    unfold apiKeyMiddleware.
    destruct (match x_api_key _ with Some _ => _ | None => _ end).
    { intros H. injection H as <- <-. discriminate. }
    rewrite validateProduct_spec.
    destruct (validation_errors _) as [[|]|]; try discriminate.
    + unfold asyncHandler.
      destruct (put_product _ products) as [[r' st']|e] eqn:P; [|discriminate].
      intros H. injection H as <- <-. unfold put_product in P.
      destruct (findIndex _ products) as [n|]; [|discriminate P].
      destruct (req_body _); [discriminate P|].
      destruct (nth_error products n); [|discriminate P].
      destruct (parseFloat _); [|discriminate P].
      cbn [bind] in P. injection P as <- _. discriminate.
    + intros H. injection H as <- <-. discriminate.
  - (* DELETE *)
    rewrite handle_delete by exact Hm.
    destruct (match_path id_pattern (req_path req)) as [ps1|]; [|discriminate].
    apply finish_content. cbn [run_chain]. intros r st.
    unfold apiKeyMiddleware.
    destruct (match x_api_key _ with Some _ => _ | None => _ end).
    { intros H. injection H as <- <-. discriminate. }
    unfold asyncHandler, delete_product.
    destruct (findIndex _ products); [|discriminate].
    intros H. injection H as <- <-. discriminate.
  - (* HEAD *)
    cbn [fst content]. discriminate.
  - (* OPTIONS *)
    destruct (handle_other uuid req products (or_introl Hm)) as [allowed ->].
    unfold options_answer. rewrite Hm. destruct allowed; discriminate.
  - (* any other method *)
    destruct (handle_other uuid req products (or_intror Hm)) as [allowed ->].
    unfold options_answer. rewrite Hm. discriminate.
Qed.

(** *** Failures of the listing *)

(** A product whose category is a number makes the category filter throw;
    the request is answered 500 with the message of the [TypeError]. *)
Lemma listing_fails_on_numeric_category (uuid : string) :
  let products :=
    [mkProduct "p-1" (VStr "Pen") (VStr "A pen") (VNum (Fin 2)) (VNum (Fin 5))
       (VBool true)] in
  serve uuid
    (mkRequest GET ["api"; "products"] None
       (mkQuery (QStr "x") QAbsent QAbsent QAbsent) no_body [])
    products =
  (mkResponse 500 (JMessage "p.category.toLowerCase is not a function" None),
   products).
Proof. intros products. rewrite serve_get_products. reflexivity. Qed.

(** That product is one the create endpoint accepts. *)
Lemma numeric_category_is_accepted :
  rejected_fields
    (mkBody (VStr "Pen") (VStr "A pen") (VNum (Fin 2)) (VNum (Fin 5))
       (VBool true)) = [].
Proof. reflexivity. Qed.

(** *** What a request does to the store *)

Lemma match_path_id_inv (path : list string) (ps : object string) :
  match_path id_pattern path = Some ps ->
  exists i, ps = [("id", i)] /\ i <> "".
Proof.
  unfold id_pattern.
  destruct path as [|a [|b [|i r]]]; cbn [match_path]; try discriminate;
    destruct (String.eqb _ (toLowerCase a)); try discriminate;
    destruct (String.eqb _ (toLowerCase b)); try discriminate;
    destruct (String.eqb_spec i "") as [->|N]; try discriminate.
  destruct r as [|d [|e r]]; try discriminate.
  - cbn. intros H. injection H as <-. now exists i.
  - destruct (String.eqb d ""); [|discriminate].
    cbn. intros H. injection H as <-. now exists i.
Qed.

Lemma get_products_store (req : request) (products : store)
  (r : response) (products' : store) :
  get_products req products = Ok (r, products') -> products' = products.
Proof.
  rewrite get_products_split.
  destruct (kept_by _ products); [|discriminate].
  rewrite bind_Ok. intros H. now injection H.
Qed.

Lemma put_product_cases (req : request) (products : store) (i : string) :
  rejected_fields (req_body req) = [] ->
  (exists n old,
     nth_error products n = Some old /\ id old = i /\
     findIndex (fun p => String.eqb (id p) i) products = Some n /\
     put_product (with_params req [("id", i)]) products =
     Ok (mkResponse 200 (JProduct (updated_record old (req_body req))),
         assign_at products n (updated_record old (req_body req)))) \/
  ((forall p, In p products -> id p <> i) /\
   put_product (with_params req [("id", i)]) products =
   Throw (NotFoundError "Product not found")).
Proof.
  intros Hv.
  destruct (findIndex (fun p => String.eqb (id p) i) products) as [n|] eqn:F.
  - left.
    destruct (put_product_found req products i n Hv F) as (old & Hn & Hi & E).
    now exists n, old.
  - right. assert (H : forall p, In p products -> id p <> i).
    { intros p Hp. apply String.eqb_neq.
      now apply (proj2 (findIndex_None _ products) F). }
    split; [exact H | now apply put_product_missing].
Qed.

Lemma delete_product_cases (req : request) (products : store) (i : string) :
  ((exists p, In p products /\ id p = i) /\
   delete_product (with_params req [("id", i)]) products =
   Ok (mkResponse 204 Empty,
       filter (fun p => negb (String.eqb (id p) i)) products)) \/
  ((forall p, In p products -> id p <> i) /\
   delete_product (with_params req [("id", i)]) products =
   Throw (NotFoundError "Product not found")).
Proof.
  unfold delete_product.
  rewrite (findIndex_ext _ (fun p => String.eqb (id p) i))
    by (intros p; apply has_id_params).
  destruct (findIndex (fun p => String.eqb (id p) i) products) as [n|] eqn:F.
  - left. destruct (findIndex_Some _ _ _ F) as (x & Hn & Hx & _). split.
    + exists x. split; [now apply nth_error_In with n | now apply String.eqb_eq].
    + reflexivity.
  - right. split; [|reflexivity]. intros p Hp. apply String.eqb_neq.
    now apply (proj2 (findIndex_None _ products) F).
Qed.

(** An authorized [DELETE /api/products/<i>] reaches the delete handler. *)
Lemma serve_delete (uuid : string) (req : request) (products : store)
  (i : string) :
  req_method req = DELETE -> req_path req = ["api"; "products"; i] -> i <> "" ->
  x_api_key req = Some "secret-api-key" ->
  serve uuid req products =
  finish req products
    (asyncHandler delete_product (with_params req [("id", i)]) products).
Proof.
  destruct req as [m path k q b ps]. cbn [req_method req_path x_api_key].
  intros -> -> Hi ->. unfold serve, app.
  rewrite !handle_use by reflexivity.
  rewrite !handle_route_skip by side.
  rewrite (handle_route_take _ _ _ _ _ _ [("id", i)])
    by (try reflexivity; apply match_path_id; exact Hi).
  cbn [run_chain].
  rewrite apiKeyMiddleware_accepts by reflexivity.
  unfold asyncHandler. destruct (delete_product _ products) as [[r st]|e];
    reflexivity.
Qed.

Lemma option_eq_dec_string (a b : option string) : {a = b} + {a <> b}.
Proof. decide equality. apply string_dec. Qed.

Lemma apiKeyMiddleware_cases (req : request) (products : store) :
  (x_api_key req = Some "secret-api-key" /\
   apiKeyMiddleware req products = Next) \/
  apiKeyMiddleware req products = Respond unauthorized products.
Proof.
  destruct (option_eq_dec_string (x_api_key req) (Some "secret-api-key"))
    as [E|N].
  - left. split; [exact E | now apply apiKeyMiddleware_accepts].
  - right. now apply apiKeyMiddleware_rejects.
Qed.

Lemma validateProduct_cases (req : request) (products : store) :
  (rejected_fields (req_body req) = [] /\ validateProduct req products = Next) \/
  (exists r, validateProduct req products = Respond r products) \/
  (exists e, validateProduct req products = NextErr e).
Proof.
  rewrite validateProduct_spec.
  destruct (validation_throws (req_body req)) eqn:T.
  - destruct (validation_errors_throw _ T) as [e [-> _]]. right. right.
    now exists e.
  - destruct (validation_errors_keys _ T) as [errors [-> K]].
    destruct errors as [|e errs].
    + left. now split.
    + right. left. eexists. reflexivity.
Qed.

Lemma finish_store (req : request) (products : store) (o : outcome) :
  (forall r st, o = Respond r st -> st = products) ->
  snd (finish req products o) = products.
Proof.
  intros H. destruct o as [|e|r st]; cbn; try reflexivity. now apply (H r st).
Qed.

Lemma store_unchanged (uuid : string) (req : request) (products : store)
  (answer : response * store) :
  snd answer = products ->
  store_change uuid req products (fst answer) (snd answer).
Proof. intros ->. apply change_none. Qed.

(** A GET or HEAD request leaves the store as it is. *)
Lemma handle_get_store (uuid : string) (req : request) (products : store) :
  req_method req = GET \/ req_method req = HEAD ->
  snd (handle (app uuid) [] None req products) = products.
Proof.
  intros Hm. rewrite handle_get by exact Hm.
  destruct (match_path [] (req_path req)); [reflexivity|].
  destruct (match_path [Lit "api"; Lit "products"] (req_path req)) as [ps1|].
  { apply finish_store. unfold asyncHandler. intros r st.
    destruct (get_products _ products) as [[r' st']|e] eqn:G; [|discriminate].
    intros H. injection H as <- <-. now apply get_products_store in G. }
  destruct (match_path id_pattern (req_path req)) as [ps2|]; [|reflexivity].
  apply finish_store. unfold asyncHandler, get_product. intros r st.
  destruct (find _ products); [|discriminate].
  intros H. now injection H as <- <-.
Qed.

(** Every request changes the store in one of the four ways. *)
Lemma serve_store_change (uuid : string) (req : request) (products : store) :
  store_change uuid req products
    (fst (serve uuid req products)) (snd (serve uuid req products)).
Proof.
  unfold serve, send. destruct (req_method req) eqn:Hm.
  - (* GET *)
    apply store_unchanged. apply handle_get_store. now left.
  - (* POST *)
    rewrite handle_post by exact Hm.
    destruct (match_path [Lit "api"; Lit "products"] (req_path req)) as [ps1|];
      [|apply change_none].
    cbn [run_chain].
    destruct (apiKeyMiddleware_cases (with_params req ps1) products)
      as [[Hk ->]| ->]; [|apply change_none].
    destruct (validateProduct_cases (with_params req ps1) products)
      as [[Hv ->]|[[r ->]|[e ->]]]; [|apply change_none|apply change_none].
    unfold asyncHandler. rewrite post_product_valid by exact Hv.
    change (req_body (with_params req ps1)) with (req_body req) in *.
    change (x_api_key (with_params req ps1)) with (x_api_key req) in Hk.
    cbn [finish fst snd]. now apply change_created.
  - (* PUT *)
    rewrite handle_put by exact Hm.
    destruct (match_path id_pattern (req_path req)) as [ps1|] eqn:E1;
      [|apply change_none].
    destruct (match_path_id_inv _ _ E1) as (i & -> & Hi).
    cbn [run_chain].
    destruct (apiKeyMiddleware_cases (with_params req [("id", i)]) products)
      as [[Hk ->]| ->]; [|apply change_none].
    destruct (validateProduct_cases (with_params req [("id", i)]) products)
      as [[Hv ->]|[[r ->]|[e ->]]]; [|apply change_none|apply change_none].
    unfold asyncHandler.
    destruct (put_product_cases req products i Hv)
      as [(n & old & Hn & Hold & _ & ->)|[_ ->]]; [|apply change_none].
    change (req_body (with_params req [("id", i)])) with (req_body req) in *.
    change (x_api_key (with_params req [("id", i)])) with (x_api_key req) in Hk.
    cbn [finish fst snd]. now apply (change_updated uuid _ products i n old).
  - (* DELETE *)
    rewrite handle_delete by exact Hm.
    destruct (match_path id_pattern (req_path req)) as [ps1|] eqn:E1;
      [|apply change_none].
    destruct (match_path_id_inv _ _ E1) as (i & -> & Hi).
    cbn [run_chain].
    destruct (apiKeyMiddleware_cases (with_params req [("id", i)]) products)
      as [[Hk ->]| ->]; [|apply change_none].
    unfold asyncHandler.
    destruct (delete_product_cases req products i)
      as [[Hex ->]|[_ ->]]; [|apply change_none].
    change (x_api_key (with_params req [("id", i)])) with (x_api_key req) in Hk.
    cbn [finish fst snd]. now apply (change_deleted uuid _ products i).
  - (* HEAD *)
    cbn [fst snd]. rewrite handle_get_store by now right. apply change_none.
  - (* OPTIONS *)
    destruct (handle_other uuid req products (or_introl Hm)) as [allowed ->].
    apply change_none.
  - (* any other method *)
    destruct (handle_other uuid req products (or_intror Hm)) as [allowed ->].
    apply change_none.
Qed.

(** X1. Whatever the request, the store afterwards is the store before, or
    the store with one validated record appended (an authorized POST, answered
    201), or with one record replaced by a validated record of the same id
    (an authorized PUT, answered 200), or without the records of one id (an
    authorized DELETE, answered 204). *)
Theorem every_request_changes_the_store_in_one_way
  (uuid : string) (req : request) (products : store) :
  store_change uuid req products
    (fst (serve uuid req products)) (snd (serve uuid req products)).
Proof. apply serve_store_change. Qed.

(** X2. A GET request, and any request answered with a status of 400 or
    more, leaves the store as it was. *)
Theorem reads_and_failures_keep_the_store
  (uuid : string) (req : request) (products : store) :
  req_method req = GET \/ (400 <= status (fst (serve uuid req products)))%Z ->
  snd (serve uuid req products) = products.
Proof.
  intros H. pose proof (serve_store_change uuid req products) as C.
  remember (fst (serve uuid req products)) as r.
  remember (snd (serve uuid req products)) as st.
  destruct C as [r|Hm _ _|i n old Hm _ _ _ _ _|i Hm _ _ _]; [reflexivity| | |];
    destruct H as [H|H]; try congruence; cbn in H; lia.
Qed.

Lemma NoDup_snoc {A} (l : list A) (x : A) :
  NoDup l -> ~ In x l -> NoDup (l ++ [x]).
Proof.
  intros H N. apply NoDup_app; [exact H | repeat constructor; intros [] |].
  intros a Ha [<-|[]]. contradiction.
Qed.

Lemma ids_assign_at (products : store) (n : nat) (old x : Product) :
  nth_error products n = Some old -> id x = id old ->
  ids (assign_at products n x) = ids products.
Proof.
  revert n. induction products as [|p products IH]; intros [|n] Hn Hx;
    cbn in *; try discriminate.
  - injection Hn as ->. now rewrite Hx.
  - f_equal. now apply IH.
Qed.

Lemma NoDup_ids_filter (f : Product -> bool) (products : store) :
  NoDup (ids products) -> NoDup (ids (filter f products)).
Proof.
  unfold ids. induction products as [|p products IH]; intros H; [exact H|].
  cbn in H |- *. apply NoDup_cons_iff in H as [N H].
  destruct (f p); [|now apply IH]. cbn. constructor; [|now apply IH].
  intros I. apply N. apply in_map_iff in I as (x & Ex & Ix).
  apply filter_In in Ix as [Ix _]. apply in_map_iff. now exists x.
Qed.

Lemma serve_keeps_ids_distinct (uuid : string) (req : request)
  (products : store) :
  NoDup (ids products) -> ~ In uuid (ids products) ->
  NoDup (ids (snd (serve uuid req products))).
Proof.
  intros ND Fresh. pose proof (serve_store_change uuid req products) as C.
  remember (fst (serve uuid req products)) as r.
  remember (snd (serve uuid req products)) as st.
  destruct C as [r| |i n old _ _ _ _ Hn Hid|i _ _ _ _].
  - exact ND.
  - unfold ids. rewrite map_app. now apply NoDup_snoc.
  - now rewrite (ids_assign_at products n old).
  - now apply NoDup_ids_filter.
Qed.

(** X3. When the ids of the store are pairwise distinct and [uuidv4()]
    returns an id the store does not have, the ids are pairwise distinct
    after the request, whatever the request. *)
Theorem ids_stay_distinct (uuid : string) (req : request) (products : store) :
  NoDup (ids products) -> ~ In uuid (ids products) ->
  NoDup (ids (snd (serve uuid req products))).
Proof. apply serve_keeps_ids_distinct. Qed.

Lemma valid_payload_fields (b : body_fields) :
  rejected_fields b = [] ->
  truthy (body_name b) = true /\ truthy (body_description b) = true /\
  truthy (body_category b) = true /\ exists f, body_inStock b = VBool f.
Proof.
  unfold rejected_fields, name_rejected, description_rejected, price_rejected,
    category_rejected, inStock_rejected.
  destruct (truthy (body_name b)), (truthy (body_description b)),
    (truthy (body_category b)), (body_inStock b) as [| |f| | | |];
    destruct (negb (truthy (body_price b)) ||
              match ToNumber (body_price b) with
              | Ok n => is_nan n || num_le n (Fin 0)
              | Throw _ => true
              end);
    try discriminate; intros _; repeat split; now exists f.
Qed.

Lemma Forall_assign_at {A} (P : A -> Prop) (l : list A) (n : nat) (x : A) :
  Forall P l -> P x -> Forall P (assign_at l n x).
Proof.
  intros H Hx. revert n. induction H as [|y l Hy H IH]; intros [|n]; cbn;
    constructor; auto.
Qed.

Lemma serve_keeps_well_formed (uuid : string) (req : request)
  (products : store) :
  Forall well_formed products ->
  Forall well_formed (snd (serve uuid req products)).
Proof.
  intros W. pose proof (serve_store_change uuid req products) as C.
  remember (fst (serve uuid req products)) as r.
  remember (snd (serve uuid req products)) as st.
  destruct C as [r|_ _ Hv|i n old _ _ Hv _ _ _|i _ _ _ _].
  - exact W.
  - apply Forall_app. split; [exact W|]. constructor; [|constructor].
    exact (valid_payload_fields _ Hv).
  - apply Forall_assign_at; [exact W|]. exact (valid_payload_fields _ Hv).
  - apply Forall_forall. intros p Hp. apply filter_In in Hp as [Hp _].
    revert p Hp. now apply Forall_forall.
Qed.

(** X4. When every stored record has a truthy name, description and
    category and a boolean [inStock], so has every record after the request,
    whatever the request. *)
Theorem stored_records_stay_well_formed
  (uuid : string) (req : request) (products : store) :
  Forall well_formed products ->
  Forall well_formed (snd (serve uuid req products)).
Proof. apply serve_keeps_well_formed. Qed.

(** *** Prices are numbers *)

Lemma serve_keeps_number_priced (uuid : string) (req : request)
  (products : store) :
  Forall number_priced products ->
  Forall number_priced (snd (serve uuid req products)).
Proof.
  intros W. pose proof (serve_store_change uuid req products) as C.
  remember (fst (serve uuid req products)) as r.
  remember (snd (serve uuid req products)) as st.
  destruct C as [r|_ _ Hv|i n old _ _ Hv _ _ _|i _ _ _ _].
  - exact W.
  - apply Forall_app. split; [exact W|]. constructor; [|constructor].
    reflexivity.
  - apply Forall_assign_at; [exact W|]. reflexivity.
  - apply Forall_forall. intros p Hp. apply filter_In in Hp as [Hp _].
    revert p Hp. now apply Forall_forall.
Qed.

Lemma serve_all_number_priced (requests : list (string * request))
  (products : store) :
  Forall number_priced products ->
  Forall number_priced (serve_all requests products).
Proof.
  unfold serve_all. revert products.
  induction requests as [|[uuid req] requests IH]; intros products H;
    [exact H|].
  cbn [fold_left fst snd]. apply IH. now apply serve_keeps_number_priced.
Qed.

(** C10. A price given as a string that reads as a number above zero
    passes validation, in create and in update, and the record stored
    carries the number [parseFloat] reads from that string.  No request
    stores a price that is not a number: if every price of the store is
    number-typed so is every price after the request, whatever the request;
    hence every price is number-typed in every store reached from the two
    initial records. *)
Theorem numeric_string_price_is_stored_as_number :
  (forall (uuid : string) (req : request) (products : store) (s : string),
     x_api_key req = Some "secret-api-key" ->
     body_price (req_body req) = VStr s ->
     positive (StringToNumber s) ->
     other_fields_valid (req_body req) ->
     (req_method req = POST -> req_path req = ["api"; "products"] ->
        exists new,
          serve uuid req products =
            (mkResponse 201 (JProduct new), products ++ [new]) /\
          price new = VNum (parseFloat_string s) /\
          typeof (price new) = "number") /\
     (forall i, req_method req = PUT ->
        req_path req = ["api"; "products"; i] -> i <> "" ->
        (exists p, In p products /\ id p = i) ->
        exists n old updated,
          nth_error products n = Some old /\ id old = i /\
          serve uuid req products =
            (mkResponse 200 (JProduct updated),
             assign_at products n updated) /\
          price updated = VNum (parseFloat_string s) /\
          typeof (price updated) = "number")) /\
  (forall (uuid : string) (req : request) (products : store),
     Forall number_priced products ->
     Forall number_priced (snd (serve uuid req products))) /\
  (forall (id1 id2 : string) (requests : list (string * request)),
     Forall number_priced (serve_all requests (initial_products id1 id2))).
Proof.
  split; [|split].
  - intros uuid req products s Hk Hp Hs Hv.
    pose proof (numeric_string_passes _ _ Hp Hs Hv) as Hr.
    assert (P : parsed_price (req_body req) = parseFloat_string s)
      by (unfold parsed_price; now rewrite Hp).
    split.
    + intros Hm Hpath. exists (created_record uuid (req_body req)). split.
      * rewrite serve_post by assumption. unfold asyncHandler.
        now rewrite post_product_valid by exact Hr.
      * cbn [created_record price]. now rewrite P.
    + intros i Hm Hpath Hi (p & Hin & Hid).
      destruct (findIndex_In (fun p => String.eqb (id p) i) products p Hin)
        as [n F]; [now apply String.eqb_eq|].
      destruct (put_product_found req products i n Hr F)
        as (old & Hn & Hold & E).
      exists n, old, (updated_record old (req_body req)).
      split; [exact Hn|]. split; [exact Hold|]. split.
      * rewrite (serve_put uuid req products i) by assumption.
        unfold asyncHandler. now rewrite E.
      * cbn [updated_record price]. now rewrite P.
  - apply serve_keeps_number_priced.
  - intros id1 id2 requests. apply serve_all_number_priced.
    repeat constructor.
Qed.

(** *** The endpoints one by one *)

Lemma ids_injective (products : store) (p p' : Product) :
  NoDup (ids products) -> In p products -> In p' products -> id p = id p' ->
  p = p'.
Proof.
  unfold ids. induction products as [|x products IH]; intros ND Hp Hp' E;
    [contradiction|].
  cbn in ND. apply NoDup_cons_iff in ND as [N ND].
  destruct Hp as [->|Hp], Hp' as [->|Hp']; [reflexivity | | |now apply IH].
  - contradiction N. rewrite E. now apply in_map.
  - contradiction N. rewrite <- E. now apply in_map.
Qed.

Lemma get_product_find (req : request) (products : store) (i : string) :
  asyncHandler get_product (with_params req [("id", i)]) products =
  match find (fun p => String.eqb (id p) i) products with
  | Some p => Respond (mkResponse 200 (JProduct p)) products
  | None => NextErr (NotFoundError "Product not found")
  end.
Proof.
  unfold asyncHandler, get_product.
  rewrite (find_ext _ (fun p => String.eqb (id p) i))
    by (intros p; apply has_id_params).
  destruct (find _ products); reflexivity.
Qed.

Lemma find_absent (products : store) (i : string) :
  (forall p, In p products -> id p <> i) ->
  find (fun p => String.eqb (id p) i) products = None.
Proof.
  intros H. destruct (find _ products) as [p|] eqn:F; [|reflexivity].
  apply find_some in F as [Hp E]. apply String.eqb_eq in E.
  now contradiction (H p Hp).
Qed.

(** X5. [GET /api/products/<i>] answers 200 with the first product whose id
    is [i] and 404 "Product not found" when there is none, the store being
    left as it was; when the ids are pairwise distinct, the product
    returned is the product of that id. *)
Theorem lookup_by_id (uuid : string) (key : option string) (q : query)
  (b : body_fields) (ps : object string) (i : string) (products : store) :
  i <> "" ->
  let req := mkRequest GET ["api"; "products"; i] key q b ps in
  serve uuid req products =
    match find (fun p => String.eqb (id p) i) products with
    | Some p => (mkResponse 200 (JProduct p), products)
    | None => (mkResponse 404 (JMessage "Product not found" None), products)
    end /\
  ((forall p, In p products -> id p <> i) ->
     serve uuid req products =
     (mkResponse 404 (JMessage "Product not found" None), products)) /\
  (forall p, NoDup (ids products) -> In p products -> id p = i ->
     serve uuid req products = (mkResponse 200 (JProduct p), products)).
Proof.
  intros Hi req.
  assert (E : serve uuid req products =
    match find (fun p => String.eqb (id p) i) products with
    | Some p => (mkResponse 200 (JProduct p), products)
    | None => (mkResponse 404 (JMessage "Product not found" None), products)
    end).
  { subst req. rewrite serve_get_id by exact Hi. rewrite get_product_find.
    destruct (find _ products); reflexivity. }
  split; [exact E|]. split.
  - intros H. rewrite E, find_absent by exact H. reflexivity.
  - intros p ND Hp Hid. rewrite E.
    destruct (find _ products) as [p'|] eqn:F.
    + apply find_some in F as [Hp' E']. apply String.eqb_eq in E'.
      now rewrite (ids_injective products p p' ND Hp Hp') by congruence.
    + apply find_none with (x := p) in F; [|exact Hp].
      apply String.eqb_neq in F. contradiction.
Qed.

(** X6. An authorized create with a valid payload answers 201 with a record
    whose id is the fresh one and whose fields are the payload's (the price
    through [parseFloat]); the record is appended: the store is one longer
    and every earlier position holds what it held. *)
Theorem create_appends_one_record
  (uuid : string) (req : request) (products : store) :
  req_method req = POST -> req_path req = ["api"; "products"] ->
  x_api_key req = Some "secret-api-key" ->
  rejected_fields (req_body req) = [] ->
  let new := created_record uuid (req_body req) in
  let products' := snd (serve uuid req products) in
  serve uuid req products = (mkResponse 201 (JProduct new), products ++ [new]) /\
  id new = uuid /\
  List.length products' = S (List.length products) /\
  nth_error products' (List.length products) = Some new /\
  (forall n, (n < List.length products)%nat ->
     nth_error products' n = nth_error products n).
Proof.
  intros Hm Hp Hk Hv new products'.
  assert (E : serve uuid req products =
              (mkResponse 201 (JProduct new), products ++ [new])).
  { rewrite serve_post by assumption. unfold asyncHandler.
    rewrite post_product_valid by exact Hv. reflexivity. }
  subst products'. rewrite E. cbn [snd].
  split; [reflexivity|]. split; [reflexivity|]. split; [|split].
  - rewrite length_app. cbn. lia.
  - rewrite nth_error_app2 by lia. now rewrite Nat.sub_diag.
  - intros n Hn. now apply nth_error_app1.
Qed.

(** X7. An authorized create or update whose payload is an object with a
    rejected field, the price being no object without a primitive value, is
    answered 400 "Validation failed" with the error object, whose keys are
    the rejected fields, and leaves the store as it was: for an update this
    holds whether or not the id exists. *)
Theorem invalid_payload_is_rejected
  (uuid : string) (req : request) (products : store) :
  req_method req = POST \/ req_method req = PUT ->
  mutating_endpoint req = true ->
  x_api_key req = Some "secret-api-key" ->
  validation_throws (req_body req) = false ->
  rejected_fields (req_body req) <> [] ->
  exists errors,
    validation_errors (req_body req) = Ok errors /\
    keys errors = rejected_fields (req_body req) /\
    serve uuid req products =
    (mkResponse 400 (JMessage "Validation failed" (Some errors)), products).
Proof.
  intros Hmeth Hm Hk Ht Hv. unfold mutating_endpoint in Hm.
  destruct Hmeth as [Hmeth|Hmeth]; rewrite Hmeth in Hm;
    rewrite serve_handle by (rewrite Hmeth; discriminate);
    [rewrite handle_post by exact Hmeth | rewrite handle_put by exact Hmeth];
    unfold id_pattern;
    match type of Hm with
    | match ?mp with Some _ => _ | None => _ end = _ =>
        destruct mp as [ps'|] eqn:E
    end; try discriminate Hm;
    cbn [run_chain];
    rewrite apiKeyMiddleware_accepts by exact Hk;
    destruct (validateProduct_rejects (with_params req ps') products Ht Hv)
      as (errors & V & K & ->);
    exists errors; (split; [exact V|]); (split; [exact K|]); reflexivity.
Qed.

(** X26. An authorized create or update that comes without a parsed body,
    or whose price is an object without a primitive value, makes validation
    throw: the error handler answers 500 with the message of the error, and
    the store is left as it was. *)
Theorem throwing_payload_is_answered_500
  (uuid : string) (req : request) (products : store) :
  req_method req = POST \/ req_method req = PUT ->
  mutating_endpoint req = true ->
  x_api_key req = Some "secret-api-key" ->
  validation_throws (req_body req) = true ->
  exists e,
    validation_errors (req_body req) = Throw e /\
    serve uuid req products =
    (mkResponse 500 (JMessage (message e) None), products).
Proof.
  intros Hmeth Hm Hk Ht. unfold mutating_endpoint in Hm.
  destruct (validation_errors_throw _ Ht) as (e & V & He).
  exists e. split; [exact V|].
  assert (H500 : errorHandler e req = mkResponse 500 (JMessage (message e) None))
    by (destruct He as [-> | ->]; reflexivity).
  destruct Hmeth as [Hmeth|Hmeth]; rewrite Hmeth in Hm;
    rewrite serve_handle by (rewrite Hmeth; discriminate);
    [rewrite handle_post by exact Hmeth | rewrite handle_put by exact Hmeth];
    unfold id_pattern;
    match type of Hm with
    | match ?mp with Some _ => _ | None => _ end = _ =>
        destruct mp as [ps'|] eqn:E
    end; try discriminate Hm;
    cbn [run_chain];
    rewrite apiKeyMiddleware_accepts by exact Hk;
    rewrite validateProduct_spec;
    change (req_body (with_params req ps')) with (req_body req);
    rewrite V; cbn [finish]; now rewrite H500.
Qed.

Lemma filter_other_ids (products : store) (i : string) (p : Product) :
  In p (filter (fun p => negb (String.eqb (id p) i)) products) <->
  In p products /\ id p <> i.
Proof. now rewrite filter_In, negb_true_iff, String.eqb_neq. Qed.

Lemma filter_shorter {A} (f : A -> bool) (l : list A) (x : A) :
  In x l -> f x = false ->
  (List.length (filter f l) < List.length l)%nat.
Proof.
  induction l as [|y l IH]; intros Hx Fx; [contradiction|].
  cbn. destruct Hx as [->|Hx].
  - rewrite Fx. pose proof (filter_length_le f l). lia.
  - specialize (IH Hx Fx). destruct (f y); cbn; lia.
Qed.

(** X8. An authorized delete of an id some product has answers 204 and
    removes every product of that id and no other, in place; of an id no
    product has it answers 404 "Product not found" and leaves the store. *)
Theorem delete_removes_the_id
  (uuid : string) (req : request) (products : store) (i : string) :
  req_method req = DELETE -> req_path req = ["api"; "products"; i] ->
  i <> "" -> x_api_key req = Some "secret-api-key" ->
  ((exists p, In p products /\ id p = i) ->
     let products' := filter (fun p => negb (String.eqb (id p) i)) products in
     serve uuid req products = (mkResponse 204 Empty, products') /\
     (forall p, In p products' <-> In p products /\ id p <> i) /\
     (List.length products' < List.length products)%nat) /\
  ((forall p, In p products -> id p <> i) ->
     serve uuid req products =
     (mkResponse 404 (JMessage "Product not found" None), products)).
Proof.
  intros Hm Hp Hi Hk.
  pose proof (serve_delete uuid req products i Hm Hp Hi Hk) as E.
  unfold asyncHandler in E.
  destruct (delete_product_cases req products i) as [[Hex D]|[Hno D]];
    rewrite D in E; split.
  - intros _. cbv zeta. split; [exact E|]. split.
    + intros p. apply filter_other_ids.
    + destruct Hex as (p & Hin & Hid). apply (filter_shorter _ _ p Hin).
      apply negb_false_iff. now apply String.eqb_eq.
  - intros Hno. destruct Hex as (p & Hin & Hid). now contradiction (Hno p Hin).
  - intros (p & Hin & Hid). now contradiction (Hno p Hin).
  - intros _. exact E.
Qed.

(** *** Requests in sequence *)

Lemma serve_get_missing (uuid : string) (key : option string) (q : query)
  (b : body_fields) (ps : object string) (i : string) (products : store) :
  i <> "" -> (forall p, In p products -> id p <> i) ->
  serve uuid (mkRequest GET ["api"; "products"; i] key q b ps) products =
  (mkResponse 404 (JMessage "Product not found" None), products).
Proof.
  intros Hi H. rewrite serve_get_id by exact Hi.
  rewrite get_product_find, find_absent by exact H. reflexivity.
Qed.

Lemma serve_get_found (uuid : string) (key : option string) (q : query)
  (b : body_fields) (ps : object string) (i : string) (products : store)
  (p : Product) :
  i <> "" -> find (fun p => String.eqb (id p) i) products = Some p ->
  serve uuid (mkRequest GET ["api"; "products"; i] key q b ps) products =
  (mkResponse 200 (JProduct p), products).
Proof.
  intros Hi F. rewrite serve_get_id by exact Hi.
  rewrite get_product_find, F. reflexivity.
Qed.

(** X9. After an authorized delete of an id, whatever its answer, no
    product of the store has that id: a lookup of the id is answered 404,
    and so is a second delete, which changes nothing. *)
Theorem deleted_id_is_gone
  (uuid uuid' : string) (req : request) (products : store) (i : string)
  (key : option string) (q : query) (b : body_fields) (ps : object string) :
  req_method req = DELETE -> req_path req = ["api"; "products"; i] ->
  i <> "" -> x_api_key req = Some "secret-api-key" ->
  let products' := snd (serve uuid req products) in
  (forall p, In p products' -> id p <> i) /\
  serve uuid' (mkRequest GET ["api"; "products"; i] key q b ps) products' =
    (mkResponse 404 (JMessage "Product not found" None), products') /\
  serve uuid' req products' =
    (mkResponse 404 (JMessage "Product not found" None), products').
Proof.
  intros Hm Hp Hi Hk products'.
  assert (Gone : forall p, In p products' -> id p <> i).
  { subst products'. rewrite (serve_delete uuid req products i) by assumption.
    unfold asyncHandler.
    destruct (delete_product_cases req products i) as [[_ ->]|[Hno ->]];
      cbn [finish snd].
    - intros p Hin. now apply filter_other_ids in Hin.
    - exact Hno. }
  split; [exact Gone|]. split.
  - now apply serve_get_missing.
  - rewrite (serve_delete uuid' req products' i) by assumption.
    unfold asyncHandler.
    destruct (delete_product_cases req products' i)
      as [[(p & Hin & Hid) _]|[_ ->]]; [|reflexivity].
    now contradiction (Gone p Hin).
Qed.

Lemma find_last (products : store) (i : string) (x : Product) :
  (forall p, In p products -> id p <> i) -> id x = i ->
  find (fun p => String.eqb (id p) i) (products ++ [x]) = Some x.
Proof.
  intros H Hx. induction products as [|p products IH]; cbn.
  - now rewrite (proj2 (String.eqb_eq (id x) i)).
  - rewrite (proj2 (String.eqb_neq (id p) i)) by (apply H; now left).
    apply IH. intros p' Hp'. apply H. now right.
Qed.

(** X10. A product created under an id the store did not have can be
    fetched: after the create, the lookup of that id answers 200 with the
    record the create answered with. *)
Theorem created_product_can_be_fetched
  (uuid uuid' : string) (req : request) (products : store)
  (key : option string) (q : query) (b : body_fields) (ps : object string) :
  req_method req = POST -> req_path req = ["api"; "products"] ->
  x_api_key req = Some "secret-api-key" ->
  rejected_fields (req_body req) = [] ->
  uuid <> "" -> ~ In uuid (ids products) ->
  let new := created_record uuid (req_body req) in
  let products' := snd (serve uuid req products) in
  fst (serve uuid req products) = mkResponse 201 (JProduct new) /\
  serve uuid' (mkRequest GET ["api"; "products"; uuid] key q b ps) products' =
    (mkResponse 200 (JProduct new), products').
Proof.
  intros Hm Hp Hk Hv Hu Fresh new products'. subst products'.
  rewrite serve_post by assumption. unfold asyncHandler.
  rewrite post_product_valid by exact Hv. cbn [finish fst snd].
  split; [reflexivity|]. apply serve_get_found; [exact Hu|].
  apply find_last; [|reflexivity].
  intros p Hp' E. apply Fresh. rewrite <- E. now apply in_map.
Qed.

Lemma find_assign_at {A} (f : A -> bool) (l : list A) (n : nat) (x : A) :
  findIndex f l = Some n -> f x = true -> find f (assign_at l n x) = Some x.
Proof.
  revert n. induction l as [|y l IH]; intros n F Fx; [discriminate F|].
  cbn [findIndex] in F. destruct (f y) eqn:Fy.
  - injection F as <-. cbn. now rewrite Fx.
  - destruct (findIndex f l) as [k|] eqn:Fk; [|discriminate F].
    injection F as <-. cbn. rewrite Fy. now apply IH.
Qed.

(** X11. A product that was updated can be fetched: after an authorized
    update of an existing id with a valid payload, the lookup of the id
    answers 200 with the record the update answered with. *)
Theorem updated_product_can_be_fetched
  (uuid uuid' : string) (req : request) (products : store) (i : string)
  (key : option string) (q : query) (b : body_fields) (ps : object string) :
  req_method req = PUT -> req_path req = ["api"; "products"; i] -> i <> "" ->
  x_api_key req = Some "secret-api-key" ->
  rejected_fields (req_body req) = [] ->
  (exists p, In p products /\ id p = i) ->
  let products' := snd (serve uuid req products) in
  exists updated,
    fst (serve uuid req products) = mkResponse 200 (JProduct updated) /\
    id updated = i /\
    serve uuid' (mkRequest GET ["api"; "products"; i] key q b ps) products' =
      (mkResponse 200 (JProduct updated), products').
Proof.
  intros Hm Hp Hi Hk Hv (p & Hin & Hid) products'. subst products'.
  rewrite (serve_put uuid req products i) by assumption. unfold asyncHandler.
  destruct (put_product_cases req products i Hv)
    as [(n & old & Hn & Hold & F & ->)|[Hno _]];
    [|now contradiction (Hno p Hin)].
  cbn [finish fst snd]. exists (updated_record old (req_body req)).
  split; [reflexivity|]. split; [exact Hold|].
  apply serve_get_found; [exact Hi|].
  apply find_assign_at; [exact F|]. cbn. now apply String.eqb_eq.
Qed.

(** *** More on the listing *)

Lemma get_products_inv (req : request) (products : store) (r : response)
  (products' : store) :
  get_products req products = Ok (r, products') ->
  exists kept,
    kept_by (req_query req) products = Ok kept /\
    r = page_of (req_query req) kept /\ products' = products.
Proof.
  rewrite get_products_split.
  destruct (kept_by _ products) as [kept|e]; [|discriminate].
  rewrite bind_Ok. intros H. injection H as <- <-. now exists kept.
Qed.

Lemma filter_r_sub {A} (f : A -> result bool) (l r : list A) :
  filter_r f l = Ok r ->
  (List.length r <= List.length l)%nat /\ (forall x, In x r -> In x l).
Proof.
  revert r. induction l as [|x l IH]; intros r H.
  - injection H as <-. now split.
  - cbn [filter_r] in H. destruct (f x) as [keep|e]; [|discriminate H].
    rewrite bind_Ok in H. destruct (filter_r f l) as [r'|e]; [|discriminate H].
    rewrite bind_Ok in H. injection H as <-.
    destruct (IH r' eq_refl) as [L I].
    destruct keep; cbn; split; try lia.
    + intros y [->|Hy]; [now left | right; now apply I].
    + intros y Hy. right. now apply I.
Qed.

Lemma kept_by_sub (q : query) (products kept : store) :
  kept_by q products = Ok kept ->
  (List.length kept <= List.length products)%nat /\
  (forall p, In p kept -> In p products).
Proof.
  unfold kept_by.
  destruct (if truthy (qvalue (query_category q)) then _ else _)
    as [r1|e1] eqn:S1; [|discriminate].
  rewrite bind_Ok. intros S2.
  assert (H1 : (List.length r1 <= List.length products)%nat /\
               (forall p, In p r1 -> In p products)).
  { destruct (truthy (qvalue (query_category q))).
    - now apply filter_r_sub in S1.
    - injection S1 as <-. now split. }
  assert (H2 : (List.length kept <= List.length r1)%nat /\
               (forall p, In p kept -> In p r1)).
  { destruct (truthy (qvalue (query_search q))).
    - revert S2.
      destruct (call_toLowerCase "req.query.search" (qvalue (query_search q)))
        as [t|e]; cbn [bind]; [|discriminate].
      intros S2. now apply filter_r_sub in S2.
    - injection S2 as <-. now split. }
  destruct H1 as [L1 I1], H2 as [L2 I2]. split; [lia | auto].
Qed.

Lemma slice_sub {A} (l : list A) (lo hi : Z) :
  (List.length (slice l lo hi) <= List.length l)%nat /\
  (forall x, In x (slice l lo hi) -> In x l).
Proof.
  unfold slice. split.
  - rewrite length_firstn, length_skipn. lia.
  - intros x Hx.
    rewrite <- (firstn_skipn (Z.to_nat (relative_index (Z.of_nat (List.length l)) lo)) l).
    apply in_or_app. right.
    match type of Hx with
    | In x (firstn ?n ?m) => rewrite <- (firstn_skipn n m)
    end.
    apply in_or_app. now left.
Qed.

Lemma parseInt_or_nonzero (q : qparam) (d : Z) :
  d <> 0%Z -> parseInt_or q d <> 0%Z.
Proof.
  intros Hd. unfold parseInt_or.
  destruct (match q with QAbsent => _ | QStr s | QOther s => _ end) as [z|];
    [|exact Hd].
  destruct (Z.eqb_spec z 0); [exact Hd | assumption].
Qed.

(** X13. With [category] and [search] absent or empty the listing answers
    on any store, whatever its records hold: [total] is the size of the
    store and [data] a slice of it; with [page] and [limit] absent too,
    [data] is the first ten products. *)
Theorem listing_without_filters (req : request) (products : store) :
  let q := req_query req in
  truthy (qvalue (query_category q)) = false ->
  truthy (qvalue (query_search q)) = false ->
  let page := parseInt_or (query_page q) 1 in
  let limit := parseInt_or (query_limit q) 10 in
  get_products req products =
    Ok (mkResponse 200
          (JPage (List.length products) page limit
             (slice products ((page - 1) * limit) (page * limit))),
        products) /\
  (query_page q = QAbsent -> query_limit q = QAbsent ->
     slice products ((page - 1) * limit) (page * limit) = firstn 10 products).
Proof.
  intros q Hc Hs page limit. split.
  - rewrite get_products_split. unfold kept_by. fold q. rewrite Hc, Hs.
    reflexivity.
  - intros Hp Hl. subst page limit. rewrite Hp, Hl.
    change (parseInt_or QAbsent 1) with 1%Z.
    change (parseInt_or QAbsent 10) with 10%Z.
    rewrite slice_window by lia. unfold window.
    now rewrite window_from_firstn_skipn.
Qed.

(** X14. Whenever the listing answers, on any store and for any
    parameters, the store is left as it was, the status is 200, [total] is
    at most the size of the store, [data] has at most [total] products, all
    of them products of the store, and neither [page] nor [limit] is 0. *)
Theorem listing_answer_is_sound (req : request) (products : store)
  (r : response) (products' : store) :
  get_products req products = Ok (r, products') ->
  products' = products /\
  exists total page limit data,
    r = mkResponse 200 (JPage total page limit data) /\
    (total <= List.length products)%nat /\
    (List.length data <= total)%nat /\
    (forall p, In p data -> In p products) /\
    page <> 0%Z /\ limit <> 0%Z.
Proof.
  intros H. apply get_products_inv in H as (kept & K & -> & ->).
  split; [reflexivity|]. apply kept_by_sub in K as [L I].
  unfold page_of. do 4 eexists. split; [reflexivity|].
  split; [exact L|]. split; [apply slice_sub|]. split.
  - intros p Hp. apply I. now apply slice_sub in Hp.
  - split; apply parseInt_or_nonzero; discriminate.
Qed.

(** X15. On a store of textual products, with filters that are plain
    strings, every product of [data] has the category asked for (when the
    parameter is not empty) and a name containing the search term, letter
    case aside. *)
Theorem listing_returns_only_matches (req : request) (products : store) :
  let q := req_query req in
  Forall textual products ->
  plain_param (query_category q) -> plain_param (query_search q) ->
  exists total page limit data,
    get_products req products =
      Ok (mkResponse 200 (JPage total page limit data), products) /\
    forall p, In p data ->
      In p products /\
      (forall c, query_category q = QStr c -> c <> "" -> category_is c p = true) /\
      (forall t, query_search q = QStr t -> name_contains t p = true).
Proof.
  intros q T Pc Ps. do 4 eexists.
  split; [exact (get_products_ok req products T Pc Ps)|].
  intros p Hp. apply slice_sub in Hp. unfold filtered in Hp. fold q in Hp.
  assert (K : forall l, In p (keep_if_present (query_search q) name_contains l) ->
            In p l /\
            (forall t, query_search q = QStr t -> name_contains t p = true)).
  { intros l Hl. destruct (query_search q) as [|t|o]; cbn in Hl.
    - split; [exact Hl | discriminate].
    - apply filter_In in Hl as [Hl M]. split; [exact Hl|].
      intros t' E. now injection E as <-.
    - split; [exact Hl | discriminate]. }
  apply K in Hp as [Hp Hs]. split; [|split; [|exact Hs]].
  - destruct (query_category q) as [|c|o]; cbn in Hp; try exact Hp.
    destruct (String.eqb c ""); [exact Hp|]. now apply filter_In in Hp.
  - intros c E Hc. rewrite E in Hp. cbn in Hp.
    rewrite (proj2 (String.eqb_neq c "")) in Hp by exact Hc.
    now apply filter_In in Hp.
Qed.

Lemma slice_firstn_skipn {A} (l : list A) (lo hi : Z) :
  (0 <= lo <= hi)%Z ->
  slice l lo hi = firstn (Z.to_nat (hi - lo)) (skipn (Z.to_nat lo) l).
Proof.
  intros H. rewrite slice_window by lia. unfold window.
  rewrite window_from_firstn_skipn. rewrite Z.sub_0_r.
  now replace (Z.max lo 0) with lo by lia.
Qed.

Lemma firstn_split {A} (m : list A) (x y : nat) :
  firstn x m ++ firstn y (skipn x m) = firstn (x + y) m.
Proof.
  revert m. induction x as [|x IH]; intros m; [reflexivity|].
  destruct m as [|a m]; cbn.
  - now rewrite firstn_nil.
  - now rewrite IH.
Qed.

Lemma slice_append {A} (l : list A) (a b c : Z) :
  (0 <= a <= b)%Z -> (b <= c)%Z ->
  slice l a b ++ slice l b c = slice l a c.
Proof.
  intros Hab Hbc. rewrite !slice_firstn_skipn by lia.
  replace (Z.to_nat b) with (Z.to_nat (b - a) + Z.to_nat a)%nat by lia.
  rewrite <- skipn_skipn.
  replace (Z.to_nat (c - a)) with (Z.to_nat (b - a) + Z.to_nat (c - b))%nat
    by lia.
  apply firstn_split.
Qed.

(** X16. When the listing answers with [page] and [limit] at least 1, [data]
    has at most [limit] products, exactly [limit] when the page ends within
    the filtered sequence, and none when it starts at or past its end. *)
Theorem page_holds_at_most_limit (req : request) (products products' : store)
  (total : nat) (page limit : Z) (data : list Product) :
  get_products req products =
    Ok (mkResponse 200 (JPage total page limit data), products') ->
  (1 <= page)%Z -> (1 <= limit)%Z ->
  (Z.of_nat (List.length data) <= limit)%Z /\
  ((page * limit <= Z.of_nat total)%Z -> Z.of_nat (List.length data) = limit) /\
  ((Z.of_nat total <= (page - 1) * limit)%Z -> data = []).
Proof.
  intros H Hp Hl. apply get_products_inv in H as (kept & _ & E & _).
  unfold page_of in E. injection E as -> -> -> ->.
  set (page := parseInt_or (query_page (req_query req)) 1) in *.
  set (limit := parseInt_or (query_limit (req_query req)) 10) in *.
  split; [|split].
  - rewrite slice_firstn_skipn by nia. rewrite length_firstn, length_skipn. nia.
  - intros Hin. rewrite slice_firstn_skipn by nia.
    rewrite length_firstn, length_skipn. nia.
  - intros Hout. apply slice_beyond; nia.
Qed.

Lemma kept_by_ext (q1 q2 : query) (products : store) :
  query_category q1 = query_category q2 ->
  query_search q1 = query_search q2 ->
  kept_by q1 products = kept_by q2 products.
Proof. intros Hc Hs. unfold kept_by. now rewrite Hc, Hs. Qed.

(** X17. Two listings of the same store with the same filters and the same
    [limit], for the pages [p] and [p+1], carry the same [total], and their
    [data] one after the other are the products with positions
    [(p-1)*limit] up to [(p+1)*limit] of the filtered sequence: consecutive
    pages neither overlap nor leave a gap. *)
Theorem consecutive_pages_tile (req1 req2 : request) (products st1 st2 : store)
  (total1 total2 : nat) (p limit : Z) (data1 data2 : list Product) :
  query_category (req_query req1) = query_category (req_query req2) ->
  query_search (req_query req1) = query_search (req_query req2) ->
  get_products req1 products =
    Ok (mkResponse 200 (JPage total1 p limit data1), st1) ->
  get_products req2 products =
    Ok (mkResponse 200 (JPage total2 (p + 1) limit data2), st2) ->
  (1 <= p)%Z -> (1 <= limit)%Z ->
  total1 = total2 /\
  exists kept,
    kept_by (req_query req1) products = Ok kept /\
    List.length kept = total1 /\
    data1 ++ data2 = window kept ((p - 1) * limit) ((p + 1) * limit).
Proof.
  intros Hc Hs H1 H2 Hp Hl.
  apply get_products_inv in H1 as (kept & K1 & E1 & _).
  apply get_products_inv in H2 as (kept' & K2 & E2 & _).
  rewrite <- (kept_by_ext _ _ products Hc Hs), K1 in K2. injection K2 as <-.
  unfold page_of in E1, E2.
  injection E1 as T1 P1 L1 D1. injection E2 as T2 P2 L2 D2.
  split; [congruence|]. exists kept. split; [exact K1|]. split; [now symmetry|].
  rewrite <- P1, <- L1 in D1. rewrite <- P2, <- L2 in D2. rewrite D1, D2.
  replace (p + 1 - 1)%Z with p by lia.
  rewrite slice_append by nia. apply slice_window; nia.
Qed.

Lemma toLowerCase_empty (s : string) :
  String.eqb (toLowerCase s) "" = String.eqb s "".
Proof. destruct s; reflexivity. Qed.

Lemma truthy_toLowerCase (c1 c2 : string) :
  toLowerCase c1 = toLowerCase c2 -> truthy (VStr c1) = truthy (VStr c2).
Proof.
  intros H. cbn. now rewrite <- (toLowerCase_empty c1), H, toLowerCase_empty.
Qed.

(** X18. The letter case of the [category] and [search] parameters does not
    matter: two listings whose parameters differ only there give the same
    answer, or fail with the same error, on every store. *)
Theorem filter_parameters_ignore_case
  (req1 req2 : request) (products : store) (c1 c2 t1 t2 : string) :
  query_category (req_query req1) = QStr c1 ->
  query_category (req_query req2) = QStr c2 ->
  toLowerCase c1 = toLowerCase c2 ->
  query_search (req_query req1) = QStr t1 ->
  query_search (req_query req2) = QStr t2 ->
  toLowerCase t1 = toLowerCase t2 ->
  query_page (req_query req1) = query_page (req_query req2) ->
  query_limit (req_query req1) = query_limit (req_query req2) ->
  get_products req1 products = get_products req2 products.
Proof.
  intros C1 C2 Hc T1 T2 Ht Hp Hl. rewrite !get_products_split.
  assert (K : kept_by (req_query req1) products =
              kept_by (req_query req2) products).
  { unfold kept_by. rewrite C1, C2, T1, T2. cbn [qvalue].
    rewrite (truthy_toLowerCase c1 c2 Hc), (truthy_toLowerCase t1 t2 Ht).
    cbn [call_toLowerCase]. now rewrite Hc, Ht. }
  rewrite K. unfold page_of. now rewrite Hp, Hl.
Qed.

(** *** More on validation, statistics and routing *)

(** X19. For a payload whose other fields are valid and whose price is a
    number, validation passes exactly when the number is above zero
    (infinity included), and the record created then carries that number as
    its price. *)
Theorem numeric_price_accepted_iff_positive
  (uuid : string) (b : body_fields) (n : num) :
  other_fields_valid b -> body_price b = VNum n ->
  (rejected_fields b = [] <-> positive n) /\
  price (created_record uuid b) = VNum n.
Proof.
  intros (Hn & Hd & Hc & f & Hf) Hp.
  split; [|cbn; unfold parsed_price; now rewrite Hp].
  unfold rejected_fields, name_rejected, description_rejected, price_rejected,
    category_rejected, inStock_rejected, positive.
  rewrite Hn, Hd, Hc, Hf, Hp.
  cbn [ToNumber truthy negb List.app].
  destruct n as [| | |q]; cbn [num_falsy is_nan num_le negb orb].
  - split; [discriminate | intros [H|(q & H & _)]; discriminate H].
  - split; [now left | reflexivity].
  - split; [discriminate | intros [H|(q & H & _)]; discriminate H].
  - destruct (Qeq_bool q 0) eqn:Z0; cbn [negb orb].
    + split; [discriminate|]. intros [H|(q' & H & Hq)]; [discriminate H|].
      injection H as <-. apply Qeq_bool_iff in Z0. rewrite Z0 in Hq.
      now apply Qlt_irrefl in Hq.
    + destruct (Qle_bool q 0) eqn:L.
      * split; [discriminate|]. intros [H|(q' & H & Hq)]; [discriminate H|].
        injection H as <-. apply Qle_bool_iff in L. exfalso.
        now apply (Qlt_irrefl 0), Qlt_le_trans with q.
      * split; [|reflexivity]. intros _. right. exists q. split; [reflexivity|].
        apply Qnot_le_lt. intros Hle. apply Qle_bool_iff in Hle. congruence.
Qed.

Lemma one_hit (k : string) (l : list string) :
  NoDup l -> In k l ->
  list_sum (map (fun k' => if String.eqb k' k then 1 else 0)%nat l) = 1%nat.
Proof.
  unfold list_sum. induction 1 as [|a l N ND IH]; intros I; [contradiction|].
  cbn. destruct I as [->|I].
  - rewrite String.eqb_refl. f_equal.
    clear IH ND. induction l as [|x l IH]; [reflexivity|].
    cbn. rewrite (proj2 (String.eqb_neq x k)).
    + apply IH. intros H. apply N. now right.
    + intros ->. apply N. now left.
  - rewrite (proj2 (String.eqb_neq a k)) by (intros ->; contradiction).
    now apply IH.
Qed.

Lemma list_sum_map_add {A} (g h : A -> nat) (l : list A) :
  list_sum (map (fun x => g x + h x)%nat l) =
  (list_sum (map g l) + list_sum (map h l))%nat.
Proof.
  unfold list_sum. induction l as [|x l IH]; cbn; [reflexivity | rewrite IH; lia].
Qed.

Lemma list_sum_map_ext {A} (g h : A -> nat) (l : list A) :
  (forall x, In x l -> g x = h x) -> list_sum (map g l) = list_sum (map h l).
Proof.
  unfold list_sum. induction l as [|x l IH]; intros H; cbn; [reflexivity|].
  rewrite (H x) by now left. f_equal. apply IH. intros y Hy. apply H. now right.
Qed.

Lemma occurrences_sum (ks : list string) :
  list_sum (map (fun k => occurrences k ks) (first_seen ks)) = List.length ks.
Proof.
  induction ks as [|k ks IH] using rev_ind; [reflexivity|].
  rewrite length_app. cbn [List.length].
  destruct (in_dec string_dec k ks) as [I|I].
  - rewrite first_seen_snoc_old by exact I.
    rewrite (list_sum_map_ext _
               (fun k' => occurrences k' ks + if String.eqb k' k then 1 else 0)%nat)
      by (intros; apply occurrences_snoc).
    rewrite list_sum_map_add, IH. f_equal.
    apply one_hit; [apply NoDup_first_seen | now apply In_first_seen].
  - rewrite first_seen_snoc_new by exact I.
    rewrite map_app, list_sum_app. cbn [map list_sum].
    rewrite occurrences_snoc, String.eqb_refl, (occurrences_absent k ks I).
    rewrite (list_sum_map_ext _ (fun k' => occurrences k' ks)).
    + rewrite IH. cbn. lia.
    + intros k' Hk'. rewrite occurrences_snoc.
      rewrite (proj2 (String.eqb_neq k' k)); [lia|].
      intros ->. apply I. now apply In_first_seen.
Qed.

Lemma map_r_length {A B} (f : A -> result B) (l : list A) (r : list B) :
  map_r f l = Ok r -> List.length r = List.length l.
Proof.
  revert r. induction l as [|x l IH]; intros r H.
  - now injection H as <-.
  - cbn [map_r] in H. destruct (f x) as [y|e]; [|discriminate H].
    cbn [bind] in H. destruct (map_r f l) as [ys|e]; [|discriminate H].
    injection H as <-. cbn. f_equal. now apply IH.
Qed.

(** X20. On a store whose prices are numbers and whose categories convert
    to keys, the aggregation returns, and when the category keys are
    ordinary the counts of the category object add up to [totalProducts]:
    every product is counted under exactly one category. *)
Theorem category_counts_add_up
  (products : store) (ns : list num) (ks : list string) :
  map price products = map VNum ns ->
  category_keys products = Ok ks ->
  Forall ordinary_key ks ->
  exists s (counts : list nat),
    stats products = Ok s /\
    map snd (Stats.categories s) = map of_nat counts /\
    list_sum counts = Stats.totalProducts s.
Proof.
  intros Hp Hk H. eexists.
  exists (map (fun k => occurrences k ks) (first_seen ks)).
  split; [exact (stats_returns products ns ks Hp Hk)|].
  cbn [Stats.categories Stats.totalProducts]. split.
  - rewrite categories_histogram by exact H.
    unfold histogram. now rewrite !map_map.
  - rewrite occurrences_sum. exact (map_r_length _ products ks Hk).
Qed.

Lemma stats_path_shape (path : list string) (ps : object string) :
  match_path stats_pattern path = Some ps ->
  exists i,
    toLowerCase i = "stats" /\
    match_path [] path = None /\
    match_path [Lit "api"; Lit "products"] path = None /\
    match_path id_pattern path = Some [("id", i)].
Proof.
  unfold stats_pattern, id_pattern.
  destruct path as [|a [|b [|i r]]]; cbn [match_path]; try discriminate;
    destruct (String.eqb _ (toLowerCase a)); try discriminate;
    destruct (String.eqb _ (toLowerCase b)); try discriminate.
  destruct (String.eqb_spec (toLowerCase "stats") (toLowerCase i)) as [E|_];
    [|discriminate].
  assert (N : String.eqb i "" = false)
    by (destruct (String.eqb_spec i "") as [->|_];
        [discriminate E | reflexivity]).
  rewrite N. intros H. exists i. split; [now symmetry|].
  split; [reflexivity|].
  destruct r as [|d [|e r]]; try discriminate H.
  - now repeat split.
  - destruct (String.eqb d ""); [|discriminate H]. now repeat split.
Qed.

(** X21. A GET request whose path matches the statistics route, in any
    letter case, is answered by the lookup of its last segment as an id: 200
    with the first product of that id, 404 "Product not found" when there
    is none. *)
Theorem statistics_requests_are_id_lookups
  (uuid : string) (req : request) (products : store) (ps : object string) :
  req_method req = GET ->
  match_path stats_pattern (req_path req) = Some ps ->
  exists i,
    toLowerCase i = "stats" /\
    serve uuid req products =
    match find (fun p => String.eqb (id p) i) products with
    | Some p => (mkResponse 200 (JProduct p), products)
    | None => (mkResponse 404 (JMessage "Product not found" None), products)
    end.
Proof.
  intros Hm Hs. destruct (stats_path_shape _ _ Hs) as (i & Hi & E0 & E1 & E).
  exists i. split; [exact Hi|].
  rewrite serve_handle by (rewrite Hm; discriminate).
  rewrite handle_get by now left.
  rewrite E0, E1, E, get_product_find.
  destruct (find _ products); reflexivity.
Qed.

(** X22. No request is answered with the statistics record: the statistics
    handler is never run. *)
Theorem no_request_reaches_the_statistics
  (uuid : string) (req : request) (products : store) (s : Stats.t) :
  fst (serve uuid req products) <> mkResponse 200 (JStats s).
Proof.
  intros H. apply (statistics_never_served uuid req products s).
  now rewrite H.
Qed.

(** *** Sequences of requests *)

Lemma serve_ids_incl (uuid : string) (req : request) (products : store)
  (i : string) :
  In i (ids (snd (serve uuid req products))) -> i = uuid \/ In i (ids products).
Proof.
  pose proof (serve_store_change uuid req products) as C.
  remember (fst (serve uuid req products)) as r.
  remember (snd (serve uuid req products)) as st.
  destruct C as [r|_ _ _|j n old _ _ _ _ Hn Hid|j _ _ _ _]; intros Hin.
  - now right.
  - unfold ids in Hin. rewrite map_app in Hin.
    apply in_app_or in Hin as [Hin|[Hin|[]]]; [now right | now left].
  - right. now rewrite (ids_assign_at products n old) in Hin.
  - right. unfold ids in *. apply in_map_iff in Hin as (p & E & Hp).
    apply filter_In in Hp as [Hp _]. apply in_map_iff. now exists p.
Qed.

(** X23. Every store reached from the two initial products by a sequence
    of requests holds only records with a truthy name, description and
    category and a boolean [inStock]. *)
Theorem reachable_stores_are_well_formed
  (id1 id2 : string) (requests : list (string * request)) :
  Forall well_formed (serve_all requests (initial_products id1 id2)).
Proof.
  unfold serve_all.
  assert (W : Forall well_formed (initial_products id1 id2)).
  { repeat constructor; now exists true. }
  revert W. generalize (initial_products id1 id2) as st.
  induction requests as [|[u r] requests IH]; intros st W; [exact W|].
  cbn [fold_left fst snd]. apply IH. now apply serve_keeps_well_formed.
Qed.

(** X24. When the ids [uuidv4()] returns are distinct from one another and
    from the ids of the store, the ids of the store are pairwise distinct
    after any sequence of requests. *)
Theorem reachable_stores_have_distinct_ids
  (requests : list (string * request)) (products : store) :
  NoDup (ids products ++ map fst requests) ->
  NoDup (ids (serve_all requests products)).
Proof.
  unfold serve_all. revert products.
  induction requests as [|[u r] requests IH]; intros st ND.
  - cbn in ND |- *. now rewrite app_nil_r in ND.
  - cbn [fold_left fst snd]. cbn [map fst] in ND. apply IH.
    pose proof (NoDup_app_remove_r _ _ ND) as NDst.
    pose proof (NoDup_app_remove_l _ _ ND) as NDus.
    apply NoDup_cons_iff in NDus as [Nu NDus].
    assert (Fresh : ~ In u (ids st)).
    { intros I. apply NoDup_remove_2 in ND. apply ND.
      apply in_or_app. now left. }
    apply NoDup_app; [now apply serve_keeps_ids_distinct | exact NDus |].
    intros i Hi Hi'. apply serve_ids_incl in Hi as [->|Hi]; [contradiction|].
    apply NoDup_remove_1 in ND.
    revert i Hi Hi'. clear -ND. intros i Hi Hi'.
    induction (ids st) as [|x l IHl]; [contradiction|].
    cbn in ND. apply NoDup_cons_iff in ND as [N ND].
    destruct Hi as [->|Hi]; [|now apply IHl].
    apply N. apply in_or_app. now right.
Qed.

End Server.

(** ** Examples and counterexamples *)

(** C3 fails as stated: the [TypeError] of a failed method call is not one
    of the recognized kinds, and the answer carries its message. *)
Lemma type_error_message_is_surfaced :
  ~ answered_generically
      (TypeError "p.category.toLowerCase is not a function").
Proof.
  intros H.
  specialize (H (mkRequest GET ["api"; "products"] None no_query no_body [])).
  discriminate H.
Qed.

(** C9 fails as stated: with the categories ["b"] then ["1"] the key ["1"],
    an array index, is enumerated first. *)
Lemma index_like_category_comes_first :
  let products :=
    [mkProduct "p-1" (VStr "Pen") (VStr "A pen") (VNum (Fin 2)) (VStr "b")
       (VBool true);
     mkProduct "p-2" (VStr "Ink") (VStr "Some ink") (VNum (Fin 3)) (VStr "1")
       (VBool true)] in
  ~ aggregated_as_specified toString_integral products.
Proof.
  intros products (s & Hs & _ & _ & _ & _ & (ks & Hk & Hc) & _).
  vm_compute in Hs. injection Hs as <-.
  vm_compute in Hk. injection Hk as <-.
  vm_compute in Hc. discriminate Hc.
Qed.


(** C7 at a create request without key. *)
Lemma unauthorized_request_witness :
  let req :=
    mkRequest POST ["api"; "products"] None no_query
      (sample_payload (VNum (Fin 10))) [] in
  mutating_endpoint req = true /\
  x_api_key req <> Some "secret-api-key" /\
  serve toString_integral "p-3" req sample_store = (unauthorized, sample_store).
Proof.
  intros req.
  assert (H1 : mutating_endpoint req = true) by reflexivity.
  assert (H2 : x_api_key req <> Some "secret-api-key") by discriminate.
  split; [exact H1|]. split; [exact H2|].
  exact (proj1 (unauthorized_request_is_rejected toString_integral "p-3" req
                  sample_store H1 H2)).
Defined.


(** C4 at [?category=Electronics&search=lap] on the initial store. *)
Lemma listing_witness :
  let req :=
    mkRequest GET ["api"; "products"] None
      (mkQuery (QStr "Electronics") (QStr "lap") QAbsent QAbsent) no_body [] in
  Forall textual sample_store /\
  get_products req sample_store =
  Ok (mkResponse 200 (JPage 1 1 10 (firstn 1 sample_store)), sample_store).
Proof.
  intros req.
  assert (T : Forall textual sample_store).
  { repeat constructor; eexists; reflexivity. }
  split; [exact T|].
  exact (listing_filters_then_counts req sample_store T I I).
Defined.

(** C5 at [?limit=1&page=2] and at [?limit=-1] on the initial store. *)
Lemma pagination_witness :
  let req page limit :=
    mkRequest GET ["api"; "products"] None
      (mkQuery QAbsent QAbsent page limit) no_body [] in
  kept_by (req_query (req (QStr "2") (QStr "1"))) sample_store =
    Ok sample_store /\
  (exists data,
     get_products (req (QStr "2") (QStr "1")) sample_store =
     Ok (mkResponse 200 (JPage 2 2 1 data), sample_store) /\
     data = window sample_store 1 2) /\
  (exists data,
     get_products (req QAbsent (QStr "-1")) sample_store =
     Ok (mkResponse 200 (JPage 2 1 (-1) data), sample_store) /\
     data = window sample_store 0 1).
Proof.
  intros req.
  destruct (pagination_is_total (req (QStr "2") (QStr "1")) sample_store)
    as (_ & _ & _ & _ & _ & Off & _ & Page).
  pose proof (Off eq_refl eq_refl) as K.
  split; [exact K|]. split.
  - destruct (Page sample_store K) as (data & E & _ & W & _).
    exists data. split; [exact E|]. apply W; vm_compute; discriminate.
  - destruct (pagination_is_total (req QAbsent (QStr "-1")) sample_store)
      as (_ & _ & _ & _ & _ & Off' & _ & Page').
    destruct (Page' sample_store (Off' eq_refl eq_refl)) as (data & E & W & _).
    exists data. split; [exact E | exact W].
Defined.

(** C8 at an update of the first initial product, and of an unknown id. *)
Lemma update_witness :
  let b := sample_payload (VNum (Fin 10)) in
  let req i :=
    mkRequest PUT ["api"; "products"; i] (Some "secret-api-key") no_query b [] in
  let updated :=
    mkProduct "p-1" (VStr "Tablet") (VStr "A tablet") (VNum (Fin 10))
      (VStr "Electronics") (VBool false) in
  rejected_fields b = [] /\
  (exists p, In p sample_store /\ id p = "p-1") /\
  serve toString_integral "p-3" (req "p-1") sample_store =
    (mkResponse 200 (JProduct updated),
     updated :: skipn 1 sample_store) /\
  serve toString_integral "p-3" (req "p-9") sample_store =
    (mkResponse 404 (JMessage "Product not found" None), sample_store).
Proof.
  intros b req updated.
  assert (V : rejected_fields b = []) by reflexivity.
  assert (Ex : exists p, In p sample_store /\ id p = "p-1").
  { eexists. split; [left; reflexivity | reflexivity]. }
  split; [exact V|]. split; [exact Ex|]. split.
  - destruct (update_replaces_one_record toString_integral "p-3" (req "p-1")
                sample_store "p-1" eq_refl eq_refl) as [Found _];
      [discriminate | reflexivity | exact V |].
    destruct (Found Ex) as (n & old & Hn & Hid & E & _).
    destruct n as [|[|[|n]]]; cbn in Hn; try discriminate Hn;
      injection Hn as <-; try discriminate Hid.
    exact E.
  - destruct (update_replaces_one_record toString_integral "p-3" (req "p-9")
                sample_store "p-9" eq_refl eq_refl) as [_ Missing];
      [discriminate | reflexivity | exact V |].
    apply Missing. intros p [<-|[<-|[]]]; discriminate.
Defined.

(** C10 at the price ["10.5"], in a create and in an update of the first
    initial product, and at the store after both. *)
Lemma numeric_string_witness :
  let b := sample_payload (VStr "10.5") in
  let create := authorized POST ["api"; "products"] b in
  let update := authorized PUT ["api"; "products"; "p-1"] b in
  positive (StringToNumber "10.5") /\
  other_fields_valid b /\
  (exists new,
     serve toString_integral "p-3" create sample_store =
       (mkResponse 201 (JProduct new), sample_store ++ [new]) /\
     price new = VNum (Fin (21 # 2)) /\ typeof (price new) = "number") /\
  (exists n old updated,
     nth_error sample_store n = Some old /\ id old = "p-1" /\
     serve toString_integral "p-3" update sample_store =
       (mkResponse 200 (JProduct updated), assign_at sample_store n updated) /\
     price updated = VNum (Fin (21 # 2)) /\ typeof (price updated) = "number") /\
  Forall number_priced
    (serve_all toString_integral [("p-3", create); ("p-4", update)]
       (initial_products "p-1" "p-2")).
Proof.
  intros b create update.
  assert (P : positive (StringToNumber "10.5")).
  { right. exists (21 # 2). split; reflexivity. }
  assert (V : other_fields_valid b).
  { repeat split. now exists false. }
  assert (Ex : exists p, In p sample_store /\ id p = "p-1").
  { eexists. split; [left; reflexivity | reflexivity]. }
  destruct (numeric_string_price_is_stored_as_number toString_integral)
    as (Stored & _ & Reached).
  split; [exact P|]. split; [exact V|]. split; [|split].
  - exact (proj1 (Stored "p-3" create sample_store "10.5" eq_refl eq_refl P V)
             eq_refl eq_refl).
  - refine (proj2 (Stored "p-3" update sample_store "10.5" eq_refl eq_refl P V)
              "p-1" eq_refl eq_refl _ Ex).
    discriminate.
  - exact (Reached "p-1" "p-2" [("p-3", create); ("p-4", update)]).
Defined.

(** C9 at a store of three products in two categories, one of them an
    array index, with prices whose sum and mean are exact. *)
Lemma statistics_witness :
  let products :=
    [mkProduct "p-1" (VStr "Pen") (VStr "A pen") (VNum (Fin (3 # 2)))
       (VStr "b") (VBool true);
     mkProduct "p-2" (VStr "Ink") (VStr "Some ink") (VNum (Fin (5 # 2)))
       (VStr "1") (VBool false);
     mkProduct "p-3" (VStr "Pad") (VStr "A pad") (VNum (Fin 2))
       (VStr "b") (VBool true)] in
  let ns := [Fin (3 # 2); Fin (5 # 2); Fin 2] in
  let ks := ["b"; "1"; "b"] in
  map price products = map VNum ns /\
  category_keys toString_integral products = Ok ks /\
  Forall (fun k => inherited k = false) ks /\
  averages_exactly ns /\
  exists s,
    stats toString_integral products = Ok s /\
    Stats.totalProducts s = 3%nat /\
    Stats.inStock s = 2%nat /\
    Stats.outOfStock s = 1%nat /\
    enumerates ks (keys (Stats.categories s)) /\
    get_own (Stats.categories s) "b" = Some (Fin 2) /\
    get_own (Stats.categories s) "1" = Some (Fin 1) /\
    num_equiv (Stats.averagePrice s) (Fin 2).
Proof.
  intros products ns ks.
  assert (Hp : map price products = map VNum ns) by reflexivity.
  assert (Hk : category_keys toString_integral products = Ok ks)
    by reflexivity.
  assert (Hi : Forall (fun k => inherited k = false) ks)
    by (repeat constructor).
  assert (Hx : averages_exactly ns).
  { vm_compute. repeat split. }
  split; [exact Hp|]. split; [exact Hk|]. split; [exact Hi|].
  split; [exact Hx|].
  destruct (statistics_of_a_snapshot toString_integral products ns ks Hp Hk)
    as (s & Hs & T & In_ & Out & _ & Cat & _ & Avg & _).
  destruct (Cat Hi) as (En & Counts & _).
  exists s. split; [exact Hs|]. split; [exact T|]. split; [exact In_|].
  split; [exact Out|]. split; [exact En|].
  split; [exact (proj1 (Counts "b" (or_introl eq_refl)))|].
  split; [exact (proj1 (Counts "1" (or_intror (or_introl eq_refl))))|].
  exact (Avg Hx).
Defined.

(** ** Examples of the further properties *)

(** X2 at a delete without key, answered 401. *)
Lemma failure_keeps_store_witness :
  let req := anonymous DELETE ["api"; "products"; "p-1"] in
  (req_method req = GET \/
   (400 <= status (fst (serve toString_integral "p-3" req sample_store)))%Z) /\
  snd (serve toString_integral "p-3" req sample_store) = sample_store.
Proof.
  intros req.
  assert (H : req_method req = GET \/
              (400 <= status (fst (serve toString_integral "p-3" req
                                     sample_store)))%Z).
  { right. vm_compute. discriminate. }
  split; [exact H|].
  exact (reads_and_failures_keep_the_store toString_integral "p-3" req
           sample_store H).
Defined.

(** X3 at a create on the initial store. *)
Lemma distinct_ids_witness :
  let req := authorized POST ["api"; "products"] (sample_payload (VNum (Fin 10))) in
  NoDup (ids sample_store) /\ ~ In "p-3" (ids sample_store) /\
  NoDup (ids (snd (serve toString_integral "p-3" req sample_store))).
Proof.
  intros req.
  assert (ND : NoDup (ids sample_store)).
  { repeat constructor; cbn; intuition discriminate. }
  assert (F : ~ In "p-3" (ids sample_store)).
  { cbn. intuition discriminate. }
  split; [exact ND|]. split; [exact F|].
  exact (ids_stay_distinct toString_integral "p-3" req sample_store ND F).
Defined.

(** X4 at an update of the first initial product. *)
Lemma well_formed_witness :
  let req :=
    authorized PUT ["api"; "products"; "p-1"] (sample_payload (VNum (Fin 10))) in
  Forall well_formed sample_store /\
  Forall well_formed (snd (serve toString_integral "p-3" req sample_store)).
Proof.
  intros req.
  assert (W : Forall well_formed sample_store).
  { repeat constructor; now exists true. }
  split; [exact W|].
  exact (stored_records_stay_well_formed toString_integral "p-3" req
           sample_store W).
Defined.

(** X5 at the lookup of the second initial product. *)
Lemma lookup_witness :
  "p-2" <> "" /\
  serve toString_integral "p-3" (anonymous GET ["api"; "products"; "p-2"])
    sample_store =
  (mkResponse 200
     (JProduct
        (mkProduct "p-2" (VStr "Smartphone") (VStr "Latest smartphone model")
           (VNum (literal (69999 # 100))) (VStr "Electronics") (VBool true))),
   sample_store).
Proof.
  assert (H : "p-2" <> "") by discriminate.
  split; [exact H|].
  exact (proj1 (lookup_by_id toString_integral "p-3" None no_query no_body []
                  "p-2" sample_store H)).
Defined.

(** X6 at a create on the initial store. *)
Lemma create_witness :
  let req := authorized POST ["api"; "products"] (sample_payload (VNum (Fin 10))) in
  let new :=
    mkProduct "p-3" (VStr "Tablet") (VStr "A tablet") (VNum (Fin 10))
      (VStr "Electronics") (VBool false) in
  rejected_fields (req_body req) = [] /\
  serve toString_integral "p-3" req sample_store =
    (mkResponse 201 (JProduct new), sample_store ++ [new]).
Proof.
  intros req new.
  assert (V : rejected_fields (req_body req) = []) by reflexivity.
  split; [exact V|].
  exact (proj1 (create_appends_one_record toString_integral "p-3" req
                  sample_store eq_refl eq_refl eq_refl V)).
Defined.

(** X7 at an authorized update with the empty object as payload, of an id
    that does not exist. *)
Lemma invalid_payload_witness :
  let req := authorized PUT ["api"; "products"; "p-9"] empty_object in
  mutating_endpoint req = true /\
  validation_throws (req_body req) = false /\
  rejected_fields (req_body req) <> [] /\
  exists errors,
    keys errors = ["name"; "description"; "price"; "category"; "inStock"] /\
    serve toString_integral "p-3" req sample_store =
    (mkResponse 400 (JMessage "Validation failed" (Some errors)), sample_store).
Proof.
  intros req.
  assert (M : mutating_endpoint req = true) by reflexivity.
  assert (T : validation_throws (req_body req) = false) by reflexivity.
  assert (V : rejected_fields (req_body req) <> []) by discriminate.
  split; [exact M|]. split; [exact T|]. split; [exact V|].
  destruct (invalid_payload_is_rejected toString_integral "p-3" req
              sample_store (or_intror eq_refl) M eq_refl T V)
    as (errors & _ & K & E).
  exists errors. split; [exact K | exact E].
Defined.

(** X8 at the delete of the first initial product. *)
Lemma delete_witness :
  let req := authorized DELETE ["api"; "products"; "p-1"] no_body in
  (exists p, In p sample_store /\ id p = "p-1") /\
  serve toString_integral "p-3" req sample_store =
  (mkResponse 204 Empty, skipn 1 sample_store).
Proof.
  intros req.
  assert (Ex : exists p, In p sample_store /\ id p = "p-1").
  { eexists. split; [left; reflexivity | reflexivity]. }
  split; [exact Ex|].
  destruct (delete_removes_the_id toString_integral "p-3" req sample_store
              "p-1" eq_refl eq_refl) as [Found _];
    [discriminate | reflexivity |].
  exact (proj1 (Found Ex)).
Defined.

(** X9 at the delete of the first initial product, then its lookup. *)
Lemma deleted_witness :
  let req := authorized DELETE ["api"; "products"; "p-1"] no_body in
  let products' := snd (serve toString_integral "p-3" req sample_store) in
  "p-1" <> "" /\
  serve toString_integral "p-4" (anonymous GET ["api"; "products"; "p-1"])
    products' =
  (mkResponse 404 (JMessage "Product not found" None), products').
Proof.
  intros req products'.
  assert (H : "p-1" <> "") by discriminate.
  split; [exact H|].
  destruct (deleted_id_is_gone toString_integral "p-3" "p-4" req sample_store
              "p-1" None no_query no_body [] eq_refl eq_refl H eq_refl)
    as (_ & G & _).
  exact G.
Defined.

(** X10 at a create on the initial store, then the lookup of the new id. *)
Lemma fetch_created_witness :
  let req := authorized POST ["api"; "products"] (sample_payload (VNum (Fin 10))) in
  let products' := snd (serve toString_integral "p-3" req sample_store) in
  "p-3" <> "" /\ ~ In "p-3" (ids sample_store) /\
  serve toString_integral "p-4" (anonymous GET ["api"; "products"; "p-3"])
    products' =
  (mkResponse 200 (JProduct (created_record "p-3" (req_body req))), products').
Proof.
  intros req products'.
  assert (H : "p-3" <> "") by discriminate.
  assert (F : ~ In "p-3" (ids sample_store)).
  { cbn. intuition discriminate. }
  split; [exact H|]. split; [exact F|].
  exact (proj2 (created_product_can_be_fetched toString_integral "p-3" "p-4"
                  req sample_store None no_query no_body []
                  eq_refl eq_refl eq_refl eq_refl H F)).
Defined.

(** X11 at an update of the first initial product, then its lookup. *)
Lemma fetch_updated_witness :
  let req :=
    authorized PUT ["api"; "products"; "p-1"] (sample_payload (VNum (Fin 10))) in
  let products' := snd (serve toString_integral "p-3" req sample_store) in
  (exists p, In p sample_store /\ id p = "p-1") /\
  exists updated,
    fst (serve toString_integral "p-3" req sample_store) =
      mkResponse 200 (JProduct updated) /\
    serve toString_integral "p-4" (anonymous GET ["api"; "products"; "p-1"])
      products' =
    (mkResponse 200 (JProduct updated), products').
Proof.
  intros req products'.
  assert (Ex : exists p, In p sample_store /\ id p = "p-1").
  { eexists. split; [left; reflexivity | reflexivity]. }
  split; [exact Ex|].
  destruct (updated_product_can_be_fetched toString_integral "p-3" "p-4" req
              sample_store "p-1" None no_query no_body []
              eq_refl eq_refl ltac:(discriminate) eq_refl eq_refl Ex)
    as (u & R & _ & G).
  exists u. split; [exact R | exact G].
Defined.

(** X13 at the listing without any parameter. *)
Lemma plain_listing_witness :
  let req := anonymous GET ["api"; "products"] in
  truthy (qvalue (query_category (req_query req))) = false /\
  get_products req sample_store =
    Ok (mkResponse 200 (JPage 2 1 10 sample_store), sample_store).
Proof.
  intros req.
  assert (H : truthy (qvalue (query_category (req_query req))) = false)
    by reflexivity.
  split; [exact H|].
  exact (proj1 (listing_without_filters req sample_store H eq_refl)).
Defined.

(** X14 at the listing of the second page of size 1. *)
Lemma sound_listing_witness :
  let req :=
    mkRequest GET ["api"; "products"] None
      (mkQuery QAbsent QAbsent (QStr "2") (QStr "1")) no_body [] in
  let r := mkResponse 200 (JPage 2 2 1 (skipn 1 sample_store)) in
  get_products req sample_store = Ok (r, sample_store) /\
  exists total page limit data,
    r = mkResponse 200 (JPage total page limit data) /\
    (total <= 2)%nat /\ (List.length data <= total)%nat.
Proof.
  intros req r.
  assert (H : get_products req sample_store = Ok (r, sample_store))
    by reflexivity.
  split; [exact H|].
  destruct (listing_answer_is_sound req sample_store r sample_store H)
    as (_ & total & page & limit & data & E & T & D & _).
  exists total, page, limit, data. split; [exact E|]. split; [exact T | exact D].
Defined.

(** X15 at [?category=Electronics&search=lap] on the initial store. *)
Lemma matches_witness :
  let req :=
    mkRequest GET ["api"; "products"] None
      (mkQuery (QStr "Electronics") (QStr "lap") QAbsent QAbsent) no_body [] in
  Forall textual sample_store /\
  exists total page limit data,
    get_products req sample_store =
      Ok (mkResponse 200 (JPage total page limit data), sample_store) /\
    forall p, In p data -> name_contains "lap" p = true.
Proof.
  intros req.
  assert (T : Forall textual sample_store).
  { repeat constructor; eexists; reflexivity. }
  split; [exact T|].
  destruct (listing_returns_only_matches req sample_store T I I)
    as (total & page & limit & data & E & M).
  exists total, page, limit, data. split; [exact E|].
  intros p Hp. destruct (M p Hp) as (_ & _ & S). now apply S.
Defined.

(** X16 at the second page of size 1 of the initial store. *)
Lemma page_length_witness :
  let req :=
    mkRequest GET ["api"; "products"] None
      (mkQuery QAbsent QAbsent (QStr "2") (QStr "1")) no_body [] in
  get_products req sample_store =
    Ok (mkResponse 200 (JPage 2 2 1 (skipn 1 sample_store)), sample_store) /\
  (Z.of_nat (List.length (skipn 1 sample_store)) <= 1)%Z.
Proof.
  intros req.
  assert (H : get_products req sample_store =
              Ok (mkResponse 200 (JPage 2 2 1 (skipn 1 sample_store)),
                  sample_store)) by reflexivity.
  split; [exact H|].
  refine (proj1 (page_holds_at_most_limit req sample_store sample_store 2 2 1
                   (skipn 1 sample_store) H _ _)); vm_compute; discriminate.
Defined.

(** X17 at the pages 1 and 2 of size 1 of the initial store. *)
Lemma tiling_witness :
  let req page :=
    mkRequest GET ["api"; "products"] None
      (mkQuery QAbsent QAbsent (QStr page) (QStr "1")) no_body [] in
  get_products (req "1") sample_store =
    Ok (mkResponse 200 (JPage 2 1 1 (firstn 1 sample_store)), sample_store) /\
  get_products (req "2") sample_store =
    Ok (mkResponse 200 (JPage 2 2 1 (skipn 1 sample_store)), sample_store) /\
  exists kept,
    firstn 1 sample_store ++ skipn 1 sample_store = window kept 0 2.
Proof.
  intros req.
  assert (H1 : get_products (req "1") sample_store =
               Ok (mkResponse 200 (JPage 2 1 1 (firstn 1 sample_store)),
                   sample_store)) by reflexivity.
  assert (H2 : get_products (req "2") sample_store =
               Ok (mkResponse 200 (JPage 2 (1 + 1) 1 (skipn 1 sample_store)),
                   sample_store)) by reflexivity.
  split; [exact H1|]. split; [exact H2|].
  destruct (consecutive_pages_tile (req "1") (req "2") sample_store
              sample_store sample_store 2 2 1 1 (firstn 1 sample_store)
              (skipn 1 sample_store) eq_refl eq_refl H1 H2)
    as (_ & kept & _ & _ & E); [vm_compute; discriminate.. |].
  exists kept. exact E.
Defined.

(** X18 at the parameters [ELECTRONICS] and [LAP] against [electronics]
    and [lap]. *)
Lemma letter_case_witness :
  let req c t :=
    mkRequest GET ["api"; "products"] None
      (mkQuery (QStr c) (QStr t) QAbsent QAbsent) no_body [] in
  toLowerCase "ELECTRONICS" = toLowerCase "electronics" /\
  toLowerCase "LAP" = toLowerCase "lap" /\
  get_products (req "ELECTRONICS" "LAP") sample_store =
  get_products (req "electronics" "lap") sample_store.
Proof.
  intros req.
  assert (C : toLowerCase "ELECTRONICS" = toLowerCase "electronics")
    by reflexivity.
  assert (T : toLowerCase "LAP" = toLowerCase "lap") by reflexivity.
  split; [exact C|]. split; [exact T|].
  exact (filter_parameters_ignore_case (req "ELECTRONICS" "LAP")
           (req "electronics" "lap") sample_store "ELECTRONICS" "electronics"
           "LAP" "lap" eq_refl eq_refl C eq_refl eq_refl T eq_refl eq_refl).
Defined.

(** X19 at the price 10. *)
Lemma numeric_price_witness :
  let b := sample_payload (VNum (Fin 10)) in
  other_fields_valid b /\
  (rejected_fields b = [] <-> positive (Fin 10)) /\
  price (created_record "p-3" b) = VNum (Fin 10).
Proof.
  intros b.
  assert (V : other_fields_valid b).
  { repeat split. now exists false. }
  split; [exact V|].
  exact (numeric_price_accepted_iff_positive "p-3" b (Fin 10) V eq_refl).
Defined.

(** X20 at the initial store. *)
Lemma counts_witness :
  let ns := [literal (99999 # 100); literal (69999 # 100)] in
  let ks := ["Electronics"; "Electronics"] in
  map price sample_store = map VNum ns /\
  category_keys toString_integral sample_store = Ok ks /\
  Forall ordinary_key ks /\
  exists s (counts : list nat),
    stats toString_integral sample_store = Ok s /\
    map snd (Stats.categories s) = map of_nat counts /\
    list_sum counts = Stats.totalProducts s.
Proof.
  intros ns ks.
  assert (P : map price sample_store = map VNum ns) by reflexivity.
  assert (K : category_keys toString_integral sample_store = Ok ks)
    by reflexivity.
  assert (O : Forall ordinary_key ks) by (repeat constructor).
  split; [exact P|]. split; [exact K|]. split; [exact O|].
  exact (category_counts_add_up toString_integral sample_store ns ks P K O).
Defined.

(** X21 at [GET /api/products/STATS]. *)
Lemma statistics_lookup_witness :
  let req := anonymous GET ["api"; "products"; "STATS"] in
  match_path stats_pattern (req_path req) = Some [] /\
  exists i,
    toLowerCase i = "stats" /\
    serve toString_integral "p-3" req sample_store =
    (mkResponse 404 (JMessage "Product not found" None), sample_store).
Proof.
  intros req.
  assert (M : match_path stats_pattern (req_path req) = Some [])
    by reflexivity.
  split; [exact M|].
  destruct (statistics_requests_are_id_lookups toString_integral "p-3" req
              sample_store [] eq_refl M) as (i & Hi & E).
  exists i. split; [exact Hi|].
  destruct (find (fun p => String.eqb (id p) i) sample_store) as [p|] eqn:F;
    [|exact E].
  exfalso. apply find_some in F as [Hp Hid]. apply String.eqb_eq in Hid.
  subst i. destruct Hp as [<-|[<-|[]]]; discriminate Hi.
Defined.

(** X24 at a create followed by a delete, on the initial store. *)
Lemma distinct_ids_sequence_witness :
  let requests :=
    [("p-3", authorized POST ["api"; "products"] (sample_payload (VNum (Fin 10))));
     ("p-4", authorized DELETE ["api"; "products"; "p-1"] no_body)] in
  NoDup (ids sample_store ++ map fst requests) /\
  NoDup (ids (serve_all toString_integral requests sample_store)).
Proof.
  intros requests.
  assert (ND : NoDup (ids sample_store ++ map fst requests)).
  { repeat constructor; cbn; intuition discriminate. }
  split; [exact ND|].
  exact (reachable_stores_have_distinct_ids toString_integral requests
           sample_store ND).
Defined.

(** X26 at a create whose price is an object without a primitive value. *)
Lemma throwing_payload_witness :
  let req := authorized POST ["api"; "products"] (sample_payload VOpaque) in
  mutating_endpoint req = true /\
  validation_throws (req_body req) = true /\
  exists e,
    serve toString_integral "p-3" req sample_store =
    (mkResponse 500 (JMessage (message e) None), sample_store).
Proof.
  intros req.
  assert (M : mutating_endpoint req = true) by reflexivity.
  assert (T : validation_throws (req_body req) = true) by reflexivity.
  split; [exact M|]. split; [exact T|].
  destruct (throwing_payload_is_answered_500 toString_integral "p-3" req
              sample_store (or_introl eq_refl) M eq_refl T) as (e & _ & E).
  exists e. exact E.
Defined.

(** ** Further examples *)

(** A category that is a name inherited from [Object.prototype] is not
    counted: the count read is the inherited function, and adding 1 to it
    gives [NaN]. *)
Lemma inherited_category_is_miscounted :
  exists s,
    stats toString_integral
      [mkProduct "p-1" (VStr "Pen") (VStr "A pen") (VNum (Fin 2))
         (VStr "constructor") (VBool true)] = Ok s /\
    Stats.categories s = [("constructor", NaN)].
Proof. eexists. split; reflexivity. Qed.

(** A category that is an object without a primitive value makes the
    aggregation throw. *)
Lemma opaque_category_makes_statistics_throw :
  stats toString_integral
    [mkProduct "p-1" (VStr "Pen") (VStr "A pen") (VNum (Fin 2)) VOpaque
       (VBool true)] = Throw no_primitive.
Proof. reflexivity. Qed.

(** The average of the prices 0.1 and 0.2 is not their arithmetic mean: the
    sum is rounded. *)
Lemma mean_of_tenths_is_rounded :
  let ns := [literal (1 # 10); literal (2 # 10)] in
  ~ num_equiv
      (num_or (float_div (float_sum ns) (of_nat (List.length ns))) (Fin 0))
      (arithmetic_mean ns).
Proof. vm_compute. discriminate. Qed.

(** A price given as a hexadecimal literal passes validation, which reads
    it as a number, and is stored as 0, [parseFloat] stopping at the [x]. *)
Lemma hexadecimal_price_is_stored_as_zero :
  exists new,
    serve toString_integral "p-3"
      (authorized POST ["api"; "products"] (sample_payload (VStr "0x10")))
      sample_store =
    (mkResponse 201 (JProduct new), sample_store ++ [new]) /\
    StringToNumber "0x10" = Fin 16 /\ price new = VNum (Fin 0).
Proof. eexists. split; [|split]; reflexivity. Qed.

(** A price too small for binary64 reads as 0 and is rejected. *)
Lemma underflowing_price_is_rejected :
  StringToNumber "1e-400" = Fin 0 /\
  rejected_fields (sample_payload (VStr "1e-400")) = ["price"].
Proof. split; vm_compute; reflexivity. Qed.

(** A trailing slash does not change the route taken. *)
Lemma trailing_slash_is_served :
  serve toString_integral "p-3" (anonymous GET ["api"; "products"; ""])
    sample_store =
  serve toString_integral "p-3" (anonymous GET ["api"; "products"])
    sample_store.
Proof. reflexivity. Qed.

(** A HEAD request is answered as the GET request, without the body. *)
Lemma head_request_has_no_body :
  serve toString_integral "p-3" (anonymous HEAD ["api"; "products"; "p-9"])
    sample_store =
  (mkResponse 404 Empty, sample_store).
Proof. reflexivity. Qed.

(** An OPTIONS request is answered with the methods of the routes of its
    path. *)
Lemma options_request_lists_methods :
  serve toString_integral "p-3" (anonymous OPTIONS ["api"; "products"])
    sample_store =
  (mkResponse 200 (Text "GET,HEAD,POST"), sample_store).
Proof. reflexivity. Qed.
